(** * The dedupe-index coordinator of kvdo ([vdo/kernel/dedupeIndex.c])

    A shallow embedding of the advice codec, the timer tunables, the request
    dispatcher with its pending list and time-out plane, and the session
    state machine, followed by the properties proved about them.

    Conventions of the embedding:
    - C integers are [Z]; where the C type can wrap the wrap-around is
      written out ([ulong], [uint64], [sint32], [sint64]).  The kernel's
      [unsigned long] is taken as 64 bits wide (LP64), as on every platform
      kvdo is built for.
    - The metadata of a UDS request is a [list byte]; writes at an index are
      stdpp list inserts, little-endian words come from coqutil.
    - [struct data_kvio] objects live in a store [gmap nat dedupe_context];
      the intrusive pending list is the list of their keys, so that a context
      reached through the list and through the store is one object.  A key
      without an object has no counterpart in C (a list node lies inside its
      context); a function handed one leaves everything as it is.
    - A spinlock-protected region is one function; a function that drops the
      lock in the middle is cut at that point into the parts run under the
      lock and the part run without it.
    - What the code hands to its environment (data-path callbacks, log lines,
      work items) is appended to lists held in the model of the layer. *)

From Stdlib Require Import ZArith List Lia Bool.
From coqutil Require Import Byte Word.LittleEndianList Datatypes.RecordSetters.
From stdpp Require Import base gmap list strings.
Import ListNotations.
Import RecordSetters.DoubleBraceUpdate.
Local Open Scope Z_scope.

#[global] Arguments constant {E} newValue _ /.
#[global] Arguments apply_update {R E} u _ /.

(** ** Integer types *)

Definition ulong (z : Z) : Z := z mod 2 ^ 64.
Definition uint64 (z : Z) : Z := z mod 2 ^ 64.
Definition uint32 (z : Z) : Z := z mod 2 ^ 32.
Definition sint32 (z : Z) : Z := (z + 2 ^ 31) mod 2 ^ 32 - 2 ^ 31.
Definition sint64 (z : Z) : Z := (z + 2 ^ 63) mod 2 ^ 64 - 2 ^ 63.

(** ** Constants the file takes from headers that are not part of it *)

(** Status codes of [uds.h] and the errno [ETIMEDOUT]; their numeric values
    are parameters of the development. *)
Class status_codes := {
  UDS_SUCCESS : Z;
  UDS_CORRUPT_COMPONENT : Z;
  UDS_NO_INDEX : Z;
  ETIMEDOUT : Z;
}.

(** The kernel's conversions between milliseconds and timer ticks. *)
Class tick_conversion := {
  msecs_to_jiffies : Z -> Z;
  jiffies_to_msecs : Z -> Z;
}.

(** [UdsCallbackType], restricted to the operations the coordinator issues. *)
Inductive UdsCallbackType := UDS_POST | UDS_QUERY | UDS_UPDATE.

(** The values of the atomic [dedupe_context.request_state]. *)
Inductive request_state_t := UR_IDLE | UR_BUSY | UR_TIMED_OUT.

Inductive index_state_t := IS_CLOSED | IS_CHANGING | IS_OPENED.

#[global] Instance request_state_eq_dec : EqDecision request_state_t.
Proof. solve_decision. Defined.
#[global] Instance index_state_eq_dec : EqDecision index_state_t.
Proof. solve_decision. Defined.
#[global] Instance UdsCallbackType_eq_dec : EqDecision UdsCallbackType.
Proof. solve_decision. Defined.

Definition DEDUPE_TIMEOUT_REPORT_INTERVAL : Z := 1000.
Definition UDS_ADVICE_VERSION : Z := 2.
Definition UDS_ADVICE_SIZE : nat := 1 + 1 + 8.

(** The names shown for the index state.  The C code keeps one copy of each
    string and compares the pointers, which is equality of constructors. *)
Inductive state_name := CLOSED | CLOSING | ERROR | OFFLINE | ONLINE | OPENING | UNKNOWN.

#[global] Instance state_name_eq_dec : EqDecision state_name.
Proof. solve_decision. Defined.

Definition state_name_string (n : state_name) : string :=
  match n with
  | CLOSED => "closed" | CLOSING => "closing" | ERROR => "error"
  | OFFLINE => "offline" | ONLINE => "online" | OPENING => "opening"
  | UNKNOWN => "unknown"
  end.

(** ** Data *)

Record DataLocation := { pbn : Z; state : Z }.

Inductive log_entry :=
| LogInvalidAdviceVersion (version : Z)
| LogTargetState (name : state_name)
| LogTargetStateError
| LogWrongDevice
| LogEngineError (what : string) (result : Z)
| LogTimeouts (difference : Z).

(** The fields of [UdsRequest] the coordinator touches.  [callback_set]
    records that [callback] points to [finish_index_operation], the only
    value it is ever given. *)
Record UdsRequest := {
  chunkName : Z;
  callback_set : bool;
  session : Z;
  type : UdsCallbackType;
  update : bool;
  newMetadata : list byte;
  oldMetadata : list byte;
  req_status : Z;
  found : bool;
}.

(** ** The advice codec *)

(** Bytes written one after the other from [offset] on. *)
Fixpoint store_bytes (data : list byte) (offset : nat) (bs : list byte) : list byte :=
  match bs with
  | [] => data
  | b :: bs' => store_bytes (<[offset := b]> data) (S offset) bs'
  end.

(** Modelled from the spec: [encodeUInt64LE] of [numeric.h], which the file
    includes but which is not among the sources at hand.  It stores the eight
    bytes of a 64-bit value at [offset], least significant first, and
    advances the offset by eight. *)
Definition encodeUInt64LE (data : list byte) (offset : nat) (toEncode : Z)
  : list byte * nat :=
  (store_bytes data offset (le_split 8 toEncode), (offset + 8)%nat).

(** Modelled from the spec: [decodeUInt64LE] of [numeric.h], the inverse
    reader: eight bytes from [offset], least significant first. *)
Definition decodeUInt64LE (data : list byte) (offset : nat) : Z * nat :=
  (le_combine (firstn 8 (skipn offset data)), (offset + 8)%nat).

(** The body of [encode_uds_advice] up to its [BUG_ON]: the bytes written and
    the offset reached. *)
Definition encode_uds_advice_bytes (encoding : list byte) (advice : DataLocation)
  : list byte * nat :=
  let offset := 0%nat in
  let encoding := <[offset := byte.of_Z UDS_ADVICE_VERSION]> encoding in
  let offset := S offset in
  let encoding := <[offset := byte.of_Z (state advice)]> encoding in
  let offset := S offset in
  encodeUInt64LE encoding offset (pbn advice).

(** [encode_uds_advice]: writes into [newMetadata].  The [BUG_ON] never fires
    (lemma [encode_uds_advice_offset] below), so the function is total. *)
Definition encode_uds_advice (request : UdsRequest) (advice : DataLocation)
  : UdsRequest :=
  request{{ newMetadata := fst (encode_uds_advice_bytes (newMetadata request) advice) }}.

(** [decode_uds_advice]: the C function returns a flag and fills [*advice];
    here the result is [Some advice] for [true] and [None] for [false], paired
    with the log lines written. *)
Definition decode_uds_advice `{status_codes} (request : UdsRequest)
  : option DataLocation * list log_entry :=
  if negb (req_status request =? UDS_SUCCESS) || negb (found request) then (None, [])
  else
    let offset := 0%nat in
    let encoding := oldMetadata request in
    let version := byte.unsigned (nth offset encoding Byte.x00) in
    let offset := S offset in
    if negb (version =? UDS_ADVICE_VERSION) then
      (None, [LogInvalidAdviceVersion version])
    else
      let st := byte.unsigned (nth offset encoding Byte.x00) in
      let offset := S offset in
      let '(p, _) := decodeUInt64LE encoding offset in
      (Some {| pbn := p; state := st |}, []).

(** ** Requests, the index and the surrounding layer *)

(** The per-request record.  In C the two advice slots belong to the
    enclosing [data_kvio] and are reached through [get_dedupe_advice] and
    [set_dedupe_advice]; here they are fields of the context. *)
Record dedupe_context := {
  request_state : request_state_t;
  is_pending : bool;
  submission_time : Z;
  status : Z;
  chunk_name : Z;
  uds_request : UdsRequest;
  advice_out : DataLocation;
  advice_in : option DataLocation;
}.

Record periodic_event_reporter := {
  last_reported_value : Z;
  value : Z;
  reporting_interval : Z;
  work_item_queued : Z;
}.

(** The work functions that are put on the index queue. *)
Inductive work_item :=
| WorkStartIndexOperation (data_kvio : nat)
| WorkChangeDedupeState.

Record dedupe_index := {
  index_name : string;
  configuration : Z;
  index_session : Z;
  active : Z;
  timeout_reporter : periodic_event_reporter;
  uds_queue : list work_item;
  maximum : Z;
  index_state : index_state_t;
  index_target : index_state_t;
  changing : bool;
  create_flag : bool;
  dedupe_flag : bool;
  deduping : bool;
  error_flag : bool;
  pending_head : list nat;
  pending_timer : option Z;
  started_timer : bool;
}.

(** The file-level timer tunables: two in milliseconds, two in ticks. *)
Record albireo_timers := {
  albireo_timeout_interval : Z;
  min_albireo_timer_interval : Z;
  albireo_timeout_jiffies : Z;
  min_albireo_timer_jiffies : Z;
}.

(** One invocation of the data-path callback, with what it finds in the
    context it is handed. *)
Record callback := { cb_kvio : nat; cb_status : Z; cb_advice : option DataLocation }.

(** Everything the coordinator reads and writes: the index, the pool of
    [data_kvio] objects, the layer's busy counter and CPU queue (the due times
    of the delayed reporter item), the tunables, the log and the callbacks
    delivered so far, oldest first. *)
Record world := {
  w_index : dedupe_index;
  w_kvios : gmap nat dedupe_context;
  w_dedupeContextBusy : Z;
  w_cpu_queue : list Z;
  w_timers : albireo_timers;
  w_log : list log_entry;
  w_callbacks : list callback;
}.

(** The index engine, opaque to the coordinator: a state [E] and the calls
    made on it.  A call that stores a session through a pointer receives the
    session held so far and returns the one held afterwards. *)
Class uds_engine (E : Type) := {
  udsCreateLocalIndex : string -> Z -> Z -> E -> Z * Z * E;
  udsRebuildLocalIndex : string -> Z -> E -> Z * Z * E;
  udsGetIndexConfiguration : Z -> E -> Z * Z * E;
  udsCloseIndexSession : Z -> E -> Z * E;
  udsConfigurationGetNonce : Z -> Z;
  udsStartChunkOperation : UdsRequest -> E -> Z * E;
}.

(** ** Helpers from headers outside the file *)

(** Modelled from the spec: [compareAndSwap32] of [atomic.h], the
    compare-and-set on [request_state]; returns the value held afterwards and
    whether the swap took place. *)
Definition compareAndSwap32 (current oldValue newValue : request_state_t)
  : request_state_t * bool :=
  if decide (current = oldValue) then (newValue, true) else (current, false).

(** The kernel's [atomic_t] and [atomic64_t] counters hold a signed 32-bit
    and a signed 64-bit value and wrap. *)
Definition atomic_inc (v : Z) : Z := sint32 (v + 1).
Definition atomic_dec (v : Z) : Z := sint32 (v - 1).
Definition atomic64_inc (v : Z) : Z := sint64 (v + 1).

(** Modelled from the spec: [maxULong] of [numeric.h], the larger of two
    [unsigned long] values. *)
Definition maxULong (a b : Z) : Z := Z.max a b.

(** Modelled from the spec: [get_dedupe_advice] of [dataKVIO.h], the reader
    of the outbound advice slot. *)
Definition get_dedupe_advice (context : dedupe_context) : DataLocation :=
  advice_out context.

(** Modelled from the spec: [set_dedupe_advice] of [dataKVIO.h], the writer
    of the inbound advice slot; a null pointer is [None]. *)
Definition set_dedupe_advice (advice : option DataLocation) (context : dedupe_context)
  : dedupe_context :=
  context{{ advice_in := advice }}.

(** Modelled from the spec: [invoke_dedupe_callback] of [dataKVIO.h], the
    single callback handed the status and the advice, if any. *)
Definition invoke_dedupe_callback (data_kvio : nat) (w : world) : world :=
  match w_kvios w !! data_kvio with
  | None => w
  | Some context =>
      w{{ w_callbacks ::= fun l => l ++ [{| cb_kvio := data_kvio;
                                             cb_status := status context;
                                             cb_advice := advice_in context |}] }}
  end.

Definition log (entry : log_entry) (w : world) : world :=
  w{{ w_log ::= fun l => l ++ [entry] }}.

(** The kernel's list primitives, on the list of keys. *)
Definition list_add_tail (entry : nat) (head : list nat) : list nat := head ++ [entry].
Definition list_del (entry : nat) (head : list nat) : list nat :=
  filter (fun e => e <> entry) head.

(** ** State presentation *)

Definition index_state_to_string (index : dedupe_index) (st : index_state_t)
  : state_name :=
  match st with
  | IS_CLOSED => if error_flag index then ERROR else CLOSED
  | IS_CHANGING =>
      if decide (index_target index = IS_OPENED) then OPENING else CLOSING
  | IS_OPENED => if dedupe_flag index then ONLINE else OFFLINE
  end.

(** ** Timer tunables *)

Definition get_albireo_timeout (t : albireo_timers) (jiffies start_jiffies : Z) : Z :=
  maxULong (ulong (start_jiffies + albireo_timeout_jiffies t))
           (ulong (jiffies + min_albireo_timer_jiffies t)).

Definition set_albireo_timeout_interval `{tick_conversion} (value0 : Z)
    (t : albireo_timers) : albireo_timers :=
  let value0 := if 120000 <? value0 then 120000 else value0 in
  let alb_jiffies := msecs_to_jiffies value0 in
  let '(alb_jiffies, value0) :=
    if alb_jiffies <? 2 then (2, jiffies_to_msecs 2) else (alb_jiffies, value0) in
  t{{ albireo_timeout_interval := value0; albireo_timeout_jiffies := alb_jiffies }}.

Definition set_min_albireo_timer_interval `{tick_conversion} (value0 : Z)
    (t : albireo_timers) : albireo_timers :=
  let value0 := if 1000 <? value0 then 1000 else value0 in
  let min_jiffies := msecs_to_jiffies value0 in
  let '(min_jiffies, value0) :=
    if min_jiffies <? 2 then (2, jiffies_to_msecs 2) else (min_jiffies, value0) in
  t{{ min_albireo_timer_interval := value0; min_albireo_timer_jiffies := min_jiffies }}.

(** ** The time-out reporter *)

Definition report_events (reporter : periodic_event_reporter)
  : periodic_event_reporter * list log_entry :=
  let reporter := reporter{{ work_item_queued := 0 }} in
  let new_value := uint64 (value reporter) in
  let difference := uint64 (new_value - last_reported_value reporter) in
  if negb (difference =? 0) then
    (reporter{{ last_reported_value := new_value }}, [LogTimeouts difference])
  else (reporter, []).

(** [report_dedupe_timeout]: count the event and, unless the report is
    already queued, queue it on the CPU queue for [jiffies] plus the
    reporting interval. *)
Definition report_dedupe_timeout (jiffies : Z) (w : world) : world :=
  let reporter := timeout_reporter (w_index w) in
  let reporter := reporter{{ value ::= atomic64_inc }} in
  let oldWorkItemQueued := work_item_queued reporter in
  let reporter := reporter{{ work_item_queued := 1 }} in
  let w := w{{ w_index -> timeout_reporter := reporter }} in
  if oldWorkItemQueued =? 0 then
    w{{ w_cpu_queue ::= fun q => q ++ [ulong (jiffies + reporting_interval reporter)] }}
  else w.

(** ** The pending list and its timer *)

Definition start_expiration_timer (t : albireo_timers) (jiffies : Z)
    (context : dedupe_context) (index : dedupe_index) : dedupe_index :=
  if negb (started_timer index) then
    index{{ started_timer := true;
            pending_timer :=
              Some (get_albireo_timeout t jiffies (submission_time context)) }}
  else index.

(** [finish_index_operation]: the completion the engine calls through
    [request->callback]. *)
Definition finish_index_operation `{status_codes} (data_kvio : nat) (w : world)
  : world :=
  match w_kvios w !! data_kvio with
  | None => w
  | Some context =>
      let '(rs, swapped) := compareAndSwap32 (request_state context) UR_BUSY UR_IDLE in
      let context := context{{ request_state := rs }} in
      if swapped then
        let index := w_index w in
        let '(index, context) :=
          if is_pending context then
            (index{{ pending_head ::= list_del data_kvio }},
             context{{ is_pending := false }})
          else (index, context) in
        let uds_request0 := uds_request context in
        let context := context{{ status := req_status uds_request0 }} in
        let '(context, logged) :=
          if bool_decide (type uds_request0 = UDS_POST)
             || bool_decide (type uds_request0 = UDS_QUERY) then
            let '(advice, logged) := decode_uds_advice uds_request0 in
            (set_dedupe_advice advice context, logged)
          else (context, []) in
        let w := w{{ w_index := index; w_kvios ::= <[data_kvio := context]>;
                     w_log ::= fun l => l ++ logged }} in
        let w := invoke_dedupe_callback data_kvio w in
        w{{ w_index -> active ::= atomic_dec }}
      else
        let '(rs, _) := compareAndSwap32 (request_state context) UR_TIMED_OUT UR_IDLE in
        w{{ w_kvios ::= <[data_kvio := context{{ request_state := rs }}]> }}
  end.

(** [start_index_operation]: the work function that puts the request on the
    pending list and hands it to the engine. *)
Definition start_index_operation `{status_codes} `{uds_engine E} (jiffies : Z)
    (data_kvio : nat) (w : world) (e : E) : world * E :=
  match w_kvios w !! data_kvio with
  | None => (w, e)
  | Some context =>
      let index := (w_index w){{ pending_head ::= list_add_tail data_kvio }} in
      let context := context{{ is_pending := true }} in
      let index := start_expiration_timer (w_timers w) jiffies context index in
      let w := w{{ w_index := index; w_kvios ::= <[data_kvio := context]> }} in
      let '(status0, e) := udsStartChunkOperation (uds_request context) e in
      if negb (status0 =? UDS_SUCCESS) then
        let context := context{{ uds_request -> req_status := status0 }} in
        (finish_index_operation data_kvio
           (w{{ w_kvios ::= <[data_kvio := context]> }}), e)
      else (w, e)
  end.

(** The first loop of [timeout_index_operations], run under the pending
    lock: entries are taken from the head of the pending list while they are
    older than [earliest_submission_allowed]; at the first one that is not,
    the timer is started for it and the loop ends.  Returns the index, the
    store and the expired list. *)
Fixpoint collect_expired (t : albireo_timers) (jiffies earliest_submission_allowed : Z)
    (pending : list nat) (index : dedupe_index) (kvios : gmap nat dedupe_context)
    (expiredHead : list nat)
  : dedupe_index * gmap nat dedupe_context * list nat :=
  match pending with
  | [] => (index{{ pending_head := [] }}, kvios, expiredHead)
  | data_kvio :: rest =>
      match kvios !! data_kvio with
      | None => (index{{ pending_head := pending }}, kvios, expiredHead)
      | Some context =>
          if earliest_submission_allowed <=? submission_time context then
            (start_expiration_timer t jiffies context (index{{ pending_head := pending }}),
             kvios, expiredHead)
          else
            collect_expired t jiffies earliest_submission_allowed rest index
              (<[data_kvio := context{{ is_pending := false }}]> kvios)
              (list_add_tail data_kvio expiredHead)
      end
  end.

(** The body of the second loop, run without the lock on one expired
    entry. *)
Definition timeout_one `{status_codes} (jiffies : Z) (w : world) (data_kvio : nat)
  : world :=
  match w_kvios w !! data_kvio with
  | None => w
  | Some context =>
      let '(rs, swapped) := compareAndSwap32 (request_state context) UR_BUSY UR_TIMED_OUT in
      let context := context{{ request_state := rs }} in
      if swapped then
        let context := context{{ status := ETIMEDOUT }} in
        let w := w{{ w_kvios ::= <[data_kvio := context]> }} in
        let w := invoke_dedupe_callback data_kvio w in
        let w := w{{ w_index -> active ::= atomic_dec }} in
        report_dedupe_timeout jiffies w
      else w
  end.

Definition timeout_index_operations `{status_codes} `{tick_conversion} (jiffies : Z)
    (w : world) : world :=
  let index := w_index w in
  let timeout_jiffies := uint64 (msecs_to_jiffies (albireo_timeout_interval (w_timers w))) in
  let earliest_submission_allowed := ulong (jiffies - timeout_jiffies) in
  let index := index{{ started_timer := false }} in
  let '(index, kvios, expiredHead) :=
    collect_expired (w_timers w) jiffies earliest_submission_allowed
      (pending_head index) index (w_kvios w) [] in
  let w := w{{ w_index := index; w_kvios := kvios }} in
  fold_left (timeout_one jiffies) expiredHead w.

(** ** The request dispatcher *)

Definition enqueue_index_operation `{status_codes} (jiffies : Z) (data_kvio : nat)
    (operation : UdsCallbackType) (w : world) : world :=
  match w_kvios w !! data_kvio with
  | None => w
  | Some context =>
      let index := w_index w in
      let context := context{{ status := UDS_SUCCESS; submission_time := jiffies }} in
      let '(rs, swapped) := compareAndSwap32 (request_state context) UR_IDLE UR_BUSY in
      let context := context{{ request_state := rs }} in
      if swapped then
        let uds_request0 :=
          (uds_request context){{ chunkName := chunk_name context;
                                  callback_set := true;
                                  session := index_session index;
                                  type := operation;
                                  update := true }} in
        let uds_request0 :=
          if bool_decide (operation = UDS_POST) || bool_decide (operation = UDS_UPDATE)
          then encode_uds_advice uds_request0 (get_dedupe_advice context)
          else uds_request0 in
        let context := context{{ uds_request := uds_request0 }} in
        if deduping index then
          let index := index{{ uds_queue ::= fun q => q ++ [WorkStartIndexOperation data_kvio];
                               active ::= atomic_inc }} in
          let active0 := uint32 (active index) in
          let index :=
            if maximum index <? active0 then index{{ maximum := active0 }} else index in
          w{{ w_index := index; w_kvios ::= <[data_kvio := context]> }}
        else
          let context := context{{ request_state := UR_IDLE }} in
          invoke_dedupe_callback data_kvio (w{{ w_kvios ::= <[data_kvio := context]> }})
      else
        invoke_dedupe_callback data_kvio
          (w{{ w_kvios ::= <[data_kvio := context]>;
               w_dedupeContextBusy ::= atomic64_inc }})
  end.

Definition post_dedupe_advice `{status_codes} (jiffies : Z) (data_kvio : nat) :=
  enqueue_index_operation jiffies data_kvio UDS_POST.
Definition query_dedupe_advice `{status_codes} (jiffies : Z) (data_kvio : nat) :=
  enqueue_index_operation jiffies data_kvio UDS_QUERY.
Definition update_dedupe_advice `{status_codes} (jiffies : Z) (data_kvio : nat) :=
  enqueue_index_operation jiffies data_kvio UDS_UPDATE.

(** ** The session state machine *)

(** [close_session] holds the state lock on entry and on exit and drops it
    around the engine call: the part before [spin_unlock], the part without
    the lock, the part after [spin_lock]. *)
Definition close_session_locked1 (w : world) : world :=
  w{{ w_index -> index_state := IS_CHANGING }}.

Definition close_session_unlocked `{status_codes} `{uds_engine E} (w : world) (e : E)
  : Z * world * E :=
  let '(result, e) := udsCloseIndexSession (index_session (w_index w)) e in
  let w :=
    if negb (result =? UDS_SUCCESS) then log (LogEngineError "Error closing index" result) w
    else w in
  (result, w, e).

Definition close_session_locked2 `{status_codes} (result : Z) (w : world) : world :=
  w{{ w_index -> index_state := IS_CLOSED;
      w_index -> error_flag ::= fun f => f || negb (result =? UDS_SUCCESS) }}.

Definition close_session `{status_codes} `{uds_engine E} (w : world) (e : E)
  : world * E :=
  let w := close_session_locked1 w in
  let '(result, w, e) := close_session_unlocked w e in
  (close_session_locked2 result w, e).

(** [open_session], cut the same way.  The first part returns the captured
    [create_flag]; the part without the lock returns [result] and
    [next_create_flag]; the last part also tells whether it ended in the
    branch that drops the lock once more to log. *)
Definition open_session_locked1 (w : world) : bool * world :=
  let create_flag0 := create_flag (w_index w) in
  (create_flag0,
   w{{ w_index -> create_flag := false;
       w_index -> index_state := IS_CHANGING;
       w_index -> error_flag := false }}).

Definition open_session_unlocked `{status_codes} `{uds_engine E} (create_flag0 : bool)
    (w : world) (e : E) : Z * bool * world * E :=
  let index := w_index w in
  if create_flag0 then
    let '(result, session0, e) :=
      udsCreateLocalIndex (index_name index) (configuration index) (index_session index) e in
    let w := w{{ w_index -> index_session := session0 }} in
    let w :=
      if negb (result =? UDS_SUCCESS)
      then log (LogEngineError "Error creating index" result) w else w in
    (result, false, w, e)
  else
    let '(result, session0, e) :=
      udsRebuildLocalIndex (index_name index) (index_session index) e in
    let w := w{{ w_index -> index_session := session0 }} in
    if negb (result =? UDS_SUCCESS) then
      (result, false, log (LogEngineError "Error opening index" result) w, e)
    else
      let '(result, configuration0, e) := udsGetIndexConfiguration session0 e in
      if negb (result =? UDS_SUCCESS) then
        let w := log (LogEngineError "Error reading configuration" result) w in
        let '(closeResult, e) := udsCloseIndexSession session0 e in
        let w :=
          if negb (closeResult =? UDS_SUCCESS)
          then log (LogEngineError "Error closing index" closeResult) w else w in
        (result, false, w, e)
      else if negb (udsConfigurationGetNonce (configuration index)
                    =? udsConfigurationGetNonce configuration0) then
        (result, true, log LogWrongDevice w, e)
      else (result, false, w, e).

Definition open_session_locked2 `{status_codes} (create_flag0 next_create_flag : bool)
    (result : Z) (w : world) : world * bool :=
  let w := if next_create_flag then w{{ w_index -> create_flag := true }} else w in
  if negb create_flag0
     && ((result =? UDS_CORRUPT_COMPONENT) || (result =? UDS_NO_INDEX)) then
    (w{{ w_index -> index_state := IS_CLOSED; w_index -> create_flag := true }}, false)
  else if result =? UDS_SUCCESS then
    (w{{ w_index -> index_state := IS_OPENED }}, false)
  else
    (w{{ w_index -> index_state := IS_CLOSED;
         w_index -> index_target := IS_CLOSED;
         w_index -> error_flag := true }}, true).

Definition open_session_log (w : world) : world := log LogTargetStateError w.

Definition open_session `{status_codes} `{uds_engine E} (w : world) (e : E)
  : world * E :=
  let '(create_flag0, w) := open_session_locked1 w in
  let '(result, next_create_flag, w, e) := open_session_unlocked create_flag0 w e in
  let '(w, logging) := open_session_locked2 create_flag0 next_create_flag result w in
  (if logging then open_session_log w else w, e).

(** The condition and the exit of the loop of [change_dedupe_state]. *)
Definition change_needed (index : dedupe_index) : bool :=
  bool_decide (index_state index <> index_target index) || create_flag index.

Definition change_done (w : world) : world :=
  let index := w_index w in
  w{{ w_index -> changing := false;
      w_index -> deduping := dedupe_flag index && bool_decide (index_state index = IS_OPENED) }}.

(** The work function run alone on the queue: the loop needs as many rounds
    as the engine makes it take, so it runs on [fuel] and yields [None] when
    the fuel is spent before the loop ends. *)
Fixpoint change_dedupe_loop `{status_codes} `{uds_engine E} (fuel : nat) (w : world)
    (e : E) : option (world * E) :=
  if change_needed (w_index w) then
    match fuel with
    | O => None
    | S fuel' =>
        let '(w, e) :=
          if bool_decide (index_state (w_index w) = IS_OPENED)
          then close_session w e else open_session w e in
        change_dedupe_loop fuel' w e
    end
  else Some (w, e).

Definition change_dedupe_state `{status_codes} `{uds_engine E} (fuel : nat) (w : world)
    (e : E) : option (world * E) :=
  match change_dedupe_loop fuel w e with
  | None => None
  | Some (w, e) => Some (change_done w, e)
  end.

(** The rounds the loop of [change_dedupe_state] goes through, for reading
    off what a run did. *)
Inductive round := RoundClose | RoundOpen (create_flag0 : bool).

Fixpoint change_dedupe_rounds `{status_codes} `{uds_engine E} (fuel : nat) (w : world)
    (e : E) : list round :=
  if change_needed (w_index w) then
    match fuel with
    | O => []
    | S fuel' =>
        if bool_decide (index_state (w_index w) = IS_OPENED) then
          let '(w, e) := close_session w e in
          RoundClose :: change_dedupe_rounds fuel' w e
        else
          let create_flag0 := create_flag (w_index w) in
          let '(w, e) := open_session w e in
          RoundOpen create_flag0 :: change_dedupe_rounds fuel' w e
    end
  else [].

Definition set_target_state (target : index_state_t)
    (change_dedupe dedupe set_create : bool) (w : world) : world :=
  let index := w_index w in
  let old_state := index_state_to_string index (index_target index) in
  let index := if change_dedupe then index{{ dedupe_flag := dedupe }} else index in
  let index := if set_create then index{{ create_flag := true }} else index in
  let index :=
    if changing index then index{{ index_target := target }}
    else if bool_decide (target <> index_target index) || set_create then
      index{{ index_target := target;
              changing := true;
              deduping := false;
              uds_queue ::= fun q => q ++ [WorkChangeDedupeState] }}
    else
      index{{ deduping := dedupe_flag index && bool_decide (index_state index = IS_OPENED) }} in
  let new_state := index_state_to_string index (index_target index) in
  let w := w{{ w_index := index }} in
  if bool_decide (old_state <> new_state) then log (LogTargetState new_state) w else w.

Definition start_dedupe_index (create_flag0 : bool) (w : world) : world :=
  set_target_state IS_OPENED true true create_flag0 w.

Definition stop_dedupe_index (w : world) : world :=
  set_target_state IS_CLOSED false false false w.

(** The index as [make_dedupe_index] leaves it: allocated zeroed, then the
    name, the configuration and the reporter filled in. *)
Definition make_index `{tick_conversion} (name : string) (config : Z) : dedupe_index :=
  {| index_name := name; configuration := config; index_session := 0; active := 0;
     timeout_reporter :=
       {| last_reported_value := 0; value := 0;
          reporting_interval := msecs_to_jiffies DEDUPE_TIMEOUT_REPORT_INTERVAL;
          work_item_queued := 0 |};
     uds_queue := []; maximum := 0;
     index_state := IS_CLOSED; index_target := IS_CLOSED;
     changing := false; create_flag := false; dedupe_flag := false;
     deduping := false; error_flag := false;
     pending_head := []; pending_timer := None; started_timer := false |}.

(** ** The state machine among concurrent callers

    While the work function of [change_dedupe_state] is inside an engine
    call it does not hold the state lock, and [set_target_state] may run on
    another thread.  The places where the worker is without the lock are the
    values of [driver_pc]; between two of them it runs one locked part. *)
Inductive driver_pc :=
| PcIdle
| PcOpenUnlocked (create_flag0 : bool)
| PcOpenRelock (create_flag0 next_create_flag : bool) (result : Z)
| PcOpenLog
| PcCloseUnlocked
| PcCloseRelock (result : Z).

Record system (E : Type) := {
  sys_world : world;
  sys_engine : E;
  sys_pc : driver_pc;
}.
Arguments sys_world {E} _.
Arguments sys_engine {E} _.
Arguments sys_pc {E} _.

(** With the lock held, at the test of the loop: leave the loop, or run the
    first part of [close_session] or [open_session] up to its unlock. *)
Definition driver_resume {E : Type} (w : world) (e : E) : system E :=
  if change_needed (w_index w) then
    if bool_decide (index_state (w_index w) = IS_OPENED) then
      {| sys_world := close_session_locked1 w; sys_engine := e; sys_pc := PcCloseUnlocked |}
    else
      let '(create_flag0, w) := open_session_locked1 w in
      {| sys_world := w; sys_engine := e; sys_pc := PcOpenUnlocked create_flag0 |}
  else {| sys_world := change_done w; sys_engine := e; sys_pc := PcIdle |}.

(** One move of the queue's worker thread, to the next place without the
    lock.  An idle worker takes the work item at the head of the queue. *)
Definition worker_step `{status_codes} `{uds_engine E} (jiffies : Z) (s : system E)
  : option (system E) :=
  let w := sys_world s in
  let e := sys_engine s in
  match sys_pc s with
  | PcIdle =>
      match uds_queue (w_index w) with
      | [] => None
      | WorkChangeDedupeState :: rest =>
          Some (driver_resume (w{{ w_index -> uds_queue := rest }}) e)
      | WorkStartIndexOperation data_kvio :: rest =>
          let '(w, e) :=
            start_index_operation jiffies data_kvio (w{{ w_index -> uds_queue := rest }}) e in
          Some {| sys_world := w; sys_engine := e; sys_pc := PcIdle |}
      end
  | PcOpenUnlocked create_flag0 =>
      let '(result, next_create_flag, w, e) := open_session_unlocked create_flag0 w e in
      Some {| sys_world := w; sys_engine := e;
              sys_pc := PcOpenRelock create_flag0 next_create_flag result |}
  | PcOpenRelock create_flag0 next_create_flag result =>
      let '(w, logging) := open_session_locked2 create_flag0 next_create_flag result w in
      if logging then Some {| sys_world := w; sys_engine := e; sys_pc := PcOpenLog |}
      else Some (driver_resume w e)
  | PcOpenLog => Some (driver_resume (open_session_log w) e)
  | PcCloseUnlocked =>
      let '(result, w, e) := close_session_unlocked w e in
      Some {| sys_world := w; sys_engine := e; sys_pc := PcCloseRelock result |}
  | PcCloseRelock result => Some (driver_resume (close_session_locked2 result w) e)
  end.

(** [n] moves of the worker with nothing happening in between. *)
Fixpoint worker_run `{status_codes} `{uds_engine E} (jiffies : Z) (n : nat)
    (s : system E) : option (system E) :=
  match n with
  | O => Some s
  | S n' =>
      match worker_step jiffies s with
      | Some s' => worker_run jiffies n' s'
      | None => None
      end
  end.

(** What can happen next: a call of [set_target_state] from any thread, a
    data-path request, a move of the worker, the timer going off, or the
    engine completing a request with its answer filled in. *)
Inductive action :=
| CallSetTargetState (target : index_state_t) (change_dedupe dedupe set_create : bool)
| CallEnqueueIndexOperation (jiffies : Z) (data_kvio : nat) (operation : UdsCallbackType)
| WorkerStep (jiffies : Z)
| TimerFires (jiffies : Z)
| EngineCompletes (data_kvio : nat) (result : Z) (found0 : bool) (metadata : list byte).

(** The engine's completion of a request: it stores its answer in the
    request and calls [request->callback], which is
    [finish_index_operation]. *)
Definition engine_completes `{status_codes} (data_kvio : nat) (result : Z)
    (found0 : bool) (metadata : list byte) (w : world) : world :=
  match w_kvios w !! data_kvio with
  | None => w
  | Some context =>
      let context :=
        context{{ uds_request -> req_status := result;
                  uds_request -> found := found0;
                  uds_request -> oldMetadata := metadata }} in
      finish_index_operation data_kvio (w{{ w_kvios ::= <[data_kvio := context]> }})
  end.

Definition with_world {E : Type} (f : world -> world) (s : system E) : system E :=
  {| sys_world := f (sys_world s); sys_engine := sys_engine s; sys_pc := sys_pc s |}.

Definition perform `{status_codes} `{tick_conversion} `{uds_engine E} (a : action)
    (s : system E) : option (system E) :=
  match a with
  | CallSetTargetState target change_dedupe dedupe set_create =>
      Some (with_world (set_target_state target change_dedupe dedupe set_create) s)
  | CallEnqueueIndexOperation jiffies data_kvio operation =>
      Some (with_world (enqueue_index_operation jiffies data_kvio operation) s)
  | WorkerStep jiffies => worker_step jiffies s
  | TimerFires jiffies => Some (with_world (timeout_index_operations jiffies) s)
  | EngineCompletes data_kvio result found0 metadata =>
      Some (with_world (engine_completes data_kvio result found0 metadata) s)
  end.

(** A system is initial when its index is as [make_dedupe_index] leaves it
    and the worker is idle; [reachable] closes the initial systems under
    [perform]. *)
Definition initial `{tick_conversion} {E : Type} (s : system E) : Prop :=
  (exists name config, w_index (sys_world s) = make_index name config)
  /\ sys_pc s = PcIdle.

Inductive reachable `{status_codes} `{tick_conversion} `{uds_engine E}
  : system E -> Prop :=
| reachable_initial s : initial s -> reachable s
| reachable_perform a s s' : reachable s -> perform a s = Some s' -> reachable s'.

(** A run: the actions of a list performed one after the other. *)
Fixpoint perform_all `{status_codes} `{tick_conversion} `{uds_engine E}
    (actions : list action) (s : system E) : option (system E) :=
  match actions with
  | [] => Some s
  | a :: rest =>
      match perform a s with
      | Some s' => perform_all rest s'
      | None => None
      end
  end.

(** ** Notions used in the statements *)

(** An entry of the pending list is overdue at [earliest] when it was
    submitted before it. *)
Definition overdue (kvios : gmap nat dedupe_context) (earliest : Z) (data_kvio : nat)
  : bool :=
  match kvios !! data_kvio with
  | Some context => submission_time context <? earliest
  | None => false
  end.

Definition busy (kvios : gmap nat dedupe_context) (data_kvio : nat) : bool :=
  match kvios !! data_kvio with
  | Some context => bool_decide (request_state context = UR_BUSY)
  | None => false
  end.

Fixpoint leading (p : nat -> bool) (l : list nat) : list nat :=
  match l with
  | [] => []
  | x :: l' => if p x then x :: leading p l' else []
  end.

Fixpoint after_leading (p : nat -> bool) (l : list nat) : list nat :=
  match l with
  | [] => []
  | x :: l' => if p x then after_leading p l' else l
  end.

(** What the timer path does to one entry: every entry it takes off the
    pending list loses [is_pending]; one that is still BUSY is then timed
    out. *)
Definition unlinked (context : dedupe_context) : dedupe_context :=
  context{{ is_pending := false }}.

Definition timed_out `{status_codes} (context : dedupe_context) : dedupe_context :=
  if bool_decide (request_state context = UR_BUSY)
  then context{{ request_state := UR_TIMED_OUT; status := ETIMEDOUT }}
  else context.

Definition timeout_callback `{status_codes} (kvios : gmap nat dedupe_context)
    (data_kvio : nat) : callback :=
  {| cb_kvio := data_kvio; cb_status := ETIMEDOUT;
     cb_advice := kvios !! data_kvio ≫= advice_in |}.

(** The callbacks delivered for one [data_kvio]. *)
Definition callbacks_of (data_kvio : nat) (w : world) : list callback :=
  filter (fun c => cb_kvio c = data_kvio) (w_callbacks w).

(** The two ways a request in flight comes to its end. *)
Inductive ending := TimedOut (jiffies : Z) | Completed (result : Z) (found0 : bool) (metadata : list byte).

Definition end_request `{status_codes} (data_kvio : nat) (w : world) (x : ending)
  : world :=
  match x with
  | TimedOut jiffies => timeout_one jiffies w data_kvio
  | Completed result found0 metadata =>
      engine_completes data_kvio result found0 metadata w
  end.

(** The invariant of the state fields. *)
Definition deduping_sound (index : dedupe_index) : Prop :=
  deduping index = true -> dedupe_flag index = true /\ index_state index = IS_OPENED.

(** What the invariant looks at: the three state fields it relates, whether
    a change is in progress, and how many work items of
    [change_dedupe_state] wait on the queue. *)
Definition is_change_item (item : work_item) : bool :=
  match item with
  | WorkChangeDedupeState => true
  | WorkStartIndexOperation _ => false
  end.

Definition change_items (queue : list work_item) : nat :=
  length (List.filter is_change_item queue).
#[global] Arguments change_items : simpl never.

Definition state_view (index : dedupe_index)
  : bool * bool * index_state_t * bool * nat :=
  (deduping index, dedupe_flag index, index_state index, changing index,
   change_items (uds_queue index)).

Definition worker_in_change (pc : driver_pc) : nat :=
  match pc with PcIdle => 0 | _ => 1 end.

(** The invariant carried along every run: [deduping] is sound; it is off
    while a change is in progress; and a change is in progress exactly when
    its work item is queued or running, of which there is at most one. *)
Definition system_invariant {E : Type} (s : system E) : Prop :=
  let index := w_index (sys_world s) in
  deduping_sound index
  /\ (changing index = true -> deduping index = false)
  /\ (change_items (uds_queue index) + worker_in_change (sys_pc s)
      = if changing index then 1 else 0)%nat.

(** The state of the index while the worker is inside
    [change_dedupe_state]. *)
Definition mid_change (w : world) : Prop :=
  changing (w_index w) = true
  /\ deduping (w_index w) = false
  /\ change_items (uds_queue (w_index w)) = 0%nat.

(** ** Instances for the examples

    A kernel ticking 250 times a second, status codes with distinct values,
    and an engine whose state is the nonce of the index on disk, if there is
    one, with the list of the calls made on it so far; a configuration is
    represented by its nonce. *)
Definition example_ticks : tick_conversion :=
  {| msecs_to_jiffies := fun m => (m + 3) / 4;
     jiffies_to_msecs := fun j => j * 4 |}.

Definition example_codes : status_codes :=
  {| UDS_SUCCESS := 0; UDS_CORRUPT_COMPONENT := 1052; UDS_NO_INDEX := 1047;
     ETIMEDOUT := 110 |}.

Inductive engine_call :=
| EngineCreate | EngineRebuild | EngineGetConfiguration | EngineClose | EngineStartChunk.

Definition example_engine_state : Type := option Z * list engine_call.

Definition called (c : engine_call) (e : example_engine_state) : example_engine_state :=
  (fst e, snd e ++ [c]).

Definition example_engine : uds_engine example_engine_state :=
  {| udsCreateLocalIndex := fun _ config _ e =>
       (0, 1, called EngineCreate (Some config, snd e));
     udsRebuildLocalIndex := fun _ session0 e =>
       match fst e with
       | Some _ => (0, 1, called EngineRebuild e)
       | None => (1047, session0, called EngineRebuild e)
       end;
     udsGetIndexConfiguration := fun _ e =>
       match fst e with
       | Some nonce => (0, nonce, called EngineGetConfiguration e)
       | None => (1047, 0, called EngineGetConfiguration e)
       end;
     udsCloseIndexSession := fun _ e => (0, called EngineClose e);
     udsConfigurationGetNonce := fun config => config;
     udsStartChunkOperation := fun _ e => (0, called EngineStartChunk e) |}.

Definition example_timers : albireo_timers :=
  {| albireo_timeout_interval := 5000; min_albireo_timer_interval := 100;
     albireo_timeout_jiffies := 1250; min_albireo_timer_jiffies := 25 |}.

Definition example_request : UdsRequest :=
  {| chunkName := 0; callback_set := false; session := 0; type := UDS_POST;
     update := false; newMetadata := repeat Byte.x00 16;
     oldMetadata := repeat Byte.x00 16; req_status := 0; found := false |}.

Definition example_context (rs : request_state_t) (submitted : Z) : dedupe_context :=
  {| request_state := rs; is_pending := false; submission_time := submitted;
     status := 0; chunk_name := 77; uds_request := example_request;
     advice_out := {| pbn := 42; state := 7 |}; advice_in := None |}.

(** A layer just made, for a device whose nonce is [config], holding the
    given [data_kvio] objects. *)
Definition example_world (config : Z) (kvios : gmap nat dedupe_context) : world :=
  {| w_index := @make_index example_ticks "dev=sda offset=4096 size=1024" config;
     w_kvios := kvios; w_dedupeContextBusy := 0; w_cpu_queue := [];
     w_timers := example_timers; w_log := []; w_callbacks := [] |}.

(** The system the scenarios start from: one [data_kvio], numbered 1, idle;
    [disk] is the nonce of the index on disk, if any.  Bringing the index up
    is the call of [start_dedupe_index] without [create_flag] and three moves
    of the worker. *)
Definition example_system (disk : option Z) : system example_engine_state :=
  {| sys_world := example_world 7 {[ 1%nat := example_context UR_IDLE 0 ]};
     sys_engine := (disk, []); sys_pc := PcIdle |}.

Definition example_start : list action :=
  [CallSetTargetState IS_OPENED true true false; WorkerStep 0; WorkerStep 0; WorkerStep 0].

Definition example_run (actions : list action) (disk : option Z)
  : option (system example_engine_state) :=
  @perform_all example_codes example_ticks example_engine_state example_engine
    (example_start ++ actions) (example_system disk).

(** What a scenario is judged by: the callbacks delivered, [active], the
    state of request 1, the pending list and [deduping]. *)
Definition observe (s : system example_engine_state)
  : list callback * Z * option request_state_t * list nat * bool :=
  let w := sys_world s in
  (w_callbacks w, active (w_index w), request_state <$> w_kvios w !! 1%nat,
   pending_head (w_index w), deduping (w_index w)).

(** ** The rest of the state presentation *)

(** [get_dedupe_state_name]: the name of the present state, read under the
    state lock. *)
Definition get_dedupe_state_name (w : world) : state_name :=
  index_state_to_string (w_index w) (index_state (w_index w)).

(** ** Further notions used in the statements *)

(** The rounds the loop of [change_dedupe_state] can still need, counted
    from the state, the target and [create_flag]: a close before an open, a
    rebuild that may ask for a creation, and a close after the open when the
    target is not OPENED. *)
Definition rounds_after_open (target : index_state_t) : nat :=
  if decide (target = IS_OPENED) then 0 else 1.

Definition driver_rank (index : dedupe_index) : nat :=
  if change_needed index then
    match index_state index, create_flag index with
    | IS_OPENED, false => 1
    | IS_OPENED, true => 2 + rounds_after_open (index_target index)
    | _, true => 1 + rounds_after_open (index_target index)
    | _, false => 3 + rounds_after_open (index_target index)
    end
  else 0.

(** The index at rest: in its target state, no creation asked for, and
    [deduping] on exactly when it is enabled and the index is open. *)
Definition settled (index : dedupe_index) : Prop :=
  index_state index = index_target index
  /\ create_flag index = false
  /\ deduping index = dedupe_flag index && bool_decide (index_state index = IS_OPENED).

(** The fields of the state machine that only [set_target_state] and the
    work function of [change_dedupe_state] write, beside those of
    [state_view]. *)
Definition target_view (index : dedupe_index) : index_state_t * bool * bool :=
  (index_target index, create_flag index, error_flag index).

(** Where [index_state] stands at each place of the worker: CHANGING exactly
    while the worker is between the two locked parts of [open_session] or
    [close_session]. *)
Definition state_at (pc : driver_pc) (index : dedupe_index) : Prop :=
  match pc with
  | PcIdle => index_state index <> IS_CHANGING
  | PcOpenLog => index_state index = IS_CLOSED
  | _ => index_state index = IS_CHANGING
  end.

Definition session_invariant {E : Type} (s : system E) : Prop :=
  let index := w_index (sys_world s) in
  (changing index = false -> settled index)
  /\ (error_flag index = true -> index_state index = IS_CLOSED)
  /\ state_at (sys_pc s) index.

(** The edges of the life cycle of a request: IDLE to BUSY at a submission,
    BUSY to IDLE at a completion, BUSY to TIMED_OUT at a time-out, TIMED_OUT
    to IDLE at a late completion. *)
Definition allowed_edge (a b : request_state_t) : bool :=
  match a, b with
  | UR_IDLE, UR_BUSY | UR_BUSY, UR_IDLE
  | UR_BUSY, UR_TIMED_OUT | UR_TIMED_OUT, UR_IDLE => true
  | _, _ => bool_decide (a = b)
  end.

(** The edge the timer path takes, if any. *)
Definition timeout_edge (a b : request_state_t) : bool :=
  bool_decide (a = b) || (bool_decide (a = UR_BUSY) && bool_decide (b = UR_TIMED_OUT)).

(** From one store of [data_kvio] objects to another: no object comes or
    goes, and each [request_state] stays or moves along an edge of [edge]. *)
Definition lifecycle (edge : request_state_t -> request_state_t -> bool)
    (kvios kvios' : gmap nat dedupe_context) : Prop :=
  forall k,
    match kvios !! k, kvios' !! k with
    | Some context, Some context' =>
        edge (request_state context) (request_state context') = true
    | None, None => True
    | _, _ => False
    end.

(** The number of requests that are BUSY, and what [active] is meant to
    count. *)
Definition busy_count (kvios : gmap nat dedupe_context) : nat :=
  size (filter (fun entry => request_state entry.2 = UR_BUSY) kvios).

Definition active_sound (w : world) : Prop :=
  active (w_index w) = sint32 (Z.of_nat (busy_count (w_kvios w))).

Definition busy_delta (context context' : dedupe_context) : Z :=
  Z.b2z (bool_decide (request_state context' = UR_BUSY))
  - Z.b2z (bool_decide (request_state context = UR_BUSY)).

(** What an operation on one request does to the store and to [active]:
    it replaces the one object, moving its state along an edge, and moves
    [active] by the change in the number of BUSY requests. *)
Definition request_step (edge : request_state_t -> request_state_t -> bool)
    (k : nat) (w w' : world) : Prop :=
  match w_kvios w !! k with
  | None => w_kvios w' = w_kvios w /\ active (w_index w') = active (w_index w)
  | Some context =>
      exists context',
        w_kvios w' = <[k := context']> (w_kvios w)
        /\ edge (request_state context) (request_state context') = true
        /\ forall n, active (w_index w) = sint32 n ->
                     active (w_index w') = sint32 (n + busy_delta context context')
  end.

(** The pending list and the [is_pending] flags agree: the list has no
    repetitions and holds exactly the [data_kvio] objects whose flag is
    set. *)
Definition pending_consistent (w : world) : Prop :=
  NoDup (pending_head (w_index w))
  /\ forall k,
       k ∈ pending_head (w_index w)
       <-> exists context, w_kvios w !! k = Some context /\ is_pending context = true.

(** The pending list is in submission order when no entry was submitted
    before one that precedes it. *)
Definition submitted_in_order (kvios : gmap nat dedupe_context) (pending : list nat)
  : Prop :=
  forall (i j : nat) (ki kj : nat) (ci cj : dedupe_context),
    (i <= j)%nat -> pending !! i = Some ki -> pending !! j = Some kj ->
    kvios !! ki = Some ci -> kvios !! kj = Some cj ->
    submission_time ci <= submission_time cj.

(** ** The rest of the time-out reporter *)

Definition get_dedupe_timeout_count (index : dedupe_index) : Z :=
  uint64 (value (timeout_reporter index)).

(** [report_events_work]: the work function of the reporter's item, run by
    the CPU queue; it reports on the reporter its item lies in. *)
Definition report_events_work (w : world) : world :=
  let '(reporter, logged) := report_events (timeout_reporter (w_index w)) in
  w{{ w_index -> timeout_reporter := reporter; w_log ::= fun l => l ++ logged }}.

Definition stop_periodic_event_reporter (reporter : periodic_event_reporter)
  : periodic_event_reporter * list log_entry :=
  report_events reporter.

(** ** Messages to the index *)

(** The C library's case-insensitive comparison of strings and the errno
    [EINVAL], parameters of the development like the other constants from
    outside the file. *)
Class libc := {
  strcasecmp : string -> string -> Z;
  EINVAL : Z;
}.

(** [message_dedupe_index]: the result and the layer afterwards. *)
Definition message_dedupe_index `{libc} (name : string) (w : world) : Z * world :=
  if strcasecmp name "index-close" =? 0 then
    (0, set_target_state IS_CLOSED false false false w)
  else if strcasecmp name "index-create" =? 0 then
    (0, set_target_state IS_OPENED false false true w)
  else if strcasecmp name "index-disable" =? 0 then
    (0, set_target_state IS_OPENED true false false w)
  else if strcasecmp name "index-enable" =? 0 then
    (0, set_target_state IS_OPENED true true false w)
  else (- EINVAL, w).

(** ** Making the index *)

Class vdo_status_codes := {
  VDO_SUCCESS : Z;
}.

(** What [make_dedupe_index] acquires on its way, and the order in which it
    acquires, logs and gives back. *)
Inductive resource := ResIndex | ResIndexName | ResConfiguration | ResWorkQueue.

Inductive make_event :=
| Allocated (r : resource)
| Freed (r : resource)
| LoggedError (message : string) (result : Z).

(** The results of the calls of [make_dedupe_index] that can fail, in the
    order in which they are made. *)
Record make_results := {
  allocate_index : Z;
  alloc_sprintf : Z;
  index_config_to_uds_configuration : Z;
  make_work_queue : Z;
  kobject_add : Z;
}.

(** [make_dedupe_index]: the result, the index stored through [index_ptr] if
    any, the tunables and the events.  [name] is the index name that
    [allocSprintf] builds and [config] the configuration with the nonce of
    the geometry set. *)
Definition make_dedupe_index `{status_codes} `{vdo_status_codes} `{tick_conversion}
    (results : make_results) (name : string) (config : Z) (t : albireo_timers)
  : Z * option dedupe_index * albireo_timers * list make_event :=
  let t := set_albireo_timeout_interval (albireo_timeout_interval t) t in
  let t := set_min_albireo_timer_interval (min_albireo_timer_interval t) t in
  let result := allocate_index results in
  if negb (result =? UDS_SUCCESS) then (result, None, t, [])
  else
    let events := [Allocated ResIndex] in
    let result := alloc_sprintf results in
    if negb (result =? UDS_SUCCESS) then
      (result, None, t,
       events ++ [LoggedError "Creating index name failed" result; Freed ResIndex])
    else
      let events := events ++ [Allocated ResIndexName] in
      let result := index_config_to_uds_configuration results in
      if negb (result =? VDO_SUCCESS) then
        (result, None, t, events ++ [Freed ResIndexName; Freed ResIndex])
      else
        let events := events ++ [Allocated ResConfiguration] in
        let result := make_work_queue results in
        if negb (result =? VDO_SUCCESS) then
          (result, None, t,
           events ++ [LoggedError "UDS index queue initialization failed" result;
                      Freed ResConfiguration; Freed ResIndexName; Freed ResIndex])
        else
          let events := events ++ [Allocated ResWorkQueue] in
          let result := kobject_add results in
          if negb (result =? VDO_SUCCESS) then
            (result, None, t,
             events ++ [Freed ResWorkQueue; Freed ResConfiguration;
                        Freed ResIndexName; Freed ResIndex])
          else (VDO_SUCCESS, Some (make_index name config), t, events).

Definition allocated (events : list make_event) : list resource :=
  omap (fun event => match event with Allocated r => Some r | _ => None end) events.

Definition freed (events : list make_event) : list resource :=
  omap (fun event => match event with Freed r => Some r | _ => None end) events.

(** ** Further instances for the examples

    An engine on which every call fails with the status 5, kept apart from
    the statuses that ask for a retry; its state is the list of the calls
    made on it.  A C library comparing letters without regard to case, and
    the status codes of the base layer. *)
Definition example_broken_engine : uds_engine (list engine_call) :=
  {| udsCreateLocalIndex := fun _ _ session0 e => (5, session0, e ++ [EngineCreate]);
     udsRebuildLocalIndex := fun _ session0 e => (5, session0, e ++ [EngineRebuild]);
     udsGetIndexConfiguration := fun _ e => (5, 0, e ++ [EngineGetConfiguration]);
     udsCloseIndexSession := fun _ e => (5, e ++ [EngineClose]);
     udsConfigurationGetNonce := fun config => config;
     udsStartChunkOperation := fun _ e => (5, e ++ [EngineStartChunk]) |}.

Definition to_lower (c : Ascii.ascii) : Ascii.ascii :=
  let n := Ascii.nat_of_ascii c in
  if (65 <=? n)%nat && (n <=? 90)%nat then Ascii.ascii_of_nat (n + 32) else c.

Fixpoint lower (s : string) : string :=
  match s with
  | EmptyString => EmptyString
  | String c rest => String (to_lower c) (lower rest)
  end.

Definition example_libc : libc :=
  {| strcasecmp := fun a b => if String.eqb (lower a) (lower b) then 0 else 1;
     EINVAL := 22 |}.

Definition example_vdo_codes : vdo_status_codes := {| VDO_SUCCESS := 0 |}.

(** A layer whose index is open and deduping, as the start of the index
    leaves it, holding the given [data_kvio] objects. *)
Definition example_open_world (kvios : gmap nat dedupe_context) : world :=
  (example_world 7 kvios){{ w_index -> index_state := IS_OPENED;
                            w_index -> index_target := IS_OPENED;
                            w_index -> dedupe_flag := true;
                            w_index -> deduping := true;
                            w_index -> index_session := 1 }}.

(** * Properties *)

(** Proofs about a [world] start by taking it and its index apart, so that
    the record updates compute. *)
Ltac open_world w :=
  let index := fresh "index" in
  destruct w as [index ? ? ? ? ? ?]; destruct index; cbn in *.

Section Codec.
Context `{Codes : status_codes}.

Lemma store_bytes_splice (bs data : list byte) (offset : nat) :
  (offset + length bs <= length data)%nat ->
  store_bytes data offset bs
  = take offset data ++ bs ++ drop (offset + length bs) data.
Proof.
  revert data offset. induction bs as [|b bs IH]; intros data offset Hlen; simpl in *.
  - rewrite Nat.add_0_r. symmetry. apply take_drop.
  - rewrite IH by (rewrite length_insert; lia).
    rewrite (take_S_r _ _ b) by (apply list_lookup_insert_eq; lia).
    rewrite take_insert_ge by lia.
    rewrite drop_insert_lt by lia.
    rewrite <- app_assoc. simpl. by rewrite Nat.add_succ_r.
Qed.

Lemma store_bytes_length (bs data : list byte) (offset : nat) :
  length (store_bytes data offset bs) = length data.
Proof.
  revert data offset. induction bs as [|b bs IH]; intros; simpl; [done|].
  by rewrite IH, length_insert.
Qed.

(** The [BUG_ON] of [encode_uds_advice] does not fire: the offset reached is
    [UDS_ADVICE_SIZE]. *)
Lemma encode_uds_advice_offset (encoding : list byte) (advice : DataLocation) :
  snd (encode_uds_advice_bytes encoding advice) = UDS_ADVICE_SIZE.
Proof. reflexivity. Qed.

Lemma encode_uds_advice_bytes_eq (encoding : list byte) (advice : DataLocation) :
  (UDS_ADVICE_SIZE <= length encoding)%nat ->
  fst (encode_uds_advice_bytes encoding advice)
  = [byte.of_Z UDS_ADVICE_VERSION; byte.of_Z (state advice)]
    ++ le_split 8 (pbn advice) ++ drop UDS_ADVICE_SIZE encoding.
Proof.
  intros Hlen. unfold encode_uds_advice_bytes, encodeUInt64LE, UDS_ADVICE_SIZE in *.
  cbn [fst]. rewrite store_bytes_splice
    by (rewrite !length_insert, length_le_split; simpl in *; lia).
  rewrite length_le_split.
  destruct encoding as [|b0 [|b1 rest]]; simpl in Hlen; try lia.
  reflexivity.
Qed.

Lemma le_split_8_bytes (v : Z) :
  le_split 8 v
  = map (fun i => byte.of_Z (Z.shiftr v (8 * i))) [0; 1; 2; 3; 4; 5; 6; 7].
Proof.
  cbv [le_split map]. rewrite !Z.shiftr_shiftr by lia. rewrite Z.shiftr_0_r.
  reflexivity.
Qed.

Lemma byte_unsigned_of_Z_small (z : Z) : 0 <= z < 256 -> byte.unsigned (byte.of_Z z) = z.
Proof.
  intros Hz. rewrite byte.unsigned_of_Z. unfold byte.wrap.
  apply Z.mod_small. lia.
Qed.

(** C4.  For every state byte in [0,255] and every pbn below 2^64,
    [encode_uds_advice] writes exactly ten bytes into [newMetadata]: the
    version 2, the state, then the pbn least significant byte first, and
    leaves the bytes after them as they were; and [decode_uds_advice], on a
    request marked successful and found whose [oldMetadata] holds that
    record, yields exactly the advice (state, pbn) and logs nothing. *)
Theorem encode_decode_roundtrip (request answered : UdsRequest) (advice : DataLocation) :
  0 <= state advice < 256 ->
  0 <= pbn advice < 2 ^ 64 ->
  (UDS_ADVICE_SIZE <= length (newMetadata request))%nat ->
  req_status answered = UDS_SUCCESS ->
  found answered = true ->
  oldMetadata answered = newMetadata (encode_uds_advice request advice) ->
  take UDS_ADVICE_SIZE (newMetadata (encode_uds_advice request advice))
  = [byte.of_Z 2; byte.of_Z (state advice)]
    ++ map (fun i => byte.of_Z (Z.shiftr (pbn advice) (8 * i))) [0; 1; 2; 3; 4; 5; 6; 7]
  /\ drop UDS_ADVICE_SIZE (newMetadata (encode_uds_advice request advice))
     = drop UDS_ADVICE_SIZE (newMetadata request)
  /\ decode_uds_advice answered = (Some advice, []).
Proof.
  intros Hstate Hpbn Hlen Hok Hfound Hold.
  assert (Henc : newMetadata (encode_uds_advice request advice)
                 = [byte.of_Z 2; byte.of_Z (state advice)]
                   ++ le_split 8 (pbn advice)
                   ++ drop UDS_ADVICE_SIZE (newMetadata request)).
  { destruct request; cbn in *. by apply encode_uds_advice_bytes_eq. }
  rewrite Henc in *. split; [|split].
  - rewrite <- le_split_8_bytes. rewrite app_assoc.
    apply take_app_length'. rewrite length_app, length_le_split. reflexivity.
  - rewrite app_assoc.
    apply drop_app_length'. rewrite length_app, length_le_split. reflexivity.
  - unfold decode_uds_advice. rewrite Hok, Hfound, Z.eqb_refl. cbn [negb orb].
    rewrite Hold. cbn [nth app].
    rewrite (byte_unsigned_of_Z_small 2) by lia. cbn [Z.eqb negb UDS_ADVICE_VERSION Pos.eqb].
    rewrite byte_unsigned_of_Z_small by lia.
    unfold decodeUInt64LE. cbn [skipn]. rewrite drop_0.
    rewrite (take_app_length' (le_split 8 (pbn advice)))
      by (symmetry; apply length_le_split).
    rewrite le_combine_split.
    rewrite Z.mod_small by (cbn; lia).
    destruct advice; reflexivity.
Qed.

(** C5.  [decode_uds_advice] returns advice only if the request status is
    success, the index reported found and the first metadata byte is 2; a
    request that failed, one that was not found, and a payload whose first
    byte differs from 2 all yield no advice. *)
Theorem decode_uds_advice_only_valid (request : UdsRequest) :
  (forall advice, fst (decode_uds_advice request) = Some advice ->
     req_status request = UDS_SUCCESS
     /\ found request = true
     /\ byte.unsigned (nth 0 (oldMetadata request) Byte.x00) = 2)
  /\ (req_status request <> UDS_SUCCESS
      \/ found request = false
      \/ byte.unsigned (nth 0 (oldMetadata request) Byte.x00) <> 2 ->
      fst (decode_uds_advice request) = None).
Proof.
  unfold decode_uds_advice, UDS_ADVICE_VERSION.
  destruct (Z.eqb_spec (req_status request) UDS_SUCCESS) as [Hs|Hs];
    destruct (found request) eqn:Hf; cbn [negb orb fst];
    try (split; [discriminate | reflexivity]).
  destruct (Z.eqb_spec (byte.unsigned (nth 0 (oldMetadata request) Byte.x00)) 2)
    as [Hv|Hv]; cbn [negb fst].
  - split; [by intros | intros [?|[?|?]]; congruence].
  - split; [discriminate | reflexivity].
Qed.

End Codec.

Section Timers.
Context `{Ticks : tick_conversion}.

Lemma set_albireo_timeout_interval_eq (value0 : Z) (t : albireo_timers) :
  let capped := Z.min value0 120000 in
  let ticks := msecs_to_jiffies capped in
  set_albireo_timeout_interval value0 t
  = {| albireo_timeout_interval := if ticks <? 2 then jiffies_to_msecs 2 else capped;
       min_albireo_timer_interval := min_albireo_timer_interval t;
       albireo_timeout_jiffies := Z.max ticks 2;
       min_albireo_timer_jiffies := min_albireo_timer_jiffies t |}.
Proof.
  intros capped ticks. unfold set_albireo_timeout_interval.
  assert (Hc : (if 120000 <? value0 then 120000 else value0) = capped)
    by (subst capped; destruct (Z.ltb_spec 120000 value0); lia).
  rewrite Hc. fold ticks.
  destruct (Z.ltb_spec ticks 2); destruct t; cbn; f_equal; lia.
Qed.

Lemma set_min_albireo_timer_interval_eq (value0 : Z) (t : albireo_timers) :
  let capped := Z.min value0 1000 in
  let ticks := msecs_to_jiffies capped in
  set_min_albireo_timer_interval value0 t
  = {| albireo_timeout_interval := albireo_timeout_interval t;
       min_albireo_timer_interval := if ticks <? 2 then jiffies_to_msecs 2 else capped;
       albireo_timeout_jiffies := albireo_timeout_jiffies t;
       min_albireo_timer_jiffies := Z.max ticks 2 |}.
Proof.
  intros capped ticks. unfold set_min_albireo_timer_interval.
  assert (Hc : (if 1000 <? value0 then 1000 else value0) = capped)
    by (subst capped; destruct (Z.ltb_spec 1000 value0); lia).
  rewrite Hc. fold ticks.
  destruct (Z.ltb_spec ticks 2); destruct t; cbn; f_equal; lia.
Qed.

(** C9.  On a kernel where two ticks last at most a second and where a
    second, and so two minutes, last at least two ticks: for every input
    value [set_albireo_timeout_interval] stores at most 120000 ms and at
    least two ticks, and [set_min_albireo_timer_interval] stores at most
    1000 ms and at least two ticks; a value above the cap is stored as the
    cap, and a value whose conversion to ticks is below two is stored as two
    ticks (and as the milliseconds two ticks last). *)
Theorem timer_intervals_clamped (value0 : Z) (t : albireo_timers) :
  jiffies_to_msecs 2 <= 1000 ->
  2 <= msecs_to_jiffies 1000 ->
  2 <= msecs_to_jiffies 120000 ->
  let t1 := set_albireo_timeout_interval value0 t in
  let t2 := set_min_albireo_timer_interval value0 t in
  (albireo_timeout_interval t1 <= 120000
   /\ 2 <= albireo_timeout_jiffies t1
   /\ (120000 < value0 ->
       albireo_timeout_interval t1 = 120000
       /\ albireo_timeout_jiffies t1 = msecs_to_jiffies 120000)
   /\ (value0 <= 120000 -> msecs_to_jiffies value0 < 2 ->
       albireo_timeout_jiffies t1 = 2
       /\ albireo_timeout_interval t1 = jiffies_to_msecs 2)
   /\ (value0 <= 120000 -> 2 <= msecs_to_jiffies value0 ->
       albireo_timeout_interval t1 = value0
       /\ albireo_timeout_jiffies t1 = msecs_to_jiffies value0))
  /\ (min_albireo_timer_interval t2 <= 1000
      /\ 2 <= min_albireo_timer_jiffies t2
      /\ (1000 < value0 ->
          min_albireo_timer_interval t2 = 1000
          /\ min_albireo_timer_jiffies t2 = msecs_to_jiffies 1000)
      /\ (value0 <= 1000 -> msecs_to_jiffies value0 < 2 ->
          min_albireo_timer_jiffies t2 = 2
          /\ min_albireo_timer_interval t2 = jiffies_to_msecs 2)
      /\ (value0 <= 1000 -> 2 <= msecs_to_jiffies value0 ->
          min_albireo_timer_interval t2 = value0
          /\ min_albireo_timer_jiffies t2 = msecs_to_jiffies value0)).
Proof.
  intros Htwo Hsec Hmin t1 t2. subst t1 t2.
  rewrite set_albireo_timeout_interval_eq, set_min_albireo_timer_interval_eq.
  cbn [albireo_timeout_interval albireo_timeout_jiffies
       min_albireo_timer_interval min_albireo_timer_jiffies].
  split.
  - destruct (Z.min_spec value0 120000) as [[Hlt ->]|[Hge ->]];
      destruct (Z.ltb_spec (msecs_to_jiffies value0) 2);
      destruct (Z.ltb_spec (msecs_to_jiffies 120000) 2);
      repeat split; intros; try lia;
      try (assert (value0 = 120000) as -> by lia; lia).
  - destruct (Z.min_spec value0 1000) as [[Hlt ->]|[Hge ->]];
      destruct (Z.ltb_spec (msecs_to_jiffies value0) 2);
      destruct (Z.ltb_spec (msecs_to_jiffies 1000) 2);
      repeat split; intros; try lia;
      try (assert (value0 = 1000) as -> by lia; lia).
Qed.

End Timers.

Section Dispatcher.
Context `{Codes : status_codes}.

Lemma compareAndSwap32_hit (current expected new : request_state_t) :
  current = expected -> compareAndSwap32 current expected new = (new, true).
Proof. intros ->. unfold compareAndSwap32. by rewrite decide_True. Qed.

Lemma compareAndSwap32_miss (current expected new : request_state_t) :
  current <> expected -> compareAndSwap32 current expected new = (current, false).
Proof. intros Hne. unfold compareAndSwap32. by rewrite decide_False. Qed.


(** C10.  Every post, query or update leaves the context with status
    SUCCESS (and the submission time set), whatever the outcome of the
    compare-and-set; so on the two paths that deliver the callback without a
    submission to the engine, a stale context and deduping switched off, the
    callback is handed status SUCCESS. *)
Theorem enqueue_index_operation_status_success (jiffies : Z) (data_kvio : nat)
    (operation : UdsCallbackType) (w : world) (context : dedupe_context) :
  w_kvios w !! data_kvio = Some context ->
  let w' := enqueue_index_operation jiffies data_kvio operation w in
  (exists context',
     w_kvios w' !! data_kvio = Some context'
     /\ status context' = UDS_SUCCESS
     /\ submission_time context' = jiffies)
  /\ (request_state context <> UR_IDLE \/ deduping (w_index w) = false ->
      exists delivered,
        w_callbacks w' = w_callbacks w ++ [delivered]
        /\ cb_kvio delivered = data_kvio
        /\ cb_status delivered = UDS_SUCCESS
        /\ uds_queue (w_index w') = uds_queue (w_index w)).
Proof.
  intros Hctx w'. subst w'.
  unfold enqueue_index_operation. rewrite Hctx. cbn.
  destruct (decide (request_state context = UR_IDLE)) as [Hidle|Hbusy].
  - rewrite compareAndSwap32_hit by done.
    destruct (deduping (w_index w)) eqn:Hon.
    + split.
      * open_world w. destruct context; cbn in *. rewrite lookup_insert_eq. eauto.
      * intros [?|?]; congruence.
    + unfold invoke_dedupe_callback. open_world w. destruct context; cbn in *.
      rewrite lookup_insert_eq. cbn. rewrite lookup_insert_eq. eauto 10.
  - rewrite compareAndSwap32_miss by done.
    unfold invoke_dedupe_callback. open_world w. destruct context; cbn in *.
    rewrite lookup_insert_eq. cbn. rewrite lookup_insert_eq. eauto 10.
Qed.

(** A request that is not BUSY is ended by nobody: neither path delivers a
    callback or touches the index, and the request stays out of BUSY; a
    completion finding TIMED_OUT puts it back to IDLE. *)
Lemma end_request_quiet (data_kvio : nat) (w : world) (context : dedupe_context)
    (x : ending) :
  w_kvios w !! data_kvio = Some context ->
  request_state context <> UR_BUSY ->
  let w' := end_request data_kvio w x in
  w_callbacks w' = w_callbacks w
  /\ w_index w' = w_index w
  /\ exists context',
      w_kvios w' !! data_kvio = Some context'
      /\ request_state context' <> UR_BUSY
      /\ status context' = status context
      /\ (forall result found0 metadata,
            x = Completed result found0 metadata ->
            request_state context = UR_TIMED_OUT -> request_state context' = UR_IDLE).
Proof.
  intros Hctx Hst w'. subst w'. destruct x as [jiffies|result found0 metadata]; cbn.
  - unfold timeout_one. rewrite Hctx. rewrite compareAndSwap32_miss by done.
    repeat split; eauto 10. exists context. repeat split; eauto. discriminate.
  - unfold engine_completes. rewrite Hctx. unfold finish_index_operation.
    open_world w. rewrite lookup_insert_eq. destruct context; cbn in *.
    rewrite compareAndSwap32_miss by done. cbn.
    destruct (compareAndSwap32 request_state0 UR_TIMED_OUT UR_IDLE) as [rs swapped] eqn:Hcas.
    cbn. rewrite insert_insert_eq, lookup_insert_eq.
    repeat split. eexists. split; [reflexivity|]. cbn.
    unfold compareAndSwap32 in Hcas. case_decide; simplify_eq; repeat split; congruence.
Qed.

(** A BUSY request is ended by whichever path comes first, with exactly one
    callback. *)
Lemma end_request_busy (data_kvio : nat) (w : world) (context : dedupe_context)
    (x : ending) :
  w_kvios w !! data_kvio = Some context ->
  request_state context = UR_BUSY ->
  let w' := end_request data_kvio w x in
  exists delivered context',
    w_callbacks w' = w_callbacks w ++ [delivered]
    /\ cb_kvio delivered = data_kvio
    /\ active (w_index w') = atomic_dec (active (w_index w))
    /\ w_kvios w' !! data_kvio = Some context'
    /\ request_state context'
       = match x with TimedOut _ => UR_TIMED_OUT | Completed _ _ _ => UR_IDLE end.
Proof.
  intros Hctx Hst w'. subst w'. destruct x as [jiffies|result found0 metadata]; cbn.
  - unfold timeout_one. rewrite Hctx. rewrite compareAndSwap32_hit by done.
    unfold report_dedupe_timeout, invoke_dedupe_callback.
    open_world w. destruct context; cbn in *. rewrite lookup_insert_eq. cbn.
    destruct timeout_reporter0; cbn.
    destruct (_ =? 0); cbn; rewrite lookup_insert_eq; eauto 10.
  - unfold engine_completes. rewrite Hctx. unfold finish_index_operation.
    open_world w. rewrite lookup_insert_eq. destruct context; cbn in *.
    rewrite compareAndSwap32_hit by done. cbn.
    unfold invoke_dedupe_callback.
    destruct uds_request0; cbn.
    destruct is_pending0; repeat case_bool_decide;
      cbn; try destruct (decode_uds_advice _) as [advice logged]; cbn;
      rewrite insert_insert_eq, lookup_insert_eq; cbn;
      rewrite lookup_insert_eq; eauto 10.
Qed.

Lemma callbacks_of_snoc (data_kvio : nat) (w w' : world) (delivered : callback) :
  w_callbacks w' = w_callbacks w ++ [delivered] ->
  cb_kvio delivered = data_kvio ->
  callbacks_of data_kvio w' = callbacks_of data_kvio w ++ [delivered].
Proof.
  intros Hcb Hk. unfold callbacks_of. rewrite Hcb, filter_app.
  by rewrite filter_cons_True.
Qed.

Lemma end_requests_quiet (data_kvio : nat) (endings : list ending) :
  forall (w : world) (context : dedupe_context),
    w_kvios w !! data_kvio = Some context ->
    request_state context <> UR_BUSY ->
    w_callbacks (fold_left (end_request data_kvio) endings w) = w_callbacks w.
Proof.
  induction endings as [|x endings IH]; intros w context Hctx Hst; [done|].
  cbn [fold_left].
  destruct (end_request_quiet data_kvio w context x Hctx Hst)
    as (Hcb & _ & context' & Hctx' & Hst' & _).
  rewrite (IH _ _ Hctx' Hst'). exact Hcb.
Qed.

(** C1.  At most one data-path callback is delivered per submission.  For a
    context that is BUSY: when the time-out path wins the compare-and-set
    from BUSY to TIMED_OUT it delivers the callback, with status ETIMEDOUT;
    the engine's completion arriving later finds the compare-and-set from
    BUSY to IDLE failing, takes the context from TIMED_OUT to IDLE and
    delivers no callback, nor does it touch the index.  And whatever the
    order and number in which time-outs and completions arrive for the
    context, the first of them delivers the one callback and no other
    follows. *)
Theorem one_callback_per_submission (jiffies : Z) (data_kvio : nat) (w : world)
    (context : dedupe_context) (result : Z) (found0 : bool) (metadata : list byte) :
  w_kvios w !! data_kvio = Some context ->
  request_state context = UR_BUSY ->
  let w1 := timeout_one jiffies w data_kvio in
  let w2 := engine_completes data_kvio result found0 metadata w1 in
  (exists context1,
     w_kvios w1 !! data_kvio = Some context1
     /\ request_state context1 = UR_TIMED_OUT
     /\ status context1 = ETIMEDOUT)
  /\ w_callbacks w1
     = w_callbacks w ++ [{| cb_kvio := data_kvio; cb_status := ETIMEDOUT;
                            cb_advice := advice_in context |}]
  /\ (exists context2,
        w_kvios w2 !! data_kvio = Some context2
        /\ request_state context2 = UR_IDLE
        /\ status context2 = ETIMEDOUT)
  /\ w_callbacks w2 = w_callbacks w1
  /\ w_index w2 = w_index w1
  /\ forall x endings,
       exists delivered,
         callbacks_of data_kvio (fold_left (end_request data_kvio) (x :: endings) w)
         = callbacks_of data_kvio w ++ [delivered].
Proof.
  intros Hctx Hst w1 w2.
  assert (H1 : exists context1,
             w_kvios w1 !! data_kvio = Some context1
             /\ request_state context1 = UR_TIMED_OUT
             /\ status context1 = ETIMEDOUT
             /\ w_callbacks w1
                = w_callbacks w ++ [{| cb_kvio := data_kvio; cb_status := ETIMEDOUT;
                                       cb_advice := advice_in context |}]).
  { subst w1 w2. unfold timeout_one. rewrite Hctx.
    rewrite compareAndSwap32_hit by done.
    unfold report_dedupe_timeout, invoke_dedupe_callback.
    open_world w. destruct context; cbn in *. rewrite lookup_insert_eq. cbn.
    destruct timeout_reporter0; cbn.
    destruct (_ =? 0); cbn; rewrite lookup_insert_eq; eauto 10. }
  destruct H1 as (context1 & Hctx1 & Hst1 & Hstatus1 & Hcb1).
  assert (Hne : request_state context1 <> UR_BUSY) by (rewrite Hst1; discriminate).
  destruct (end_request_quiet data_kvio w1 context1
              (Completed result found0 metadata) Hctx1 Hne)
    as (Hcb2 & Hidx2 & context2 & Hctx2 & _ & Hstatus2 & Hidle2).
  cbn in Hcb2, Hidx2, Hctx2.
  split; [eauto|]. split; [done|]. split.
  { exists context2. split; [done|]. split; [eauto|congruence]. }
  split; [done|]. split; [done|].
  intros x endings. cbn [fold_left].
  destruct (end_request_busy data_kvio w context x Hctx Hst)
    as (delivered & context' & Hcb & Hk & _ & Hctx' & Hst').
  exists delivered.
  assert (Hquiet : request_state context' <> UR_BUSY)
    by (rewrite Hst'; destruct x; discriminate).
  unfold callbacks_of at 1.
  rewrite (end_requests_quiet _ endings _ _ Hctx' Hquiet).
  by apply callbacks_of_snoc.
Qed.

End Dispatcher.

Section PendingTimer.
Context `{Codes : status_codes} `{Ticks : tick_conversion}.

Lemma leading_after_leading (p : nat -> bool) (l : list nat) :
  leading p l ++ after_leading p l = l.
Proof. induction l as [|x l IH]; simpl; [done|]. destruct (p x); simpl; by f_equal. Qed.

Lemma leading_all (p : nat -> bool) (l : list nat) (x : nat) :
  x ∈ leading p l -> p x = true.
Proof.
  induction l as [|y l IH]; simpl; [by intros ?%elem_of_nil|].
  destruct (p y) eqn:Hy; [|by intros ?%elem_of_nil].
  intros [->|?]%elem_of_cons; auto.
Qed.

Lemma after_leading_head (p : nat -> bool) (l : list nat) (x : nat) (rest : list nat) :
  after_leading p l = x :: rest -> p x = false.
Proof.
  induction l as [|y l IH]; simpl; [done|].
  destruct (p y) eqn:Hy; [done|]. by intros [= -> _].
Qed.

Lemma leading_subseteq (p : nat -> bool) (l : list nat) (x : nat) :
  x ∈ leading p l -> x ∈ l.
Proof. intros Hx. rewrite <- (leading_after_leading p l). set_solver. Qed.

Lemma leading_NoDup (p : nat -> bool) (l : list nat) : NoDup l -> NoDup (leading p l).
Proof.
  intros Hnd. rewrite <- (leading_after_leading p l) in Hnd.
  by apply NoDup_app in Hnd as (? & _ & _).
Qed.

Lemma leading_ext_in (p q : nat -> bool) (l : list nat) :
  (forall x, x ∈ l -> p x = q x) ->
  leading p l = leading q l /\ after_leading p l = after_leading q l.
Proof.
  induction l as [|x l IH]; intros Hpq; simpl; [done|].
  rewrite <- (Hpq x) by apply list_elem_of_here.
  destruct (p x); [|done].
  assert (Hrest : forall y, y ∈ l -> p y = q y)
    by (intros y Hy; by apply Hpq, list_elem_of_further).
  by destruct (IH Hrest) as [-> ->].
Qed.

Lemma overdue_insert (kvios : gmap nat dedupe_context) (earliest : Z) (k x : nat)
    (context : dedupe_context) :
  x <> k -> overdue (<[k := context]> kvios) earliest x = overdue kvios earliest x.
Proof. intros Hne. unfold overdue. by rewrite lookup_insert_ne. Qed.

(** As long as the tick counter has run for longer than the time-out and
    has not wrapped, [earliest_submission_allowed] is the plain
    difference. *)
Lemma earliest_submission_no_wrap (jiffies timeout : Z) :
  0 <= timeout <= jiffies -> jiffies < 2 ^ 64 ->
  ulong (jiffies - uint64 timeout) = jiffies - timeout.
Proof.
  intros Ht Hj. unfold ulong, uint64.
  rewrite (Z.mod_small timeout) by lia. apply Z.mod_small. lia.
Qed.

(** The first loop of [timeout_index_operations]. *)
Lemma collect_expired_spec (t : albireo_timers) (jiffies earliest : Z) (pending : list nat) :
  forall (index : dedupe_index) (kvios : gmap nat dedupe_context) (expiredHead : list nat),
    NoDup pending ->
    (forall k, k ∈ pending -> is_Some (kvios !! k)) ->
    exists kvios',
      collect_expired t jiffies earliest pending index kvios expiredHead
      = (match after_leading (overdue kvios earliest) pending with
         | [] => index{{ pending_head := [] }}
         | k :: rest =>
             match kvios !! k with
             | Some context =>
                 start_expiration_timer t jiffies context
                   (index{{ pending_head := k :: rest }})
             | None => index
             end
         end,
         kvios', expiredHead ++ leading (overdue kvios earliest) pending)
      /\ forall k, kvios' !! k
                   = if bool_decide (k ∈ leading (overdue kvios earliest) pending)
                     then unlinked <$> kvios !! k else kvios !! k.
Proof.
  induction pending as [|k rest IH]; intros index kvios expiredHead Hnd Hwf.
  - exists kvios. cbn. rewrite app_nil_r. split; [done|]. intros k.
    by rewrite bool_decide_eq_false_2 by apply not_elem_of_nil.
  - apply NoDup_cons in Hnd as [Hk Hnd].
    destruct (Hwf k) as [context Hctx]; [set_solver|].
    assert (Hov : overdue kvios earliest k = (submission_time context <? earliest))
      by (unfold overdue; by rewrite Hctx).
    cbn [collect_expired leading after_leading]. rewrite Hov.
    destruct (kvios !! k) as [context0|] eqn:Hctx0; [|done].
    injection Hctx as ->.
    destruct (Z.leb_spec earliest (submission_time context)) as [Hle|Hlt].
    + rewrite (proj2 (Z.ltb_ge _ _)) by done. rewrite Hctx0.
      exists kvios. rewrite app_nil_r. split; [done|]. intros k'.
      by rewrite bool_decide_eq_false_2 by apply not_elem_of_nil.
    + rewrite (proj2 (Z.ltb_lt _ _)) by done.
      set (kvios2 := <[k := context{{ is_pending := false }}]> kvios).
      destruct (IH index kvios2 (list_add_tail k expiredHead) Hnd) as (kvios' & Heq & Hlook).
      { intros k' Hk'. unfold kvios2. rewrite lookup_insert_ne by set_solver.
        apply Hwf. set_solver. }
      destruct (leading_ext_in (overdue kvios2 earliest) (overdue kvios earliest) rest)
        as [Hlead Hafter].
      { intros x Hx. apply overdue_insert. set_solver. }
      rewrite Hlead, Hafter in Heq. rewrite Hlead in Hlook.
      exists kvios'. split.
      * rewrite Heq. unfold list_add_tail. rewrite <- app_assoc. cbn [app].
        f_equal. f_equal.
        destruct (after_leading (overdue kvios earliest) rest) as [|k' rest'] eqn:Hrest;
          [done|].
        assert (k' ∈ rest).
        { rewrite <- (leading_after_leading (overdue kvios earliest) rest), Hrest.
          set_solver. }
        unfold kvios2. rewrite lookup_insert_ne by set_solver. done.
      * intros k'. rewrite Hlook. unfold kvios2.
        destruct (decide (k' = k)) as [->|Hne].
        -- rewrite lookup_insert_eq, Hctx0.
           rewrite (bool_decide_eq_true_2 (k ∈ k :: _)) by set_solver.
           by case_bool_decide.
        -- rewrite lookup_insert_ne by done.
           repeat case_bool_decide; try done; exfalso;
             repeat match goal with
             | Hin : _ ∈ _ :: _ |- _ => apply elem_of_cons in Hin as [?|?]
             | Hnot : _ ∉ _ :: _ |- _ => apply not_elem_of_cons in Hnot as [? ?]
             end; done.
Qed.

(** The body of the second loop, field by field. *)
Lemma timeout_one_spec (jiffies : Z) (w : world) (k : nat) :
  let w' := timeout_one jiffies w k in
  let hit := busy (w_kvios w) k in
  (forall k', w_kvios w' !! k'
              = if decide (k' = k) then timed_out <$> w_kvios w !! k'
                else w_kvios w !! k')
  /\ w_callbacks w'
     = w_callbacks w ++ (if hit then [timeout_callback (w_kvios w) k] else [])
  /\ active (w_index w')
     = (if hit then atomic_dec (active (w_index w)) else active (w_index w))
  /\ value (timeout_reporter (w_index w'))
     = (if hit then atomic64_inc (value (timeout_reporter (w_index w)))
        else value (timeout_reporter (w_index w)))
  /\ pending_head (w_index w') = pending_head (w_index w)
  /\ started_timer (w_index w') = started_timer (w_index w)
  /\ pending_timer (w_index w') = pending_timer (w_index w).
Proof.
  intros w' hit. subst w' hit. unfold timeout_one, busy, timeout_callback.
  destruct (w_kvios w !! k) as [context|] eqn:Hctx.
  - unfold compareAndSwap32. case_decide as Hst.
    + rewrite bool_decide_eq_true_2 by done.
      unfold report_dedupe_timeout, invoke_dedupe_callback.
      open_world w. destruct context, timeout_reporter0; cbn in *.
      rewrite lookup_insert_eq. cbn.
      destruct (_ =? 0); cbn; (split; [|done]);
        intros k'; (destruct (decide (k' = k)) as [->|Hne];
          [rewrite lookup_insert_eq, Hctx; unfold timed_out; cbn;
           by rewrite bool_decide_eq_true_2
          |by rewrite lookup_insert_ne]).
    + rewrite bool_decide_eq_false_2 by done. rewrite app_nil_r.
      split; [|done]. intros k'. destruct (decide (k' = k)) as [->|Hne]; [|done].
      rewrite Hctx. unfold timed_out. cbn. by rewrite bool_decide_eq_false_2.
  - rewrite app_nil_r. split; [|done]. intros k'.
    destruct (decide (k' = k)) as [->|Hne]; [|done]. by rewrite Hctx.
Qed.

Lemma fired_ext_in (kvios1 kvios2 : gmap nat dedupe_context) (l : list nat) :
  (forall k, k ∈ l ->
     busy kvios1 k = busy kvios2 k
     /\ timeout_callback kvios1 k = timeout_callback kvios2 k) ->
  List.filter (busy kvios1) l = List.filter (busy kvios2) l
  /\ map (timeout_callback kvios1) (List.filter (busy kvios2) l)
     = map (timeout_callback kvios2) (List.filter (busy kvios2) l).
Proof.
  intros Hsame. split.
  - apply List.filter_ext_in. intros k Hk%list_elem_of_In. by apply Hsame.
  - apply List.map_ext_in. intros k [Hk%list_elem_of_In _]%List.filter_In.
    by apply Hsame.
Qed.

Lemma timeout_index_operations_idle (jiffies : Z) (w : world) :
  pending_head (w_index w) = [] ->
  timeout_index_operations jiffies w = w{{ w_index -> started_timer := false }}.
Proof.
  intros Hp. unfold timeout_index_operations. open_world w. by subst.
Qed.

(** The second loop of [timeout_index_operations]. *)
Lemma timeout_all_spec (jiffies : Z) (l : list nat) :
  forall w : world,
    NoDup l ->
    let w' := fold_left (timeout_one jiffies) l w in
    let fired := List.filter (busy (w_kvios w)) l in
    (forall k, w_kvios w' !! k
               = if bool_decide (k ∈ l) then timed_out <$> w_kvios w !! k
                 else w_kvios w !! k)
    /\ w_callbacks w' = w_callbacks w ++ map (timeout_callback (w_kvios w)) fired
    /\ active (w_index w') = Nat.iter (length fired) atomic_dec (active (w_index w))
    /\ value (timeout_reporter (w_index w'))
       = Nat.iter (length fired) atomic64_inc (value (timeout_reporter (w_index w)))
    /\ pending_head (w_index w') = pending_head (w_index w)
    /\ started_timer (w_index w') = started_timer (w_index w)
    /\ pending_timer (w_index w') = pending_timer (w_index w).
Proof.
  induction l as [|k rest IH]; intros w Hnd; cbn [fold_left List.filter].
  - cbn. rewrite app_nil_r. split; [|done]. intros k.
    by rewrite bool_decide_eq_false_2 by apply not_elem_of_nil.
  - apply NoDup_cons in Hnd as [Hk Hnd].
    destruct (timeout_one_spec jiffies w k)
      as (Hkv1 & Hcb1 & Hact1 & Hval1 & Hpend1 & Hst1 & Htm1).
    destruct (IH (timeout_one jiffies w k) Hnd)
      as (Hkv & Hcb & Hact & Hval & Hpend & Hst & Htm).
    destruct (fired_ext_in (w_kvios (timeout_one jiffies w k)) (w_kvios w) rest)
      as [Hfilter Hmap].
    { intros k' Hk'. unfold busy, timeout_callback. rewrite Hkv1.
      rewrite decide_False; [done|]. by intros ->. }
    rewrite Hfilter in Hcb, Hact, Hval. rewrite Hmap in Hcb.
    split; [|rewrite Hcb, Hcb1, Hact, Hact1, Hval, Hval1, Hpend, Hst, Htm;
             destruct (busy (w_kvios w) k); cbn [length map app];
             rewrite <- ?app_assoc, ?Nat.iter_succ_r, ?app_nil_r; done].
    intros k'. rewrite Hkv, Hkv1.
    destruct (decide (k' = k)) as [->|Hne].
    + rewrite (bool_decide_eq_false_2 (k ∈ rest)) by done.
      by rewrite (bool_decide_eq_true_2 (k ∈ k :: rest)) by apply list_elem_of_here.
    + repeat case_bool_decide; try done; exfalso;
        repeat match goal with
        | Hin : _ ∈ _ :: _ |- _ => apply elem_of_cons in Hin as [?|?]
        | Hnot : _ ∉ _ :: _ |- _ => apply not_elem_of_cons in Hnot as [? ?]
        end; done.
Qed.

(** The counters after a number of time-outs, in plain arithmetic: [active]
    is a signed 32-bit counter, the value of the reporter a signed 64-bit
    one. *)
Lemma sint32_sint32_sub (a n : Z) : sint32 (sint32 a - n) = sint32 (a - n).
Proof.
  unfold sint32. f_equal.
  replace ((a + 2 ^ 31) mod 2 ^ 32 - 2 ^ 31 - n + 2 ^ 31)
    with ((a + 2 ^ 31) mod 2 ^ 32 - n) by lia.
  rewrite Zminus_mod_idemp_l. f_equal. lia.
Qed.

Lemma sint64_sint64_add (a n : Z) : sint64 (sint64 a + n) = sint64 (a + n).
Proof.
  unfold sint64. f_equal.
  replace ((a + 2 ^ 63) mod 2 ^ 64 - 2 ^ 63 + n + 2 ^ 63)
    with ((a + 2 ^ 63) mod 2 ^ 64 + n) by lia.
  rewrite Zplus_mod_idemp_l. f_equal. lia.
Qed.

Lemma iter_atomic_dec (n : nat) (a : Z) :
  Nat.iter n atomic_dec a
  = match n with
    | O => a
    | S _ => (a - Z.of_nat n + 2 ^ 31) mod 2 ^ 32 - 2 ^ 31
    end.
Proof.
  induction n as [|n IH]; [done|].
  change (Nat.iter (S n) atomic_dec a) with (atomic_dec (Nat.iter n atomic_dec a)).
  rewrite IH. unfold atomic_dec. destruct n as [|n].
  - unfold sint32. do 2 f_equal; lia.
  - fold (sint32 (a - Z.of_nat (S n))). rewrite sint32_sint32_sub.
    unfold sint32. do 2 f_equal; lia.
Qed.

Lemma iter_atomic64_inc (n : nat) (a : Z) :
  Nat.iter n atomic64_inc a
  = match n with
    | O => a
    | S _ => (a + Z.of_nat n + 2 ^ 63) mod 2 ^ 64 - 2 ^ 63
    end.
Proof.
  induction n as [|n IH]; [done|].
  change (Nat.iter (S n) atomic64_inc a) with (atomic64_inc (Nat.iter n atomic64_inc a)).
  rewrite IH. unfold atomic64_inc. destruct n as [|n].
  - unfold sint64. do 2 f_equal; lia.
  - fold (sint64 (a + Z.of_nat (S n))). rewrite sint64_sint64_add.
    unfold sint64. do 2 f_equal; lia.
Qed.

(** C6.  When the pending timer goes off over a pending list without
    repetitions whose entries are all live, [timeout_index_operations]
    - splits the list into the leading entries submitted before
      [earliest], which is the time now less the time-out interval in
      [unsigned long] arithmetic, and the rest, which starts at the first
      entry not submitted before it and stays on the list;
    - leaves [started_timer] cleared when nothing stays, and otherwise sets
      it again with the timer on the later of two times, both taken modulo
      2^64: the submission time of the first entry that stays plus the
      time-out in ticks, and the time now plus the minimum timer interval in
      ticks;
    - clears [is_pending] of each entry taken off and, where its
      compare-and-set from BUSY to TIMED_OUT succeeds, sets its status to
      ETIMEDOUT; every other context is as before;
    - delivers one callback for each entry taken off that was BUSY, in the
      order of the list; with n such entries, [active] ends n lower and the
      value of the time-out reporter n higher, the one wrapping as a signed
      32-bit and the other as a signed 64-bit counter, and neither written
      when n is zero;
    - with an empty pending list does nothing but clear [started_timer]: no
      timer is set, no context, counter or callback changes. *)
Theorem timeout_index_operations_spec (jiffies : Z) (w : world) :
  let kvios := w_kvios w in
  let earliest :=
    ulong (jiffies - uint64 (msecs_to_jiffies (albireo_timeout_interval (w_timers w)))) in
  let pending := pending_head (w_index w) in
  let expired := leading (overdue kvios earliest) pending in
  let remaining := after_leading (overdue kvios earliest) pending in
  let fired := List.filter (busy kvios) expired in
  let n := Z.of_nat (length fired) in
  let w' := timeout_index_operations jiffies w in
  NoDup pending ->
  (forall k, k ∈ pending -> is_Some (kvios !! k)) ->
  expired ++ remaining = pending
  /\ (forall k context, k ∈ expired -> kvios !! k = Some context ->
        submission_time context < earliest)
  /\ pending_head (w_index w') = remaining
  /\ match remaining with
     | [] => started_timer (w_index w') = false
             /\ pending_timer (w_index w') = pending_timer (w_index w)
     | k :: _ =>
         started_timer (w_index w') = true
         /\ exists context,
             kvios !! k = Some context
             /\ earliest <= submission_time context
             /\ pending_timer (w_index w')
                = Some (Z.max
                          ((submission_time context
                            + albireo_timeout_jiffies (w_timers w)) mod 2 ^ 64)
                          ((jiffies + min_albireo_timer_jiffies (w_timers w)) mod 2 ^ 64))
     end
  /\ (forall k context, kvios !! k = Some context ->
        w_kvios w' !! k
        = Some (if bool_decide (k ∈ expired) then timed_out (unlinked context)
                else context))
  /\ w_callbacks w' = w_callbacks w ++ map (timeout_callback kvios) fired
  /\ active (w_index w')
     = (if decide (fired = []) then active (w_index w)
        else (active (w_index w) - n + 2 ^ 31) mod 2 ^ 32 - 2 ^ 31)
  /\ (- 2 ^ 31 <= active (w_index w) - n -> active (w_index w) < 2 ^ 31 ->
      active (w_index w') = active (w_index w) - n)
  /\ value (timeout_reporter (w_index w'))
     = (if decide (fired = []) then value (timeout_reporter (w_index w))
        else (value (timeout_reporter (w_index w)) + n + 2 ^ 63) mod 2 ^ 64 - 2 ^ 63)
  /\ (- 2 ^ 63 <= value (timeout_reporter (w_index w)) ->
      value (timeout_reporter (w_index w)) + n < 2 ^ 63 ->
      value (timeout_reporter (w_index w')) = value (timeout_reporter (w_index w)) + n)
  /\ (pending = [] -> w' = w{{ w_index -> started_timer := false }}).
Proof.
  intros kvios earliest pending expired remaining fired n w' Hnd Hwf.
  destruct (collect_expired_spec (w_timers w) jiffies earliest pending
              ((w_index w){{ started_timer := false }}) kvios [] Hnd Hwf)
    as (kvios' & Heq & Hlook).
  fold expired remaining in Heq, Hlook. cbn [app] in Heq.
  assert (Hrun : w' = fold_left (timeout_one jiffies) expired
                        (w{{ w_index :=
                               match remaining with
                               | [] => (w_index w){{ started_timer := false }}{{ pending_head := [] }}
                               | k :: rest =>
                                   match kvios !! k with
                                   | Some context =>
                                       start_expiration_timer (w_timers w) jiffies context
                                         ((w_index w){{ started_timer := false }}{{ pending_head := k :: rest }})
                                   | None => (w_index w){{ started_timer := false }}
                                   end
                               end;
                             w_kvios := kvios' }})).
  { subst w'. unfold timeout_index_operations.
    change (pending_head (w_index w){{ started_timer := false }}) with pending.
    fold earliest. fold kvios. by rewrite Heq. }
  assert (Hsplit : expired ++ remaining = pending) by apply leading_after_leading.
  assert (Hdue : forall k context, k ∈ expired -> kvios !! k = Some context ->
                   submission_time context < earliest).
  { intros k context Hk Hctx. apply leading_all in Hk. unfold overdue in Hk.
    rewrite Hctx in Hk. by apply Z.ltb_lt. }
  assert (Hhead : match remaining with
                  | [] => True
                  | k :: _ => exists context, kvios !! k = Some context
                                /\ earliest <= submission_time context
                  end).
  { destruct remaining as [|k rest] eqn:Hrem; [done|].
    destruct (Hwf k) as [context Hctx].
    { rewrite <- Hsplit. apply elem_of_app. right. apply list_elem_of_here. }
    exists context. split; [done|].
    apply after_leading_head in Hrem. unfold overdue in Hrem. rewrite Hctx in Hrem.
    by apply Z.ltb_ge. }
  set (w_mid := w{{ w_index := _; w_kvios := kvios' }}) in Hrun.
  assert (Hmid : w_callbacks w_mid = w_callbacks w
                 /\ active (w_index w_mid) = active (w_index w)
                 /\ value (timeout_reporter (w_index w_mid))
                    = value (timeout_reporter (w_index w))
                 /\ pending_head (w_index w_mid) = remaining
                 /\ match remaining with
                    | [] => started_timer (w_index w_mid) = false
                            /\ pending_timer (w_index w_mid) = pending_timer (w_index w)
                    | k :: _ =>
                        started_timer (w_index w_mid) = true
                        /\ exists context,
                            kvios !! k = Some context
                            /\ earliest <= submission_time context
                            /\ pending_timer (w_index w_mid)
                               = Some (get_albireo_timeout (w_timers w) jiffies
                                         (submission_time context))
                    end).
  { subst w_mid. clear Hrun Heq. clearbody remaining.
    destruct remaining as [|k rest]; [done|].
    destruct Hhead as (context & Hctx & Hle). rewrite Hctx. cbn. eauto 10. }
  destruct Hmid as (Hcb0 & Hact0 & Hval0 & Hpend0 & Htimer0).
  destruct (timeout_all_spec jiffies expired w_mid (leading_NoDup _ _ Hnd))
    as (Hkv & Hcb & Hact & Hval & Hpend & Hst & Htm).
  fold w' in Hkv, Hcb, Hact, Hval, Hpend, Hst, Htm. rewrite <- Hrun in *.
  change (w_kvios w_mid) with kvios' in *.
  destruct (fired_ext_in kvios' kvios expired) as [Hfilter Hmap].
  { intros k Hk. unfold busy, timeout_callback. rewrite Hlook.
    rewrite bool_decide_eq_true_2 by done.
    by destruct (kvios !! k). }
  rewrite Hfilter in Hcb, Hact, Hval. rewrite Hmap in Hcb. fold fired in Hcb, Hact, Hval.
  rewrite iter_atomic_dec, Hact0 in Hact. rewrite iter_atomic64_inc, Hval0 in Hval.
  fold n in Hact, Hval.
  split; [done|]. split; [done|]. split; [congruence|].
  split.
  { rewrite Hst, Htm. unfold get_albireo_timeout, maxULong, ulong in Htimer0.
    exact Htimer0. }
  split.
  { intros k context Hctx. rewrite Hkv, Hlook, Hctx. by case_bool_decide. }
  split; [congruence|].
  split.
  { rewrite Hact. subst n. by destruct fired. }
  split.
  { intros Hlow Hhigh. rewrite Hact. subst n. destruct fired as [|k0 fired0]; cbn [length] in *.
    - lia.
    - rewrite Z.mod_small by lia. lia. }
  split.
  { rewrite Hval. subst n. by destruct fired. }
  split.
  { intros Hlow Hhigh. rewrite Hval. subst n. destruct fired as [|k0 fired0]; cbn [length] in *.
    - lia.
    - rewrite Z.mod_small by lia. lia. }
  intros Hempty. by apply timeout_index_operations_idle.
Qed.

End PendingTimer.

Section StateMachine.
Context `{Codes : status_codes} `{Ticks : tick_conversion} `{Engine : uds_engine E}.

Lemma change_items_app (q1 q2 : list work_item) :
  change_items (q1 ++ q2) = (change_items q1 + change_items q2)%nat.
Proof. unfold change_items. by rewrite List.filter_app, length_app. Qed.

(** *** The dispatcher and the timer leave the state fields alone *)

Lemma w_index_invoke_dedupe_callback (k : nat) (w : world) :
  w_index (invoke_dedupe_callback k w) = w_index w.
Proof. unfold invoke_dedupe_callback. by destruct (w_kvios w !! k). Qed.

Lemma state_view_enqueue_index_operation (jiffies : Z) (k : nat)
    (operation : UdsCallbackType) (w : world) :
  state_view (w_index (enqueue_index_operation jiffies k operation w))
  = state_view (w_index w).
Proof.
  unfold enqueue_index_operation.
  destruct (w_kvios w !! k) as [context|]; [|done].
  destruct (compareAndSwap32 _ _ _) as [rs [|]];
    [|by rewrite w_index_invoke_dedupe_callback].
  destruct (deduping (w_index w)) eqn:Hon;
    [|by rewrite w_index_invoke_dedupe_callback].
  open_world w. unfold state_view. cbn.
  destruct (_ <? _); cbn; rewrite change_items_app, Nat.add_0_r; by subst.
Qed.

Lemma state_view_finish_index_operation (k : nat) (w : world) :
  state_view (w_index (finish_index_operation k w)) = state_view (w_index w).
Proof.
  unfold finish_index_operation, invoke_dedupe_callback.
  destruct (w_kvios w !! k) as [context|] eqn:Hctx; [|done].
  destruct (compareAndSwap32 _ _ _) as [rs [|]].
  - destruct (is_pending _), (_ || _); try destruct (decode_uds_advice _);
      open_world w; rewrite lookup_insert_eq; done.
  - destruct (compareAndSwap32 _ _ _). by open_world w.
Qed.

Lemma state_view_engine_completes (k : nat) (result : Z) (found0 : bool)
    (metadata : list byte) (w : world) :
  state_view (w_index (engine_completes k result found0 metadata w))
  = state_view (w_index w).
Proof.
  unfold engine_completes. destruct (w_kvios w !! k) as [context|]; [|done].
  by rewrite state_view_finish_index_operation.
Qed.

Lemma state_view_start_expiration_timer (t : albireo_timers) (jiffies : Z)
    (context : dedupe_context) (index : dedupe_index) :
  state_view (start_expiration_timer t jiffies context index) = state_view index.
Proof. unfold start_expiration_timer. by destruct index as [? ? ? ? ? ? ? ? ? ? ? ? ? ? ? ? []]. Qed.

Lemma state_view_start_index_operation (jiffies : Z) (k : nat) (w : world) (e : E) :
  state_view (w_index (fst (start_index_operation jiffies k w e)))
  = state_view (w_index w).
Proof.
  unfold start_index_operation.
  destruct (w_kvios w !! k) as [context|]; [|done].
  destruct (udsStartChunkOperation _ _) as [status0 e'].
  destruct (negb _); cbn [fst]; rewrite ?state_view_finish_index_operation;
    unfold start_expiration_timer; open_world w; by destruct started_timer0.
Qed.

Lemma state_view_collect_expired (t : albireo_timers) (jiffies earliest : Z)
    (pending : list nat) :
  forall (index : dedupe_index) (kvios : gmap nat dedupe_context) (expiredHead : list nat),
    state_view (fst (fst (collect_expired t jiffies earliest pending index kvios expiredHead)))
    = state_view index.
Proof.
  induction pending as [|k rest IH]; intros index kvios expiredHead;
    cbn [collect_expired]; [by destruct index|].
  destruct (kvios !! k) as [context|]; [|by destruct index].
  destruct (_ <=? _); [|apply IH].
  cbn [fst]. rewrite state_view_start_expiration_timer. by destruct index.
Qed.

Lemma state_view_timeout_one (jiffies : Z) (w : world) (k : nat) :
  state_view (w_index (timeout_one jiffies w k)) = state_view (w_index w).
Proof.
  unfold timeout_one, report_dedupe_timeout, invoke_dedupe_callback.
  destruct (w_kvios w !! k) as [context|]; [|done].
  destruct (compareAndSwap32 _ _ _) as [rs [|]]; [|done].
  open_world w. rewrite lookup_insert_eq. cbn. by destruct (_ =? 0).
Qed.

Lemma state_view_timeout_index_operations (jiffies : Z) (w : world) :
  state_view (w_index (timeout_index_operations jiffies w)) = state_view (w_index w).
Proof.
  unfold timeout_index_operations.
  destruct (collect_expired _ _ _ _ _ _ _) as [[index kvios] expiredHead] eqn:Hcollect.
  assert (Hindex : state_view index = state_view (w_index w)).
  { pose proof (state_view_collect_expired (w_timers w) jiffies
      (ulong (jiffies - uint64 (msecs_to_jiffies (albireo_timeout_interval (w_timers w)))))
      (pending_head (w_index w){{ started_timer := false }})
      ((w_index w){{ started_timer := false }}) (w_kvios w) []) as Hview.
    rewrite Hcollect in Hview. cbn [fst] in Hview. rewrite Hview. by open_world w. }
  set (w0 := w{{ w_index := index; w_kvios := kvios }}).
  assert (Hw0 : state_view (w_index w0) = state_view (w_index w)) by done.
  clearbody w0. clear Hcollect. revert w0 Hw0.
  induction expiredHead as [|k rest IH]; intros w0 Hw0; cbn [fold_left]; [done|].
  apply IH. by rewrite state_view_timeout_one.
Qed.

(** *** The invariant is kept by every action *)

Ltac finish_invariant :=
  repeat match goal with
  | H : true = true -> _ |- _ => specialize (H eq_refl)
  | H : false = true -> _ |- _ => clear H
  | H : ?b = true -> _, H' : ?b = true |- _ => specialize (H H')
  | H : _ && _ = true |- _ => apply andb_true_iff in H as [? ?]
  | H : bool_decide _ = true |- _ => apply bool_decide_eq_true in H
  | H : _ /\ _ |- _ => destruct H
  end; subst; repeat split; try congruence; try lia; auto.

Lemma system_invariant_view (s s' : system E) :
  state_view (w_index (sys_world s')) = state_view (w_index (sys_world s)) ->
  worker_in_change (sys_pc s') = worker_in_change (sys_pc s) ->
  system_invariant s -> system_invariant s'.
Proof.
  unfold system_invariant, deduping_sound, state_view.
  intros [= -> -> -> -> ->] ->. done.
Qed.

Lemma set_target_state_invariant (target : index_state_t)
    (change_dedupe dedupe set_create : bool) (s : system E) :
  system_invariant s ->
  system_invariant (with_world (set_target_state target change_dedupe dedupe set_create) s).
Proof.
  destruct s as [w e pc]. unfold system_invariant, deduping_sound, with_world.
  cbn [sys_world sys_pc]. unfold set_target_state, log.
  intros (Hsound & Hoff & Hcount).
  match goal with |- context [bool_decide ?P] => destruct (bool_decide P) end.
  all: open_world w.
  all: destruct change_dedupe, set_create, changing0; cbn in *.
  all: repeat case_bool_decide; cbn in *; rewrite ?change_items_app; cbn.
  all: repeat split; intros; finish_invariant.
  all: change (change_items [WorkChangeDedupeState]) with 1%nat; lia.
Qed.

Lemma mid_change_of_invariant (s : system E) :
  system_invariant s -> sys_pc s <> PcIdle -> mid_change (sys_world s).
Proof.
  unfold system_invariant, mid_change. intros (_ & Hoff & Hcount) Hpc.
  destruct (sys_pc s); [done|..]; cbn in Hcount;
    destruct (changing _); try lia; repeat split; auto; lia.
Qed.

Lemma mid_change_invariant (w : world) (e : E) (pc : driver_pc) :
  mid_change w -> pc <> PcIdle ->
  system_invariant {| sys_world := w; sys_engine := e; sys_pc := pc |}.
Proof.
  unfold system_invariant, mid_change, deduping_sound. cbn.
  intros (-> & -> & ->) Hpc. by destruct pc.
Qed.

Lemma driver_resume_invariant (w : world) (e : E) :
  mid_change w -> system_invariant (driver_resume w e).
Proof.
  unfold driver_resume, mid_change, change_needed, change_done,
    close_session_locked1, open_session_locked1.
  intros (Hchanging & Hoff & Hcount).
  unfold system_invariant, deduping_sound.
  open_world w. subst.
  destruct (_ || _); [case_bool_decide|]; cbn; rewrite ?Hcount;
    repeat split; intros; finish_invariant.
Qed.

Lemma mid_change_view (w w' : world) :
  state_view (w_index w') = state_view (w_index w) -> mid_change w -> mid_change w'.
Proof. unfold mid_change, state_view. by intros [= -> _ _ -> ->]. Qed.

Lemma state_view_log (entry : log_entry) (w : world) :
  state_view (w_index (log entry w)) = state_view (w_index w).
Proof. by destruct w. Qed.

Lemma state_view_open_session_unlocked (create_flag0 : bool) (w : world) (e : E) :
  state_view (w_index (snd (fst (open_session_unlocked create_flag0 w e))))
  = state_view (w_index w).
Proof.
  unfold open_session_unlocked.
  repeat (case_match; cbn [fst snd]); rewrite ?state_view_log; by open_world w.
Qed.

Lemma state_view_close_session_unlocked (w : world) (e : E) :
  state_view (w_index (snd (fst (close_session_unlocked w e))))
  = state_view (w_index w).
Proof.
  unfold close_session_unlocked.
  repeat (case_match; cbn [fst snd]); rewrite ?state_view_log; by open_world w.
Qed.

Lemma mid_change_open_session_locked2 (create_flag0 next_create_flag : bool)
    (result : Z) (w : world) :
  mid_change w ->
  mid_change (fst (open_session_locked2 create_flag0 next_create_flag result w)).
Proof.
  unfold mid_change, open_session_locked2. intros (Hc & Hd & Hq).
  destruct next_create_flag, create_flag0, (result =? UDS_CORRUPT_COMPONENT),
    (result =? UDS_NO_INDEX), (result =? UDS_SUCCESS); by open_world w.
Qed.

Lemma mid_change_close_session_locked2 (result : Z) (w : world) :
  mid_change w -> mid_change (close_session_locked2 result w).
Proof. unfold mid_change, close_session_locked2. by open_world w. Qed.

Lemma worker_step_invariant (jiffies : Z) (s s' : system E) :
  system_invariant s -> worker_step jiffies s = Some s' -> system_invariant s'.
Proof.
  intros Hinv. unfold worker_step.
  destruct (sys_pc s) as [|cf|cf ncf result| | |result] eqn:Hpc.
  - destruct (uds_queue (w_index (sys_world s))) as [|[k|] rest] eqn:Hqueue; [done|..].
    + destruct (start_index_operation _ _ _ _) as [w e] eqn:Hstart.
      intros [= <-]. apply (system_invariant_view s); [|by rewrite Hpc|done].
      cbn [sys_world].
      pose proof (state_view_start_index_operation jiffies k
                    ((sys_world s){{ w_index -> uds_queue := rest }}) (sys_engine s)) as Hview.
      rewrite Hstart in Hview. cbn [fst] in Hview. rewrite Hview.
      destruct s as [w0 e0 pc0]. cbn [sys_world] in *. open_world w0. by subst.
    + intros [= <-]. apply driver_resume_invariant.
      destruct Hinv as (_ & Hoff & Hcount). rewrite Hpc, Hqueue in Hcount.
      unfold mid_change. destruct s as [w0 e0 pc0]. cbn [sys_world] in *.
      open_world w0. subst. unfold change_items in *. cbn in *.
      destruct changing0; [|lia]. repeat split; auto; lia.
  - pose proof (mid_change_of_invariant s Hinv) as Hmid. rewrite Hpc in Hmid.
    pose proof (state_view_open_session_unlocked cf (sys_world s) (sys_engine s)) as Hview.
    destruct (open_session_unlocked _ _ _) as [[[r n] w] e]. cbn [fst snd] in Hview.
    intros [= <-]. apply mid_change_invariant; [|done].
    by apply (mid_change_view (sys_world s)); [|apply Hmid].
  - pose proof (mid_change_of_invariant s Hinv) as Hmid. rewrite Hpc in Hmid.
    pose proof (mid_change_open_session_locked2 cf ncf result (sys_world s)) as Hnext.
    destruct (open_session_locked2 _ _ _ _) as [w [|]]; cbn [fst] in Hnext;
      intros [= <-].
    + apply mid_change_invariant; [|done]. by apply Hnext, Hmid.
    + apply driver_resume_invariant. by apply Hnext, Hmid.
  - pose proof (mid_change_of_invariant s Hinv) as Hmid. rewrite Hpc in Hmid.
    intros [= <-]. apply driver_resume_invariant.
    apply (mid_change_view (sys_world s)); [apply state_view_log|by apply Hmid].
  - pose proof (mid_change_of_invariant s Hinv) as Hmid. rewrite Hpc in Hmid.
    pose proof (state_view_close_session_unlocked (sys_world s) (sys_engine s)) as Hview.
    destruct (close_session_unlocked _ _) as [[r w] e]. cbn [fst snd] in Hview.
    intros [= <-]. apply mid_change_invariant; [|done].
    by apply (mid_change_view (sys_world s)); [|apply Hmid].
  - pose proof (mid_change_of_invariant s Hinv) as Hmid. rewrite Hpc in Hmid.
    intros [= <-]. apply driver_resume_invariant, mid_change_close_session_locked2.
    by apply Hmid.
Qed.

Lemma perform_invariant (a : action) (s s' : system E) :
  system_invariant s -> perform a s = Some s' -> system_invariant s'.
Proof.
  intros Hinv. destruct a as [target cd d sc|jiffies k op|jiffies|jiffies|k r f m];
    cbn [perform].
  - intros [= <-]. by apply set_target_state_invariant.
  - intros [= <-]. apply (system_invariant_view s); [|done|done].
    apply state_view_enqueue_index_operation.
  - by apply worker_step_invariant.
  - intros [= <-]. apply (system_invariant_view s); [|done|done].
    apply state_view_timeout_index_operations.
  - intros [= <-]. apply (system_invariant_view s); [|done|done].
    apply state_view_engine_completes.
Qed.

Lemma initial_invariant (s : system E) : initial s -> system_invariant s.
Proof.
  intros [(name & config & Hindex) Hpc].
  unfold system_invariant, deduping_sound. rewrite Hindex, Hpc. by cbn.
Qed.

Lemma reachable_invariant (s : system E) : reachable s -> system_invariant s.
Proof.
  induction 1 as [s Hinit|a s s' _ IH Hperform].
  - by apply initial_invariant.
  - by apply (perform_invariant a s).
Qed.

Lemma reachable_perform_all (actions : list action) :
  forall s s' : system E,
    reachable s -> perform_all actions s = Some s' -> reachable s'.
Proof.
  induction actions as [|a rest IH]; intros s s' Hs; cbn [perform_all].
  - by intros [= <-].
  - destruct (perform a s) as [s1|] eqn:Hperform; [|done].
    apply IH. by apply (reachable_perform a s).
Qed.

(** C3.  In every state in which the state lock is free and which is
    reachable from a freshly made index through calls of [set_target_state],
    the moves of the queue's worker through [change_dedupe_state] with its
    [open_session] and [close_session] (cut at the places where the state lock
    is dropped), requests, time-outs and completions: [deduping] true implies
    [dedupe_flag] true and [index_state] OPENED, and [deduping] is false while
    a change is in progress.  A call of [set_target_state] that starts a change leaves
    [deduping] false, a call that finds no change in progress and starts none
    leaves [deduping] equal to [dedupe_flag] and [index_state] = OPENED, and
    so does the exit of the loop of [change_dedupe_state]. *)
Theorem deduping_invariant (s : system E) :
  reachable s ->
  let index := w_index (sys_world s) in
  deduping_sound index
  /\ (changing index = true -> deduping index = false)
  /\ (forall target change_dedupe dedupe set_create,
        let index' :=
          w_index (set_target_state target change_dedupe dedupe set_create (sys_world s)) in
        (changing index = false -> changing index' = true -> deduping index' = false)
        /\ (changing index' = false ->
            deduping index'
            = dedupe_flag index' && bool_decide (index_state index' = IS_OPENED)))
  /\ (let index' := w_index (change_done (sys_world s)) in
      changing index' = false
      /\ deduping index'
         = dedupe_flag index' && bool_decide (index_state index' = IS_OPENED)).
Proof.
  intros Hreach index. subst index.
  destruct (reachable_invariant s Hreach) as (Hsound & Hoff & _).
  split; [done|]. split; [done|]. split.
  - intros target change_dedupe dedupe set_create index'. subst index'.
    unfold set_target_state, log.
    match goal with |- context [bool_decide ?P] => destruct (bool_decide P) end.
    all: destruct s as [w e pc]; cbn [sys_world] in *; open_world w.
    all: destruct change_dedupe, set_create, changing0; cbn;
      repeat case_bool_decide; cbn; split; intros; first [congruence|contradiction].
  - unfold change_done. destruct s as [w e pc]. cbn [sys_world]. by open_world w.
Qed.

(** *** The work function running alone *)

Lemma open_session_create (w : world) (e e' : E) (session' : Z) :
  create_flag (w_index w) = true ->
  udsCreateLocalIndex (index_name (w_index w)) (configuration (w_index w))
    (index_session (w_index w)) e = (UDS_SUCCESS, session', e') ->
  exists w',
    open_session w e = (w', e')
    /\ w_index w'
       = (w_index w){{ create_flag := false; index_state := IS_OPENED;
                       error_flag := false; index_session := session' }}.
Proof.
  intros Hflag Hcreate.
  unfold open_session, open_session_locked1, open_session_unlocked, open_session_locked2.
  open_world w. subst. rewrite Hcreate, Z.eqb_refl. cbn. eauto.
Qed.

Lemma open_session_rebuild_missing (w : world) (e e' : E) (result session' : Z) :
  create_flag (w_index w) = false ->
  result = UDS_CORRUPT_COMPONENT \/ result = UDS_NO_INDEX ->
  result <> UDS_SUCCESS ->
  udsRebuildLocalIndex (index_name (w_index w)) (index_session (w_index w)) e
  = (result, session', e') ->
  exists w',
    open_session w e = (w', e')
    /\ w_index w'
       = (w_index w){{ create_flag := true; index_state := IS_CLOSED;
                       error_flag := false; index_session := session' }}.
Proof.
  intros Hflag Hresult Hfailed Hrebuild.
  unfold open_session, open_session_locked1, open_session_unlocked, open_session_locked2.
  open_world w. subst create_flag0. rewrite Hrebuild.
  rewrite (proj2 (Z.eqb_neq result UDS_SUCCESS)) by done. cbn.
  assert (Hcase : (result =? UDS_CORRUPT_COMPONENT) || (result =? UDS_NO_INDEX) = true).
  { destruct Hresult as [->| ->]; rewrite Z.eqb_refl; by rewrite ?orb_true_r. }
  rewrite Hcase. cbn. eauto.
Qed.

Lemma open_session_rebuild_mismatch (w : world) (e e1 e2 : E)
    (session' configuration' : Z) :
  UDS_CORRUPT_COMPONENT <> UDS_SUCCESS ->
  UDS_NO_INDEX <> UDS_SUCCESS ->
  create_flag (w_index w) = false ->
  udsRebuildLocalIndex (index_name (w_index w)) (index_session (w_index w)) e
  = (UDS_SUCCESS, session', e1) ->
  udsGetIndexConfiguration session' e1 = (UDS_SUCCESS, configuration', e2) ->
  udsConfigurationGetNonce (configuration (w_index w))
  <> udsConfigurationGetNonce configuration' ->
  exists w',
    open_session w e = (w', e2)
    /\ w_index w'
       = (w_index w){{ create_flag := true; index_state := IS_OPENED;
                       error_flag := false; index_session := session' }}.
Proof.
  intros Hcorrupt Hnoindex Hflag Hrebuild Hconfig Hnonce.
  unfold open_session, open_session_locked1, open_session_unlocked, open_session_locked2.
  open_world w. subst create_flag0. rewrite Hrebuild, Z.eqb_refl. cbn.
  rewrite Hconfig, Z.eqb_refl. cbn.
  rewrite (proj2 (Z.eqb_neq _ _) Hnonce). cbn.
  rewrite (proj2 (Z.eqb_neq UDS_SUCCESS UDS_CORRUPT_COMPONENT)) by done.
  rewrite (proj2 (Z.eqb_neq UDS_SUCCESS UDS_NO_INDEX)) by done.
  rewrite Z.eqb_refl. cbn. eauto.
Qed.

Lemma close_session_eq (w : world) (e e' : E) (result : Z) :
  udsCloseIndexSession (index_session (w_index w)) e = (result, e') ->
  exists w',
    close_session w e = (w', e')
    /\ w_index w'
       = (w_index w){{ index_state := IS_CLOSED;
                       error_flag ::= fun f => f || negb (result =? UDS_SUCCESS) }}.
Proof.
  intros Hclose.
  unfold close_session, close_session_locked1, close_session_unlocked,
    close_session_locked2, log.
  open_world w. rewrite Hclose. destruct (result =? UDS_SUCCESS); cbn; eauto.
Qed.

(** The work function run in one piece is the worker left alone: when
    [change_dedupe_state] ends, the worker, started at the test of the loop,
    reaches the same world and engine, idle, in a number of moves. *)
Lemma change_dedupe_loop_worker_run (jiffies : Z) (fuel : nat) :
  forall (w w' : world) (e e' : E),
    change_dedupe_loop fuel w e = Some (w', e') ->
    exists n,
      worker_run jiffies n (driver_resume w e)
      = Some {| sys_world := change_done w'; sys_engine := e'; sys_pc := PcIdle |}.
Proof.
  induction fuel as [|fuel IH]; intros w w' e e'; cbn [change_dedupe_loop];
    unfold driver_resume; destruct (change_needed (w_index w)) eqn:Hneeded;
    try done; try (intros [= <- <-]; by exists 0%nat).
  case_bool_decide as Hstate.
  - unfold close_session.
    destruct (close_session_unlocked (close_session_locked1 w) e)
      as [[result wu] eu] eqn:Hunlocked.
    intros (n & Hrun)%IH. exists (S (S n)).
    cbn [worker_run worker_step sys_pc sys_world sys_engine].
    rewrite Hunlocked. cbn [worker_run worker_step sys_pc sys_world sys_engine].
    exact Hrun.
  - unfold open_session.
    destruct (open_session_locked1 w) as [create_flag0 w1] eqn:Hlocked1.
    destruct (open_session_unlocked create_flag0 w1 e)
      as [[[result next_create_flag] wu] eu] eqn:Hunlocked.
    destruct (open_session_locked2 create_flag0 next_create_flag result wu)
      as [w2 logging] eqn:Hlocked2.
    intros (n & Hrun)%IH. destruct logging.
    + exists (S (S (S n))).
      cbn [worker_run worker_step sys_pc sys_world sys_engine].
      rewrite Hunlocked. cbn [worker_run worker_step sys_pc sys_world sys_engine].
      rewrite Hlocked2. cbn [worker_run worker_step sys_pc sys_world sys_engine].
      exact Hrun.
    + exists (S (S n)).
      cbn [worker_run worker_step sys_pc sys_world sys_engine].
      rewrite Hunlocked. cbn [worker_run worker_step sys_pc sys_world sys_engine].
      rewrite Hlocked2. exact Hrun.
Qed.

Lemma change_dedupe_state_worker_run (jiffies : Z) (fuel : nat) (w w' : world)
    (e e' : E) :
  change_dedupe_state fuel w e = Some (w', e') ->
  exists n,
    worker_run jiffies n (driver_resume w e)
    = Some {| sys_world := w'; sys_engine := e'; sys_pc := PcIdle |}.
Proof.
  unfold change_dedupe_state.
  destruct (change_dedupe_loop fuel w e) as [[w1 e1]|] eqn:Hloop; [|done].
  intros [= <- <-]. by apply (change_dedupe_loop_worker_run jiffies fuel w).
Qed.

Lemma change_dedupe_loop_open (fuel : nat) (w w' : world) (e e' : E) :
  change_needed (w_index w) = true ->
  index_state (w_index w) <> IS_OPENED ->
  open_session w e = (w', e') ->
  change_dedupe_loop (S fuel) w e = change_dedupe_loop fuel w' e'
  /\ change_dedupe_rounds (S fuel) w e
     = RoundOpen (create_flag (w_index w)) :: change_dedupe_rounds fuel w' e'.
Proof.
  intros Hneeded Hstate Hopen. cbn [change_dedupe_loop change_dedupe_rounds].
  by rewrite Hneeded, bool_decide_eq_false_2, Hopen.
Qed.

Lemma change_dedupe_loop_close (fuel : nat) (w w' : world) (e e' : E) :
  change_needed (w_index w) = true ->
  index_state (w_index w) = IS_OPENED ->
  close_session w e = (w', e') ->
  change_dedupe_loop (S fuel) w e = change_dedupe_loop fuel w' e'
  /\ change_dedupe_rounds (S fuel) w e = RoundClose :: change_dedupe_rounds fuel w' e'.
Proof.
  intros Hneeded Hstate Hclose. cbn [change_dedupe_loop change_dedupe_rounds].
  by rewrite Hneeded, bool_decide_eq_true_2, Hclose.
Qed.

Lemma change_dedupe_loop_done (fuel : nat) (w : world) (e : E) :
  change_needed (w_index w) = false ->
  change_dedupe_loop fuel w e = Some (w, e) /\ change_dedupe_rounds fuel w e = [].
Proof. intros Hdone. destruct fuel; cbn; by rewrite Hdone. Qed.

(** C8.  With the index CLOSED, the target OPENED and [create_flag] clear:
    when the rebuild returns CORRUPT_COMPONENT or NO_INDEX, [open_session]
    leaves [index_state] CLOSED and sets [create_flag]; the loop of
    [change_dedupe_state] therefore runs a second round, which creates a new
    index; when that creation succeeds the work function ends, for every
    amount of fuel of at least two rounds, with [index_state] OPENED,
    [error_flag] false, [create_flag] clear and no change in progress. *)
Theorem rebuild_failure_recovers (w : world) (e e1 e2 : E)
    (result session1 session2 : Z) (fuel : nat) :
  UDS_CORRUPT_COMPONENT <> UDS_SUCCESS ->
  UDS_NO_INDEX <> UDS_SUCCESS ->
  index_state (w_index w) = IS_CLOSED ->
  index_target (w_index w) = IS_OPENED ->
  create_flag (w_index w) = false ->
  result = UDS_CORRUPT_COMPONENT \/ result = UDS_NO_INDEX ->
  udsRebuildLocalIndex (index_name (w_index w)) (index_session (w_index w)) e
  = (result, session1, e1) ->
  udsCreateLocalIndex (index_name (w_index w)) (configuration (w_index w)) session1 e1
  = (UDS_SUCCESS, session2, e2) ->
  (exists w1,
     open_session w e = (w1, e1)
     /\ index_state (w_index w1) = IS_CLOSED
     /\ create_flag (w_index w1) = true)
  /\ change_dedupe_rounds (2 + fuel) w e = [RoundOpen false; RoundOpen true]
  /\ exists w2,
      change_dedupe_state (2 + fuel) w e = Some (w2, e2)
      /\ index_state (w_index w2) = IS_OPENED
      /\ error_flag (w_index w2) = false
      /\ create_flag (w_index w2) = false
      /\ changing (w_index w2) = false
      /\ index_target (w_index w2) = IS_OPENED
      /\ index_session (w_index w2) = session2
      /\ deduping (w_index w2) = dedupe_flag (w_index w).
Proof.
  intros Hcorrupt Hnoindex Hstate Htarget Hflag Hresult Hrebuild Hcreate.
  assert (Hfailed : result <> UDS_SUCCESS) by (destruct Hresult; congruence).
  destruct (open_session_rebuild_missing w e e1 result session1
              Hflag Hresult Hfailed Hrebuild) as (w1 & Hopen1 & Hindex1).
  destruct (open_session_create w1 e1 e2 session2) as (w2 & Hopen2 & Hindex2).
  { rewrite Hindex1. by destruct (w_index w). }
  { rewrite Hindex1. by destruct (w_index w). }
  rewrite Hindex1 in Hindex2.
  destruct (change_dedupe_loop_open (S fuel) w w1 e e1) as [Hloop1 Hrounds1];
    [unfold change_needed; rewrite Hstate, Htarget; by rewrite bool_decide_eq_true_2
    |by rewrite Hstate|done|].
  destruct (change_dedupe_loop_open fuel w1 w2 e1 e2) as [Hloop2 Hrounds2];
    [rewrite Hindex1; unfold change_needed; destruct (w_index w); cbn; apply orb_true_r
    |rewrite Hindex1; by destruct (w_index w)
    |done|].
  destruct (change_dedupe_loop_done fuel w2 e2) as [Hloop3 Hrounds3].
  { rewrite Hindex2. unfold change_needed. destruct (w_index w); cbn in *.
    rewrite Htarget. by rewrite bool_decide_eq_false_2 by (intros Hne; by apply Hne). }
  split; [|split].
  - exists w1. rewrite Hindex1. by destruct (w_index w).
  - change (2 + fuel)%nat with (S (S fuel)). rewrite Hrounds1, Hrounds2, Hrounds3, Hflag, Hindex1.
    by destruct (w_index w).
  - exists (change_done w2). unfold change_dedupe_state. change (2 + fuel)%nat with (S (S fuel)).
    rewrite Hloop1, Hloop2, Hloop3. split; [done|].
    unfold change_done. destruct w2 as [index2 ? ? ? ? ? ?]. cbn in Hindex2. subst index2.
    destruct (w_index w); cbn in *. subst. by rewrite andb_true_r.
Qed.

(** C7, as amended.  With the index CLOSED, the target OPENED and
    [create_flag] clear: when the rebuild succeeds and the configuration read
    back carries a nonce other than the configured one, [open_session] only
    arranges the retry: it sets [create_flag] and returns with [index_state]
    OPENED, the session still open.  The loop of [change_dedupe_state] then
    closes the session in its next round, through [close_session], and
    creates a fresh index in one further round run with [create_flag] set:
    two more rounds, not one.  When that creation succeeds the work function
    ends, for every amount of fuel of at least three rounds, with
    [index_state] OPENED. *)
Theorem nonce_mismatch_recreates (w : world) (e e1 e2 e3 e4 : E)
    (session1 configuration1 closed session2 : Z) (fuel : nat) :
  UDS_CORRUPT_COMPONENT <> UDS_SUCCESS ->
  UDS_NO_INDEX <> UDS_SUCCESS ->
  index_state (w_index w) = IS_CLOSED ->
  index_target (w_index w) = IS_OPENED ->
  create_flag (w_index w) = false ->
  udsRebuildLocalIndex (index_name (w_index w)) (index_session (w_index w)) e
  = (UDS_SUCCESS, session1, e1) ->
  udsGetIndexConfiguration session1 e1 = (UDS_SUCCESS, configuration1, e2) ->
  udsConfigurationGetNonce (configuration (w_index w))
  <> udsConfigurationGetNonce configuration1 ->
  udsCloseIndexSession session1 e2 = (closed, e3) ->
  udsCreateLocalIndex (index_name (w_index w)) (configuration (w_index w)) session1 e3
  = (UDS_SUCCESS, session2, e4) ->
  (exists w1,
     open_session w e = (w1, e2)
     /\ create_flag (w_index w1) = true
     /\ index_state (w_index w1) = IS_OPENED)
  /\ change_dedupe_rounds (3 + fuel) w e = [RoundOpen false; RoundClose; RoundOpen true]
  /\ exists w3,
      change_dedupe_state (3 + fuel) w e = Some (w3, e4)
      /\ index_state (w_index w3) = IS_OPENED
      /\ error_flag (w_index w3) = false
      /\ create_flag (w_index w3) = false
      /\ changing (w_index w3) = false
      /\ index_target (w_index w3) = IS_OPENED
      /\ index_session (w_index w3) = session2
      /\ deduping (w_index w3) = dedupe_flag (w_index w).
Proof.
  intros Hcorrupt Hnoindex Hstate Htarget Hflag Hrebuild Hconfig Hnonce Hclose Hcreate.
  destruct (open_session_rebuild_mismatch w e e1 e2 session1 configuration1
              Hcorrupt Hnoindex Hflag Hrebuild Hconfig Hnonce) as (w1 & Hopen1 & Hindex1).
  destruct (close_session_eq w1 e2 e3 closed) as (w2 & Hclose2 & Hindex2).
  { rewrite Hindex1. by destruct (w_index w). }
  rewrite Hindex1 in Hindex2.
  destruct (open_session_create w2 e3 e4 session2) as (w3 & Hopen3 & Hindex3).
  { rewrite Hindex2. by destruct (w_index w). }
  { rewrite Hindex2. by destruct (w_index w). }
  rewrite Hindex2 in Hindex3.
  destruct (change_dedupe_loop_open (S (S fuel)) w w1 e e2) as [Hloop1 Hrounds1];
    [unfold change_needed; rewrite Hstate, Htarget; by rewrite bool_decide_eq_true_2
    |by rewrite Hstate|done|].
  destruct (change_dedupe_loop_close (S fuel) w1 w2 e2 e3) as [Hloop2 Hrounds2];
    [rewrite Hindex1; unfold change_needed; destruct (w_index w); cbn; apply orb_true_r
    |rewrite Hindex1; by destruct (w_index w)
    |done|].
  destruct (change_dedupe_loop_open fuel w2 w3 e3 e4) as [Hloop3 Hrounds3];
    [rewrite Hindex2; unfold change_needed; destruct (w_index w); cbn; apply orb_true_r
    |rewrite Hindex2; by destruct (w_index w)
    |done|].
  destruct (change_dedupe_loop_done fuel w3 e4) as [Hloop4 Hrounds4].
  { rewrite Hindex3. unfold change_needed. destruct (w_index w); cbn in *.
    rewrite Htarget. by rewrite bool_decide_eq_false_2 by (intros Hne; by apply Hne). }
  split; [|split].
  - exists w1. rewrite Hindex1. by destruct (w_index w).
  - change (3 + fuel)%nat with (S (S (S fuel))). rewrite Hrounds1, Hrounds2, Hrounds3, Hrounds4, Hflag, Hindex2.
    by destruct (w_index w).
  - exists (change_done w3). unfold change_dedupe_state. change (3 + fuel)%nat with (S (S (S fuel))).
    rewrite Hloop1, Hloop2, Hloop3, Hloop4. split; [done|].
    unfold change_done. destruct w3 as [index3 ? ? ? ? ? ?]. cbn in Hindex3. subst index3.
    destruct (w_index w); cbn in *. subst. by rewrite andb_true_r.
Qed.

End StateMachine.

(** * The theorems at work on the example instances *)

(** Advice (state 7, pbn 42) goes out as the ten bytes 02 07 2a 00 .. 00 and
    comes back from a request answered with them. *)
Lemma encode_decode_roundtrip_witness :
  let advice := {| pbn := 42; state := 7 |} in
  let sent := encode_uds_advice example_request advice in
  let answered := example_request{{ found := true; oldMetadata := newMetadata sent }} in
  take UDS_ADVICE_SIZE (newMetadata sent)
  = [Byte.x02; Byte.x07; Byte.x2a; Byte.x00; Byte.x00; Byte.x00; Byte.x00;
     Byte.x00; Byte.x00; Byte.x00]
  /\ @decode_uds_advice example_codes answered = (Some advice, []).
Proof.
  intros advice sent answered.
  destruct (@encode_decode_roundtrip example_codes example_request answered advice)
    as (Hbytes & _ & Hdecode).
  - subst advice. simpl. lia.
  - subst advice. simpl. lia.
  - unfold UDS_ADVICE_SIZE. simpl. lia.
  - reflexivity.
  - reflexivity.
  - reflexivity.
  - split; [exact Hbytes | exact Hdecode].
Defined.

(** A payload of version 1 gives no advice. *)
Lemma decode_uds_advice_only_valid_witness :
  fst (@decode_uds_advice example_codes
         (example_request{{ found := true;
                            oldMetadata := Byte.x01 :: repeat Byte.x00 15 }}))
  = None.
Proof.
  apply (proj2 (@decode_uds_advice_only_valid example_codes _)).
  right. right. vm_compute. discriminate.
Defined.

(** At 250 ticks a second a time-out of 0 ms becomes two ticks, 8 ms. *)
Lemma timer_intervals_clamped_witness :
  let t := @set_albireo_timeout_interval example_ticks 0 example_timers in
  albireo_timeout_jiffies t = 2 /\ albireo_timeout_interval t = 8.
Proof.
  intros t.
  destruct (@timer_intervals_clamped example_ticks 0 example_timers)
    as ((_ & _ & _ & Hfloor & _) & _).
  - vm_compute. discriminate.
  - vm_compute. discriminate.
  - vm_compute. discriminate.
  - apply Hfloor.
    + lia.
    + reflexivity.
Defined.

(** A request that the timer ended at tick 2000 and the engine completes
    afterwards has been called back once, with ETIMEDOUT. *)
Lemma one_callback_per_submission_witness :
  let w := example_world 7 {[ 1%nat := example_context UR_BUSY 0 ]} in
  let w1 := @timeout_one example_codes 2000 w 1%nat in
  let w2 := @engine_completes example_codes 1%nat 0 true [] w1 in
  w_callbacks w2 = [{| cb_kvio := 1%nat; cb_status := 110; cb_advice := None |}].
Proof.
  intros w w1 w2.
  destruct (@one_callback_per_submission example_codes 2000 1%nat w
              (example_context UR_BUSY 0) 0 true [])
    as (_ & Hfirst & _ & Hsecond & _).
  - reflexivity.
  - reflexivity.
  - exact (eq_trans Hsecond Hfirst).
Defined.



(** A query while deduping is off is answered at once with status 0. *)
Lemma enqueue_index_operation_status_success_witness :
  let w := example_world 7 {[ 1%nat := example_context UR_IDLE 0 ]} in
  exists delivered,
    w_callbacks (@enqueue_index_operation example_codes 10 1%nat UDS_QUERY w)
    = [delivered]
    /\ cb_status delivered = 0.
Proof.
  intros w.
  destruct (@enqueue_index_operation_status_success example_codes 10 1%nat UDS_QUERY w
              (example_context UR_IDLE 0))
    as [_ Hcallback].
  - reflexivity.
  - destruct Hcallback as (delivered & Hcb & _ & Hstatus & _).
    + right. reflexivity.
    + exists delivered. split; [exact Hcb | exact Hstatus].
Defined.

(** Two requests in flight and pending, submitted at ticks 0 and 5000; the
    timer goes off at tick 2000 with a time-out of 1250 ticks and a minimum
    timer interval of 25: the first is timed out and called back, [active]
    goes from 2 to 1 and the reporter counts 1; the second stays on the list
    with the timer set for tick 6250. *)
Lemma timeout_index_operations_spec_witness :
  let kvios : gmap nat dedupe_context :=
    {[ 1%nat := (example_context UR_BUSY 0){{ is_pending := true }};
       2%nat := (example_context UR_BUSY 5000){{ is_pending := true }} ]} in
  let w := (example_world 7 kvios){{ w_index -> pending_head := [1%nat; 2%nat];
                                     w_index -> started_timer := true;
                                     w_index -> active := 2 }} in
  let w' := @timeout_index_operations example_codes example_ticks 2000 w in
  pending_head (w_index w') = [2%nat]
  /\ w_callbacks w' = [{| cb_kvio := 1%nat; cb_status := 110; cb_advice := None |}]
  /\ active (w_index w') = 1
  /\ value (timeout_reporter (w_index w')) = 1
  /\ started_timer (w_index w') = true
  /\ pending_timer (w_index w') = Some 6250.
Proof.
  intros kvios w w'.
  destruct (@timeout_index_operations_spec example_codes example_ticks 2000 w)
    as (_ & _ & Hpending & Htimer & _ & Hcallbacks & _ & Hactive & _ & Hvalue & _).
  - change (NoDup [1%nat; 2%nat]). apply (bool_decide_unpack _). vm_compute. exact I.
  - intros k Hk. change (k ∈ [1%nat; 2%nat]) in Hk.
    apply elem_of_cons in Hk as [->|Hk]; [eexists; vm_compute; reflexivity|].
    apply elem_of_cons in Hk as [->|Hk]; [eexists; vm_compute; reflexivity|].
    by apply elem_of_nil in Hk.
  - split; [exact Hpending|]. split; [exact Hcallbacks|].
    split.
    { refine (eq_trans (Hactive _ _) _);
        [vm_compute; discriminate|vm_compute; reflexivity|vm_compute; reflexivity]. }
    split.
    { refine (eq_trans (Hvalue _ _) _);
        [vm_compute; discriminate|vm_compute; reflexivity|vm_compute; reflexivity]. }
    match type of Htimer with
    | match ?r with _ => _ end =>
        assert (Hrem : r = [2%nat]) by (vm_compute; reflexivity); rewrite Hrem in Htimer
    end.
    destruct Htimer as (Hstarted & context & Hctx & _ & Hdeadline).
    split; [exact Hstarted|].
    vm_compute in Hctx. injection Hctx as <-.
    refine (eq_trans Hdeadline _). vm_compute. reflexivity.
Defined.

(** Starting the index over an index on disk with the right nonce: after the
    call and three moves of the worker the index is open and deduping. *)
Lemma deduping_invariant_witness :
  exists s,
    example_run [] (Some 7) = Some s
    /\ deduping (w_index (sys_world s)) = true
    /\ dedupe_flag (w_index (sys_world s)) = true
    /\ index_state (w_index (sys_world s)) = IS_OPENED.
Proof.
  eexists. split; [vm_compute; reflexivity|].
  split; [reflexivity|].
  eapply (@deduping_invariant example_codes example_ticks example_engine_state
            example_engine).
  - eapply (@reachable_perform_all example_codes example_ticks example_engine_state
              example_engine (example_start ++ []) (example_system (Some 7))).
    + apply reachable_initial. split; [|reflexivity].
      exists "dev=sda offset=4096 size=1024"%string, 7. reflexivity.
    + vm_compute. reflexivity.
  - reflexivity.
Defined.

(** Starting the index with nothing on disk: the rebuild reports NO_INDEX,
    the second round creates, and the index ends open without error. *)
Lemma rebuild_failure_recovers_witness :
  exists w2,
    @change_dedupe_state example_codes example_engine_state example_engine 2
      (start_dedupe_index false (example_world 7 ∅)) (None, [])
    = Some (w2, (Some 7, [EngineRebuild; EngineCreate]))
    /\ index_state (w_index w2) = IS_OPENED
    /\ error_flag (w_index w2) = false.
Proof.
  destruct (@rebuild_failure_recovers example_codes example_engine_state example_engine
              (start_dedupe_index false (example_world 7 ∅))
              (None, []) (None, [EngineRebuild]) (Some 7, [EngineRebuild; EngineCreate])
              1047 0 1 0%nat)
    as (_ & _ & w2 & Hrun & Hstate & Herror & _).
  - vm_compute. discriminate.
  - vm_compute. discriminate.
  - reflexivity.
  - reflexivity.
  - reflexivity.
  - right. reflexivity.
  - reflexivity.
  - reflexivity.
  - exists w2. split; [exact Hrun|]. split; [exact Hstate | exact Herror].
Defined.

(** C7 as stated fails.  Starting the index of the device with nonce 7 over
    an index made for nonce 5: when [open_session] returns from the rebuild
    the index is reported OPENED, not CLOSED, and the engine has been asked to
    rebuild and to hand out its configuration but not to close anything; the
    rebuild round and one additional round do not bring the work function to
    its end, let alone to OPENED; it takes the three rounds rebuild, close,
    create. *)
Lemma nonce_mismatch_counterexample :
  let w := start_dedupe_index false (example_world 7 ∅) in
  let e : example_engine_state := (Some 5, []) in
  let run := @change_dedupe_state example_codes example_engine_state example_engine in
  let after_open := @open_session example_codes example_engine_state example_engine w e in
  index_state (w_index (fst after_open)) = IS_OPENED
  /\ index_state (w_index (fst after_open)) <> IS_CLOSED
  /\ snd (snd after_open) = [EngineRebuild; EngineGetConfiguration]
  /\ run 2%nat w e = None
  /\ ~ (exists w2 e2, run 2%nat w e = Some (w2, e2)
                      /\ index_state (w_index w2) = IS_OPENED)
  /\ @change_dedupe_rounds example_codes example_engine_state example_engine 3 w e
     = [RoundOpen false; RoundClose; RoundOpen true].
Proof.
  intros w e run after_open.
  assert (Hrun : run 2%nat w e = None) by (vm_compute; reflexivity).
  split; [vm_compute; reflexivity|]. split; [vm_compute; discriminate|].
  split; [vm_compute; reflexivity|]. split; [exact Hrun|].
  split; [|vm_compute; reflexivity].
  intros (w2 & e2 & Hsome & _). rewrite Hrun in Hsome. discriminate.
Qed.

(** The same start run to its end: rebuild, close, create, and the index is
    open for nonce 7. *)
Lemma nonce_mismatch_recreates_witness :
  let w := start_dedupe_index false (example_world 7 ∅) in
  let e : example_engine_state := (Some 5, []) in
  @change_dedupe_rounds example_codes example_engine_state example_engine 3 w e
  = [RoundOpen false; RoundClose; RoundOpen true]
  /\ exists w3,
      @change_dedupe_state example_codes example_engine_state example_engine 3 w e
      = Some (w3, (Some 7, [EngineRebuild; EngineGetConfiguration; EngineClose;
                            EngineCreate]))
      /\ index_state (w_index w3) = IS_OPENED.
Proof.
  intros w e.
  destruct (@nonce_mismatch_recreates example_codes example_engine_state example_engine
              w e
              (Some 5, [EngineRebuild])
              (Some 5, [EngineRebuild; EngineGetConfiguration])
              (Some 5, [EngineRebuild; EngineGetConfiguration; EngineClose])
              (Some 7, [EngineRebuild; EngineGetConfiguration; EngineClose; EngineCreate])
              1 5 0 1 0%nat)
    as (_ & Hrounds & w3 & Hrun & Hstate & _).
  - vm_compute. discriminate.
  - vm_compute. discriminate.
  - reflexivity.
  - reflexivity.
  - reflexivity.
  - reflexivity.
  - reflexivity.
  - vm_compute. discriminate.
  - reflexivity.
  - reflexivity.
  - split; [exact Hrounds|]. exists w3. split; [exact Hrun | exact Hstate].
Defined.

(** * The scenarios of the specification, run on the example instances *)

(** Hit: a post with advice (7, 42), answered found with the same record. *)
Example scenario_hit :
  observe <$> example_run
    [CallEnqueueIndexOperation 10 1%nat UDS_POST; WorkerStep 10;
     EngineCompletes 1%nat 0 true ([Byte.x02; Byte.x07; Byte.x2a] ++ repeat Byte.x00 13)]
    (Some 7)
  = Some ([{| cb_kvio := 1%nat; cb_status := 0;
              cb_advice := Some {| pbn := 42; state := 7 |} |}],
          0, Some UR_IDLE, [], true).
Proof. vm_compute. reflexivity. Qed.

(** Miss: a query answered not found. *)
Example scenario_miss :
  observe <$> example_run
    [CallEnqueueIndexOperation 10 1%nat UDS_QUERY; WorkerStep 10;
     EngineCompletes 1%nat 0 false (repeat Byte.x00 16)]
    (Some 7)
  = Some ([{| cb_kvio := 1%nat; cb_status := 0; cb_advice := None |}],
          0, Some UR_IDLE, [], true).
Proof. vm_compute. reflexivity. Qed.

(** A request submitted at tick 0 with a time-out of 1250 ticks is still in
    flight when the timer goes off at tick 1250 and is timed out when it goes
    off at tick 1251. *)
Example scenario_timer_on_the_deadline :
  observe <$> example_run
    [CallEnqueueIndexOperation 0 1%nat UDS_POST; WorkerStep 0; TimerFires 1250]
    (Some 7)
  = Some ([], 1, Some UR_BUSY, [1%nat], true).
Proof. vm_compute. reflexivity. Qed.

Example scenario_timeout :
  observe <$> example_run
    [CallEnqueueIndexOperation 0 1%nat UDS_POST; WorkerStep 0; TimerFires 1251]
    (Some 7)
  = Some ([{| cb_kvio := 1%nat; cb_status := 110; cb_advice := None |}],
          0, Some UR_TIMED_OUT, [], true).
Proof. vm_compute. reflexivity. Qed.

(** The completion arriving after the time-out frees the context and calls
    nobody. *)
Example scenario_late_completion :
  observe <$> example_run
    [CallEnqueueIndexOperation 0 1%nat UDS_POST; WorkerStep 0; TimerFires 1251;
     EngineCompletes 1%nat 0 true ([Byte.x02; Byte.x07; Byte.x2a] ++ repeat Byte.x00 13)]
    (Some 7)
  = Some ([{| cb_kvio := 1%nat; cb_status := 110; cb_advice := None |}],
          0, Some UR_IDLE, [], true).
Proof. vm_compute. reflexivity. Qed.

(** The index made for another device: four more moves of the worker close
    it and create a new one. *)
Example scenario_nonce_mismatch :
  (fun s => (index_state (w_index (sys_world s)), sys_engine s, sys_pc s))
    <$> example_run [WorkerStep 0; WorkerStep 0; WorkerStep 0; WorkerStep 0] (Some 5)
  = Some (IS_OPENED,
          (Some 7, [EngineRebuild; EngineGetConfiguration; EngineClose; EngineCreate]),
          PcIdle).
Proof. vm_compute. reflexivity. Qed.

(** index-disable, a post, index-enable. *)
Example scenario_disable :
  observe <$> example_run
    [CallSetTargetState IS_OPENED true false false;
     CallEnqueueIndexOperation 0 1%nat UDS_POST]
    (Some 7)
  = Some ([{| cb_kvio := 1%nat; cb_status := 0; cb_advice := None |}],
          0, Some UR_IDLE, [], false).
Proof. vm_compute. reflexivity. Qed.

Example scenario_enable :
  observe <$> example_run
    [CallSetTargetState IS_OPENED true false false;
     CallSetTargetState IS_OPENED true true false;
     CallEnqueueIndexOperation 0 1%nat UDS_POST]
    (Some 7)
  = Some ([], 1, Some UR_BUSY, [], true).
Proof. vm_compute. reflexivity. Qed.

(** * The work function of the state machine: termination and failures *)

Section StateMachineAlone.
Context `{Codes : status_codes} `{Ticks : tick_conversion} `{Engine : uds_engine E}.

(** The index [set_target_state] leaves, apart from the log line. *)
Lemma w_index_set_target_state (target : index_state_t)
    (change_dedupe dedupe set_create : bool) (w : world) :
  w_index (set_target_state target change_dedupe dedupe set_create w)
  = let index := w_index w in
    let index := if change_dedupe then index{{ dedupe_flag := dedupe }} else index in
    let index := if set_create then index{{ create_flag := true }} else index in
    if changing index then index{{ index_target := target }}
    else if bool_decide (target <> index_target index) || set_create then
      index{{ index_target := target; changing := true; deduping := false;
              uds_queue ::= fun q => q ++ [WorkChangeDedupeState] }}
    else
      index{{ deduping := dedupe_flag index && bool_decide (index_state index = IS_OPENED) }}.
Proof.
  unfold set_target_state, log. cbv zeta.
  by destruct (bool_decide (index_state_to_string _ _ <> _)).
Qed.

Lemma w_kvios_set_target_state (target : index_state_t)
    (change_dedupe dedupe set_create : bool) (w : world) :
  w_kvios (set_target_state target change_dedupe dedupe set_create w) = w_kvios w.
Proof.
  unfold set_target_state, log. cbv zeta.
  by destruct (bool_decide (index_state_to_string _ _ <> _)).
Qed.

(** The three ways [open_session] can end, in terms of the state fields. *)
Lemma open_session_outcome (w : world) (e : E) :
  let index := w_index w in
  let index' := w_index (fst (open_session w e)) in
  changing index' = changing index
  /\ dedupe_flag index' = dedupe_flag index
  /\ deduping index' = deduping index
  /\ ((create_flag index = false /\ index_state index' = IS_CLOSED
       /\ create_flag index' = true /\ index_target index' = index_target index
       /\ error_flag index' = false)
      \/ (index_state index' = IS_OPENED /\ index_target index' = index_target index
          /\ error_flag index' = false
          /\ (create_flag index' = true -> create_flag index = false))
      \/ (index_state index' = IS_CLOSED /\ index_target index' = IS_CLOSED
          /\ create_flag index' = false /\ error_flag index' = true)).
Proof.
  unfold open_session, open_session_locked1, open_session_unlocked,
    open_session_locked2, open_session_log, log.
  destruct (create_flag (w_index w)) eqn:Hcf; open_world w; subst.
  all: repeat match goal with
       | |- context [udsCreateLocalIndex ?a ?b ?c ?d] =>
           destruct (udsCreateLocalIndex a b c d) as [[? ?] ?]
       | |- context [udsRebuildLocalIndex ?a ?b ?c] =>
           destruct (udsRebuildLocalIndex a b c) as [[? ?] ?]
       | |- context [udsGetIndexConfiguration ?a ?b] =>
           destruct (udsGetIndexConfiguration a b) as [[? ?] ?]
       | |- context [udsCloseIndexSession ?a ?b] =>
           destruct (udsCloseIndexSession a b) as [? ?]
       | |- context [negb (?a =? ?b)] => destruct (a =? b) eqn:?; cbn
       | |- context [(?a =? ?b) || _] => destruct (a =? b) eqn:?; cbn
       | |- context [if ?a =? ?b then _ else _] => destruct (a =? b) eqn:?; cbn
       end.
  all: cbn; repeat split; intuition congruence.
Qed.

Lemma close_session_outcome (w : world) (e : E) :
  let index := w_index w in
  let index' := w_index (fst (close_session w e)) in
  changing index' = changing index
  /\ dedupe_flag index' = dedupe_flag index
  /\ deduping index' = deduping index
  /\ index_state index' = IS_CLOSED
  /\ index_target index' = index_target index
  /\ create_flag index' = create_flag index
  /\ (error_flag index = true -> error_flag index' = true).
Proof.
  unfold close_session, close_session_locked1, close_session_unlocked,
    close_session_locked2, log.
  open_world w. destruct (udsCloseIndexSession _ _) as [result e'].
  destruct (result =? UDS_SUCCESS); cbn; repeat split; intros ->; done.
Qed.

(** One round of the loop brings the index strictly nearer to rest. *)
Lemma round_decreases (w : world) (e : E) :
  change_needed (w_index w) = true ->
  index_target (w_index w) <> IS_CHANGING ->
  let w' :=
    fst (if bool_decide (index_state (w_index w) = IS_OPENED)
         then close_session w e else open_session w e) in
  (driver_rank (w_index w') < driver_rank (w_index w))%nat
  /\ index_target (w_index w') <> IS_CHANGING
  /\ changing (w_index w') = changing (w_index w)
  /\ dedupe_flag (w_index w') = dedupe_flag (w_index w).
Proof.
  intros Hneeded Htarget. cbn zeta. case_bool_decide as Hstate.
  - destruct (close_session_outcome w e) as (Hc & Hf & _ & Hs & Ht & Hcf & _).
    revert Hneeded Htarget. unfold driver_rank, change_needed, rounds_after_open.
    rewrite Hs, Ht, Hcf, Hstate.
    destruct (create_flag (w_index w)), (index_target (w_index w));
      repeat case_bool_decide; repeat case_decide; cbn; intros; repeat split;
      first [done | congruence | lia].
  - destruct (open_session_outcome w e) as (Hc & Hf & _ & Hout).
    revert Hneeded Hstate Htarget. unfold driver_rank, change_needed, rounds_after_open.
    destruct Hout as [(Hcf & -> & -> & -> & _)|[(-> & -> & _ & Hcf)|(-> & -> & -> & _)]];
      revert Hcf || idtac;
      destruct (create_flag (w_index (fst (open_session w e)))),
        (create_flag (w_index w)), (index_state (w_index w)),
        (index_target (w_index w));
      repeat case_bool_decide; repeat case_decide; cbn; intros; repeat split;
      first [done | congruence | lia
            | match goal with H : true = true -> _ |- _ => by specialize (H eq_refl) end].
Qed.

Lemma change_dedupe_loop_terminates (fuel : nat) :
  forall (w : world) (e : E),
    index_target (w_index w) <> IS_CHANGING ->
    (driver_rank (w_index w) <= fuel)%nat ->
    exists w' e',
      change_dedupe_loop fuel w e = Some (w', e')
      /\ change_needed (w_index w') = false
      /\ dedupe_flag (w_index w') = dedupe_flag (w_index w)
      /\ (length (change_dedupe_rounds fuel w e) <= driver_rank (w_index w))%nat.
Proof.
  induction fuel as [|fuel IH]; intros w e Htarget Hrank;
    cbn [change_dedupe_loop change_dedupe_rounds];
    destruct (change_needed (w_index w)) eqn:Hneeded;
    try (exists w, e; repeat split; cbn; [done|lia]).
  - unfold driver_rank in Hrank. rewrite Hneeded in Hrank.
    destruct (index_state (w_index w)), (create_flag (w_index w)); cbn in Hrank; lia.
  - pose proof (round_decreases w e Hneeded Htarget) as Hround. cbn zeta in Hround.
    destruct (bool_decide (index_state (w_index w) = IS_OPENED)).
    + destruct (close_session w e) as [w1 e1]. cbn [fst] in Hround.
      destruct Hround as (Hlt & Ht1 & _ & Hf1).
      destruct (IH w1 e1 Ht1 ltac:(lia)) as (w' & e' & -> & Hdone & Hf & Hlen).
      exists w', e'. repeat split; [done|congruence|cbn [length]; lia].
    + destruct (open_session w e) as [w1 e1]. cbn [fst] in Hround.
      destruct Hround as (Hlt & Ht1 & _ & Hf1).
      destruct (IH w1 e1 Ht1 ltac:(lia)) as (w' & e' & -> & Hdone & Hf & Hlen).
      exists w', e'. repeat split; [done|congruence|cbn [length]; lia].
Qed.

Lemma driver_rank_bound (index : dedupe_index) : (driver_rank index <= 4)%nat.
Proof.
  unfold driver_rank, rounds_after_open.
  destruct (change_needed index), (index_state index), (create_flag index);
    try case_decide; lia.
Qed.

(** X1.  The work function of [change_dedupe_state], run without a call of
    [set_target_state] in between and with a target of CLOSED or OPENED,
    always ends, whatever the engine answers to the calls made on it: four
    rounds of its loop are enough.  It leaves no change in progress, the
    index in its target state, [create_flag] clear and [deduping] equal to
    [dedupe_flag] and [index_state] = OPENED; it does not touch
    [dedupe_flag]. *)
Theorem change_dedupe_state_terminates (fuel : nat) (w : world) (e : E) :
  index_target (w_index w) <> IS_CHANGING ->
  (4 <= fuel)%nat ->
  exists w' e',
    change_dedupe_state fuel w e = Some (w', e')
    /\ changing (w_index w') = false
    /\ index_state (w_index w') = index_target (w_index w')
    /\ create_flag (w_index w') = false
    /\ deduping (w_index w')
       = dedupe_flag (w_index w') && bool_decide (index_state (w_index w') = IS_OPENED)
    /\ dedupe_flag (w_index w') = dedupe_flag (w_index w)
    /\ (length (change_dedupe_rounds fuel w e) <= 4)%nat.
Proof.
  intros Htarget Hfuel.
  pose proof (driver_rank_bound (w_index w)) as Hbound.
  destruct (change_dedupe_loop_terminates fuel w e Htarget ltac:(lia))
    as (w' & e' & Hloop & Hdone & Hflag & Hlen).
  exists (change_done w'), e'. unfold change_dedupe_state. rewrite Hloop.
  split; [done|]. revert Hdone Hflag. unfold change_needed, change_done.
  intros [Hstate Hcf]%orb_false_elim Hflag.
  apply bool_decide_eq_false in Hstate. apply dec_stable in Hstate.
  open_world w'. repeat split; try done. lia.
Qed.

(** [open_session] on a failure that allows no retry. *)
Lemma open_session_fails (w : world) (e e' : E) (result session' : Z) :
  result <> UDS_SUCCESS ->
  (create_flag (w_index w) = true
   /\ udsCreateLocalIndex (index_name (w_index w)) (configuration (w_index w))
        (index_session (w_index w)) e = (result, session', e'))
  \/ (create_flag (w_index w) = false
      /\ result <> UDS_CORRUPT_COMPONENT /\ result <> UDS_NO_INDEX
      /\ udsRebuildLocalIndex (index_name (w_index w)) (index_session (w_index w)) e
         = (result, session', e')) ->
  exists w',
    open_session w e = (w', e')
    /\ w_index w'
       = (w_index w){{ create_flag := false; index_state := IS_CLOSED;
                       index_target := IS_CLOSED; error_flag := true;
                       index_session := session' }}
    /\ w_log w'
       = w_log w
         ++ [LogEngineError (if create_flag (w_index w) then "Error creating index"
                             else "Error opening index") result;
             LogTargetStateError].
Proof.
  intros Hfailed Hcall.
  unfold open_session, open_session_locked1, open_session_unlocked,
    open_session_locked2, open_session_log, log.
  apply Z.eqb_neq in Hfailed.
  destruct Hcall as [[Hflag Hcall]|(Hflag & Hcorrupt%Z.eqb_neq & Hnoindex%Z.eqb_neq & Hcall)];
    open_world w; subst; rewrite Hcall;
    repeat (rewrite ?Hfailed, ?Hcorrupt, ?Hnoindex; cbn);
    (eexists; split; [reflexivity|]; split; [reflexivity|]; cbn;
     by rewrite <- app_assoc).
Qed.

(** X2.  An open that fails for good ends the change.  When the index is not
    open and a creation fails, or a rebuild fails with a status other than
    CORRUPT_COMPONENT and NO_INDEX, the work function of
    [change_dedupe_state] makes no further attempt: after that single round
    it ends with [index_state] CLOSED, the target forced to CLOSED,
    [error_flag] set, [create_flag] clear, [deduping] off and no change in
    progress, having logged the engine's error and the change of the target
    state. *)
Theorem open_failure_gives_up (w : world) (e e' : E) (result session' : Z)
    (fuel : nat) :
  index_state (w_index w) <> IS_OPENED ->
  change_needed (w_index w) = true ->
  result <> UDS_SUCCESS ->
  (create_flag (w_index w) = true
   /\ udsCreateLocalIndex (index_name (w_index w)) (configuration (w_index w))
        (index_session (w_index w)) e = (result, session', e'))
  \/ (create_flag (w_index w) = false
      /\ result <> UDS_CORRUPT_COMPONENT /\ result <> UDS_NO_INDEX
      /\ udsRebuildLocalIndex (index_name (w_index w)) (index_session (w_index w)) e
         = (result, session', e')) ->
  change_dedupe_rounds (S fuel) w e = [RoundOpen (create_flag (w_index w))]
  /\ exists w',
      change_dedupe_state (S fuel) w e = Some (w', e')
      /\ w_index w'
         = (w_index w){{ create_flag := false; index_state := IS_CLOSED;
                         index_target := IS_CLOSED; error_flag := true;
                         index_session := session'; changing := false;
                         deduping := false }}
      /\ w_log w'
         = w_log w
           ++ [LogEngineError (if create_flag (w_index w) then "Error creating index"
                               else "Error opening index") result;
               LogTargetStateError].
Proof.
  intros Hstate Hneeded Hfailed Hcall.
  destruct (open_session_fails w e e' result session' Hfailed Hcall)
    as (w1 & Hopen & Hindex & Hlog).
  destruct (change_dedupe_loop_open fuel w w1 e e' Hneeded Hstate Hopen)
    as [Hloop Hrounds].
  destruct (change_dedupe_loop_done fuel w1 e') as [Hloop1 Hrounds1].
  { rewrite Hindex. unfold change_needed. by destruct (w_index w). }
  split; [by rewrite Hrounds, Hrounds1|].
  exists (change_done w1). unfold change_dedupe_state. rewrite Hloop, Hloop1.
  split; [done|]. unfold change_done.
  destruct w1 as [index1 ? ? ? ? ? ?]. cbn in Hindex, Hlog. subst index1.
  split; [|done]. destruct (w_index w); cbn. by rewrite andb_false_r.
Qed.

(** X3.  Closing an open index takes one round and always ends CLOSED.  With
    the index OPENED, the target CLOSED and no creation asked for, the work
    function of [change_dedupe_state] calls the engine's close once and ends
    with [index_state] CLOSED, [deduping] off and no change in progress,
    whatever the engine returns; a status other than success is only
    recorded, in [error_flag] and in the log. *)
Theorem close_failure_still_closes (w : world) (e e' : E) (result : Z) (fuel : nat) :
  index_state (w_index w) = IS_OPENED ->
  index_target (w_index w) = IS_CLOSED ->
  create_flag (w_index w) = false ->
  udsCloseIndexSession (index_session (w_index w)) e = (result, e') ->
  change_dedupe_rounds (S fuel) w e = [RoundClose]
  /\ exists w',
      change_dedupe_state (S fuel) w e = Some (w', e')
      /\ w_index w'
         = (w_index w){{ index_state := IS_CLOSED;
                         error_flag ::= fun f => f || negb (result =? UDS_SUCCESS);
                         changing := false; deduping := false }}
      /\ w_log w'
         = w_log w
           ++ (if result =? UDS_SUCCESS then []
               else [LogEngineError "Error closing index" result]).
Proof.
  intros Hstate Htarget Hflag Hclose.
  assert (Hneeded : change_needed (w_index w) = true).
  { unfold change_needed. rewrite Hstate, Htarget. by rewrite bool_decide_eq_true_2. }
  assert (Hsession : exists w1,
             close_session w e = (w1, e')
             /\ w_index w1
                = (w_index w){{ index_state := IS_CLOSED;
                                error_flag ::= fun f => f || negb (result =? UDS_SUCCESS) }}
             /\ w_log w1
                = w_log w ++ (if result =? UDS_SUCCESS then []
                              else [LogEngineError "Error closing index" result])).
  { unfold close_session, close_session_locked1, close_session_unlocked,
      close_session_locked2, log.
    open_world w. rewrite Hclose.
    destruct (result =? UDS_SUCCESS); cbn; rewrite ?app_nil_r; eauto. }
  destruct Hsession as (w1 & Hclosed & Hindex & Hlog).
  destruct (change_dedupe_loop_close fuel w w1 e e' Hneeded Hstate Hclosed)
    as [Hloop Hrounds].
  destruct (change_dedupe_loop_done fuel w1 e') as [Hloop1 Hrounds1].
  { rewrite Hindex. unfold change_needed. destruct (w_index w); cbn in *. subst.
    by rewrite bool_decide_eq_false_2 by (intros Hne; by apply Hne). }
  split; [by rewrite Hrounds, Hrounds1|].
  exists (change_done w1). unfold change_dedupe_state. rewrite Hloop, Hloop1.
  split; [done|]. unfold change_done.
  destruct w1 as [index1 ? ? ? ? ? ?]. cbn in Hindex, Hlog. subst index1.
  split; [|done]. destruct (w_index w); cbn. by rewrite andb_false_r.
Qed.
End StateMachineAlone.

Section StateMachineSettled.
Context `{Codes : status_codes} `{Ticks : tick_conversion} `{Engine : uds_engine E}.

(** *** The dispatcher and the timer leave the target fields alone *)

Lemma target_view_enqueue_index_operation (jiffies : Z) (k : nat)
    (operation : UdsCallbackType) (w : world) :
  target_view (w_index (enqueue_index_operation jiffies k operation w))
  = target_view (w_index w).
Proof.
  unfold enqueue_index_operation.
  destruct (w_kvios w !! k) as [context|]; [|done].
  destruct (compareAndSwap32 _ _ _) as [rs [|]];
    [|by rewrite w_index_invoke_dedupe_callback].
  destruct (deduping (w_index w)) eqn:Hon;
    [|by rewrite w_index_invoke_dedupe_callback].
  open_world w. by destruct (_ <? _).
Qed.

Lemma target_view_finish_index_operation (k : nat) (w : world) :
  target_view (w_index (finish_index_operation k w)) = target_view (w_index w).
Proof.
  unfold finish_index_operation, invoke_dedupe_callback.
  destruct (w_kvios w !! k) as [context|] eqn:Hctx; [|done].
  destruct (compareAndSwap32 _ _ _) as [rs [|]].
  - destruct (is_pending _), (_ || _); try destruct (decode_uds_advice _);
      open_world w; rewrite lookup_insert_eq; done.
  - destruct (compareAndSwap32 _ _ _). by open_world w.
Qed.

Lemma target_view_engine_completes (k : nat) (result : Z) (found0 : bool)
    (metadata : list byte) (w : world) :
  target_view (w_index (engine_completes k result found0 metadata w))
  = target_view (w_index w).
Proof.
  unfold engine_completes. destruct (w_kvios w !! k) as [context|]; [|done].
  by rewrite target_view_finish_index_operation.
Qed.

Lemma target_view_start_expiration_timer (t : albireo_timers) (jiffies : Z)
    (context : dedupe_context) (index : dedupe_index) :
  target_view (start_expiration_timer t jiffies context index) = target_view index.
Proof. unfold start_expiration_timer. by destruct index as [? ? ? ? ? ? ? ? ? ? ? ? ? ? ? ? []]. Qed.

Lemma target_view_start_index_operation (jiffies : Z) (k : nat) (w : world) (e : E) :
  target_view (w_index (fst (start_index_operation jiffies k w e)))
  = target_view (w_index w).
Proof.
  unfold start_index_operation.
  destruct (w_kvios w !! k) as [context|]; [|done].
  destruct (udsStartChunkOperation _ _) as [status0 e'].
  destruct (negb _); cbn [fst]; rewrite ?target_view_finish_index_operation;
    cbn; rewrite target_view_start_expiration_timer; by open_world w.
Qed.

Lemma target_view_collect_expired (t : albireo_timers) (jiffies earliest : Z)
    (pending : list nat) :
  forall (index : dedupe_index) (kvios : gmap nat dedupe_context) (expiredHead : list nat),
    target_view (fst (fst (collect_expired t jiffies earliest pending index kvios expiredHead)))
    = target_view index.
Proof.
  induction pending as [|k rest IH]; intros index kvios expiredHead;
    cbn [collect_expired]; [by destruct index|].
  destruct (kvios !! k) as [context|]; [|by destruct index].
  destruct (_ <=? _); [|apply IH].
  cbn [fst]. rewrite target_view_start_expiration_timer. by destruct index.
Qed.

Lemma target_view_timeout_one (jiffies : Z) (w : world) (k : nat) :
  target_view (w_index (timeout_one jiffies w k)) = target_view (w_index w).
Proof.
  unfold timeout_one, report_dedupe_timeout, invoke_dedupe_callback.
  destruct (w_kvios w !! k) as [context|]; [|done].
  destruct (compareAndSwap32 _ _ _) as [rs [|]]; [|done].
  open_world w. rewrite lookup_insert_eq. cbn. by destruct (_ =? 0).
Qed.

Lemma target_view_timeout_index_operations (jiffies : Z) (w : world) :
  target_view (w_index (timeout_index_operations jiffies w)) = target_view (w_index w).
Proof.
  unfold timeout_index_operations.
  destruct (collect_expired _ _ _ _ _ _ _) as [[index kvios] expiredHead] eqn:Hcollect.
  assert (Hindex : target_view index = target_view (w_index w)).
  { pose proof (target_view_collect_expired (w_timers w) jiffies
      (ulong (jiffies - uint64 (msecs_to_jiffies (albireo_timeout_interval (w_timers w)))))
      (pending_head (w_index w){{ started_timer := false }})
      ((w_index w){{ started_timer := false }}) (w_kvios w) []) as Hview.
    rewrite Hcollect in Hview. cbn [fst] in Hview. rewrite Hview. by open_world w. }
  set (w0 := w{{ w_index := index; w_kvios := kvios }}).
  assert (Hw0 : target_view (w_index w0) = target_view (w_index w)) by done.
  clearbody w0. clear Hcollect. revert w0 Hw0.
  induction expiredHead as [|k rest IH]; intros w0 Hw0; cbn [fold_left]; [done|].
  apply IH. by rewrite target_view_timeout_one.
Qed.

Lemma target_view_open_session_unlocked (create_flag0 : bool) (w : world) (e : E) :
  target_view (w_index (snd (fst (open_session_unlocked create_flag0 w e))))
  = target_view (w_index w).
Proof.
  unfold open_session_unlocked, log.
  repeat (case_match; cbn [fst snd]); by open_world w.
Qed.

Lemma target_view_close_session_unlocked (w : world) (e : E) :
  target_view (w_index (snd (fst (close_session_unlocked w e))))
  = target_view (w_index w).
Proof.
  unfold close_session_unlocked, log.
  repeat (case_match; cbn [fst snd]); by open_world w.
Qed.

(** *** The index is at rest whenever no change is in progress *)

Lemma session_invariant_views (s s' : system E) :
  state_view (w_index (sys_world s')) = state_view (w_index (sys_world s)) ->
  target_view (w_index (sys_world s')) = target_view (w_index (sys_world s)) ->
  (forall index, state_at (sys_pc s) index -> state_at (sys_pc s') index) ->
  session_invariant s -> session_invariant s'.
Proof.
  unfold session_invariant, settled, state_view, target_view.
  intros [= Hd Hf Hs Hc _] [= Ht Hcf He] Hpc (Hrest & Herror & Hat).
  rewrite Hd, Hf, Hs, Hc, Ht, Hcf, He. repeat split; try tauto.
  apply Hpc in Hat. revert Hat. unfold state_at. by rewrite Hs.
Qed.

Lemma open_session_locked2_session (create_flag0 next_create_flag : bool)
    (result : Z) (w : world) :
  changing (w_index w) = true ->
  error_flag (w_index w) = false ->
  let '(w', logging) := open_session_locked2 create_flag0 next_create_flag result w in
  changing (w_index w') = true
  /\ index_state (w_index w') <> IS_CHANGING
  /\ (error_flag (w_index w') = true -> index_state (w_index w') = IS_CLOSED)
  /\ (logging = true -> index_state (w_index w') = IS_CLOSED).
Proof.
  unfold open_session_locked2. intros Hchanging Herror.
  destruct next_create_flag, create_flag0, (result =? UDS_CORRUPT_COMPONENT),
    (result =? UDS_NO_INDEX), (result =? UDS_SUCCESS); open_world w; subst;
    repeat split; done.
Qed.

Lemma set_target_state_session_invariant (target : index_state_t)
    (change_dedupe dedupe set_create : bool) (s : system E) :
  session_invariant s ->
  session_invariant (with_world (set_target_state target change_dedupe dedupe set_create) s).
Proof.
  destruct s as [w e pc]. unfold session_invariant, settled, state_at, with_world.
  cbn [sys_world sys_pc]. rewrite w_index_set_target_state. cbv zeta.
  destruct (w_index w) as [? ? ? ? ? ? ? st tg ch cf df dd ef ? ? ?]. cbn.
  intros (Hrest & Herror & Hpc).
  destruct change_dedupe, set_create, ch; cbn in *;
    repeat case_bool_decide; cbn; (split; [|split; [done|by destruct pc]]);
    intros; try done; destruct (Hrest eq_refl) as (? & ? & ?); subst;
    repeat split; try done; congruence.
Qed.

Lemma driver_resume_session_invariant (w : world) (e : E) :
  changing (w_index w) = true ->
  index_state (w_index w) <> IS_CHANGING ->
  (error_flag (w_index w) = true -> index_state (w_index w) = IS_CLOSED) ->
  session_invariant (driver_resume w e).
Proof.
  intros Hchanging Hstate Herror.
  unfold driver_resume, session_invariant, settled, state_at.
  destruct (change_needed (w_index w)) eqn:Hneeded.
  - destruct (bool_decide (index_state (w_index w) = IS_OPENED)) eqn:Hopen.
    + apply bool_decide_eq_true in Hopen.
      unfold close_session_locked1. open_world w. subst.
      repeat split; try done. intros ->. by specialize (Herror eq_refl).
    + unfold open_session_locked1. open_world w. subst. repeat split; done.
  - unfold change_needed in Hneeded. apply orb_false_elim in Hneeded as [Hne Hcf].
    apply bool_decide_eq_false in Hne. apply dec_stable in Hne.
    unfold change_done. open_world w. by subst.
Qed.

Lemma perform_session_invariant (a : action) (s s' : system E) :
  system_invariant s -> session_invariant s -> perform a s = Some s' ->
  session_invariant s'.
Proof.
  intros Hsys Hinv.
  destruct a as [target cd d sc|jiffies k op|jiffies|jiffies|k r f m]; cbn [perform].
  - intros [= <-]. by apply set_target_state_session_invariant.
  - intros [= <-]. apply (session_invariant_views s); [| |done|done].
    + apply state_view_enqueue_index_operation.
    + apply target_view_enqueue_index_operation.
  - unfold worker_step.
    pose proof Hinv as (Hrest & Herror & Hpc).
    destruct (sys_pc s) as [|cf|cf ncf result| | |result] eqn:Hpceq.
    + destruct (uds_queue (w_index (sys_world s))) as [|[k|] rest] eqn:Hqueue; [done|..].
      * destruct (start_index_operation _ _ _ _) as [w e] eqn:Hstart.
        intros [= <-]. apply (session_invariant_views s);
          [| |by rewrite Hpceq|done].
        -- cbn [sys_world].
           pose proof (state_view_start_index_operation jiffies k
                         ((sys_world s){{ w_index -> uds_queue := rest }}) (sys_engine s)) as Hview.
           rewrite Hstart in Hview. cbn [fst] in Hview. rewrite Hview.
           destruct s as [w0 e0 pc0]. cbn [sys_world] in *. open_world w0. by subst.
        -- cbn [sys_world].
           pose proof (target_view_start_index_operation jiffies k
                         ((sys_world s){{ w_index -> uds_queue := rest }}) (sys_engine s)) as Hview.
           rewrite Hstart in Hview. cbn [fst] in Hview. rewrite Hview.
           destruct s as [w0 e0 pc0]. cbn [sys_world] in *. by open_world w0.
      * intros [= <-].
        destruct Hsys as (_ & _ & Hcount). rewrite Hpceq, Hqueue in Hcount.
        assert (Hc : changing (w_index (sys_world s)) = true).
        { destruct (changing _); [done|].
          unfold change_items in Hcount. cbn in Hcount. lia. }
        cbn in Hpc.
        apply driver_resume_session_invariant;
          destruct s as [w0 e0 pc0]; cbn [sys_world] in *; by open_world w0.
    + pose proof (state_view_open_session_unlocked cf (sys_world s) (sys_engine s)) as Hview.
      pose proof (target_view_open_session_unlocked cf (sys_world s) (sys_engine s)) as Htview.
      destruct (open_session_unlocked _ _ _) as [[[r n] w] e]. cbn [fst snd] in Hview, Htview.
      intros [= <-]. apply (session_invariant_views s); [done|done| |done].
      by rewrite Hpceq.
    + pose proof (mid_change_of_invariant s Hsys) as Hmid. rewrite Hpceq in Hmid.
      destruct (Hmid ltac:(done)) as (Hchanging & _).
      assert (Hnoerror : error_flag (w_index (sys_world s)) = false).
      { destruct (error_flag _); [|done]. cbn in Hpc. rewrite Hpc in Herror.
        by specialize (Herror eq_refl). }
      pose proof (open_session_locked2_session cf ncf result (sys_world s)
                    Hchanging Hnoerror) as Hnext.
      destruct (open_session_locked2 _ _ _ _) as [w [|]];
        destruct Hnext as (Hc & Hs & He & Hl); intros [= <-].
      * unfold session_invariant, state_at. cbn [sys_world sys_pc]. cbn zeta.
        split; [intros ?; congruence|]. split; [exact He|by apply Hl].
      * by apply driver_resume_session_invariant.
    + pose proof (mid_change_of_invariant s Hsys) as Hmid. rewrite Hpceq in Hmid.
      destruct (Hmid ltac:(done)) as (Hchanging & _). cbn in Hpc.
      intros [= <-]. apply driver_resume_session_invariant;
        unfold open_session_log, log; destruct (sys_world s) as [index ? ? ? ? ? ?];
        cbn in *; [done|by rewrite Hpc|done].
    + pose proof (state_view_close_session_unlocked (sys_world s) (sys_engine s)) as Hview.
      pose proof (target_view_close_session_unlocked (sys_world s) (sys_engine s)) as Htview.
      destruct (close_session_unlocked _ _) as [[r w] e]. cbn [fst snd] in Hview, Htview.
      intros [= <-]. apply (session_invariant_views s); [done|done| |done].
      by rewrite Hpceq.
    + pose proof (mid_change_of_invariant s Hsys) as Hmid. rewrite Hpceq in Hmid.
      destruct (Hmid ltac:(done)) as (Hchanging & _).
      intros [= <-]. apply driver_resume_session_invariant;
        unfold close_session_locked2; destruct (sys_world s) as [index ? ? ? ? ? ?];
        destruct index; cbn in *; done.
  - intros [= <-]. apply (session_invariant_views s); [| |done|done].
    + apply state_view_timeout_index_operations.
    + apply target_view_timeout_index_operations.
  - intros [= <-]. apply (session_invariant_views s); [| |done|done].
    + apply state_view_engine_completes.
    + apply target_view_engine_completes.
Qed.

Lemma initial_session_invariant (s : system E) : initial s -> session_invariant s.
Proof.
  intros [(name & config & Hindex) Hpc].
  unfold session_invariant, settled, state_at. rewrite Hindex, Hpc. by cbn.
Qed.

Lemma reachable_session_invariant (s : system E) :
  reachable s -> session_invariant s.
Proof.
  induction 1 as [s Hinit|a s s' Hreach IH Hperform].
  - by apply initial_session_invariant.
  - apply (perform_session_invariant a s); [by apply reachable_invariant|done|done].
Qed.

(** X4.  In every state reachable from a freshly made index in which the
    state lock is free: when no change is in progress the index is at rest,
    that is, [index_state] equals the target, [create_flag] is clear and
    [deduping] equals [dedupe_flag] and [index_state] = OPENED;
    [error_flag] is only ever set on a CLOSED index; and [index_state] is
    CHANGING exactly while the worker is between the two locked parts of
    [open_session] or [close_session], so never while it is idle. *)
Theorem index_at_rest (s : system E) :
  reachable s ->
  let index := w_index (sys_world s) in
  (changing index = false ->
   index_state index = index_target index
   /\ create_flag index = false
   /\ deduping index = dedupe_flag index && bool_decide (index_state index = IS_OPENED))
  /\ (error_flag index = true -> index_state index = IS_CLOSED)
  /\ (index_state index = IS_CHANGING -> changing index = true)
  /\ (index_state index = IS_CHANGING <-> sys_pc s <> PcIdle /\ sys_pc s <> PcOpenLog).
Proof.
  intros Hreach index. subst index.
  destruct (reachable_session_invariant s Hreach) as (Hrest & Herror & Hat).
  pose proof (mid_change_of_invariant s (reachable_invariant s Hreach)) as Hmid.
  split; [done|]. split; [done|].
  unfold state_at in Hat. split.
  - intros Hstate. destruct (sys_pc s); try (by apply Hmid); congruence.
  - destruct (sys_pc s); split; try done; try (intros [? ?]; done); congruence.
Qed.
End StateMachineSettled.

(** * The life cycle of a request and the count of those in flight *)

Lemma sint32_add_l (n m : Z) : sint32 (sint32 n + m) = sint32 (n + m).
Proof.
  unfold sint32. f_equal.
  replace ((n + 2 ^ 31) mod 2 ^ 32 - 2 ^ 31 + m + 2 ^ 31)
    with ((n + 2 ^ 31) mod 2 ^ 32 + m) by lia.
  rewrite Zplus_mod_idemp_l. f_equal. lia.
Qed.

Ltac cas_step :=
  repeat first [rewrite compareAndSwap32_hit by done
               |rewrite compareAndSwap32_miss by done]; cbn.

Ltac close_step :=
  eexists; split; [reflexivity|]; cbn; split;
  [ done
  | intros n Hn; unfold busy_delta, atomic_inc, atomic_dec; cbn;
    rewrite ?Hn, ?sint32_add_l, ?sint32_sint32_sub;
    repeat case_bool_decide; try congruence; cbn [Z.b2z]; f_equal; lia ].

Section Lifecycle.
Context `{Codes : status_codes} `{Ticks : tick_conversion} `{Engine : uds_engine E}.

Lemma busy_count_insert (kvios : gmap nat dedupe_context) (k : nat)
    (context context' : dedupe_context) :
  kvios !! k = Some context ->
  Z.of_nat (busy_count (<[k := context']> kvios))
  = Z.of_nat (busy_count kvios) + busy_delta context context'.
Proof.
  intros Hctx. unfold busy_count, busy_delta.
  set (P := fun entry : nat * dedupe_context => request_state entry.2 = UR_BUSY).
  assert (Hin : filter P kvios !! k
                = if bool_decide (request_state context = UR_BUSY)
                  then Some context else None).
  { case_bool_decide as Hbusy.
    - by apply map_lookup_filter_Some.
    - apply eq_None_not_Some. intros [c [Hc Hp]%map_lookup_filter_Some].
      unfold P in Hp. cbn in Hp. congruence. }
  rewrite map_filter_insert. cbn [snd].
  destruct (decide (P (k, context'))) as [Hnew|Hnew]; unfold P in Hnew; cbn in Hnew.
  - rewrite map_size_insert, Hin. rewrite (bool_decide_eq_true_2 _ Hnew).
    case_bool_decide; cbn; lia.
  - rewrite map_filter_delete, map_size_delete, Hin.
    rewrite (bool_decide_eq_false_2 _ Hnew).
    case_bool_decide as Hbusy; cbn; [|lia].
    assert (size (filter P kvios) <> 0)%nat; [|lia].
    apply map_size_ne_0_lookup_2 with k. rewrite Hin. eauto.
Qed.

Lemma busy_delta_same (context context' : dedupe_context) :
  request_state context' = request_state context -> busy_delta context context' = 0.
Proof. unfold busy_delta. intros ->. lia. Qed.

Lemma enqueue_index_operation_step (jiffies : Z) (k : nat) (operation : UdsCallbackType)
    (w : world) :
  request_step allowed_edge k w (enqueue_index_operation jiffies k operation w).
Proof.
  unfold request_step, enqueue_index_operation, invoke_dedupe_callback.
  destruct (w_kvios w !! k) as [context|] eqn:Hctx; [|done].
  destruct (deduping (w_index w)); open_world w;
    destruct context as [[ | | ] ? ? ? ? ? ? ?]; cbn; cas_step;
    rewrite ?lookup_insert_eq; try destruct (_ <? _); close_step.
Qed.

Lemma finish_index_operation_step (k : nat) (w : world) :
  request_step allowed_edge k w (finish_index_operation k w).
Proof.
  unfold request_step, finish_index_operation, invoke_dedupe_callback.
  destruct (w_kvios w !! k) as [context|] eqn:Hctx; [|done].
  open_world w. destruct context as [[ | | ] [|] ? ? ? ? ? ?]; cbn; cas_step;
    repeat match goal with
    | |- context [decode_uds_advice ?r] => destruct (decode_uds_advice r)
    | |- context [bool_decide ?P || _] => destruct (bool_decide P); cbn
    | |- context [if bool_decide ?P then _ else _] => destruct (bool_decide P); cbn
    end;
    rewrite ?lookup_insert_eq; close_step.
Qed.

Lemma request_step_prepare (edge : request_state_t -> request_state_t -> bool)
    (k : nat) (w w1 w2 : world) (context context1 : dedupe_context) :
  w_kvios w !! k = Some context ->
  w_kvios w1 = <[k := context1]> (w_kvios w) ->
  request_state context1 = request_state context ->
  active (w_index w1) = active (w_index w) ->
  request_step edge k w1 w2 -> request_step edge k w w2.
Proof.
  unfold request_step. intros Hctx Hkvios Hstate Hactive.
  rewrite Hctx, Hkvios, lookup_insert_eq, Hactive.
  intros (context' & -> & Hedge & Hcount). exists context'.
  rewrite insert_insert_eq. unfold busy_delta in *. rewrite Hstate in Hedge, Hcount.
  done.
Qed.

Lemma request_step_refl (edge : request_state_t -> request_state_t -> bool)
    (k : nat) (w w' : world) (context context' : dedupe_context) :
  (forall a, edge a a = true) ->
  w_kvios w !! k = Some context ->
  w_kvios w' = <[k := context']> (w_kvios w) ->
  request_state context' = request_state context ->
  active (w_index w') = active (w_index w) ->
  request_step edge k w w'.
Proof.
  unfold request_step. intros Hrefl Hctx Hkvios Hstate Hactive. rewrite Hctx.
  exists context'. split; [done|]. rewrite Hstate. split; [done|].
  intros n Hn. rewrite busy_delta_same by done. by rewrite Z.add_0_r, Hactive.
Qed.

Lemma engine_completes_step (k : nat) (result : Z) (found0 : bool)
    (metadata : list byte) (w : world) :
  request_step allowed_edge k w (engine_completes k result found0 metadata w).
Proof.
  unfold engine_completes.
  destruct (w_kvios w !! k) as [context|] eqn:Hctx.
  - eapply request_step_prepare; [done| | | |apply finish_index_operation_step];
      [reflexivity|by destruct context|by destruct w].
  - unfold request_step. by rewrite Hctx.
Qed.

Lemma start_index_operation_step (jiffies : Z) (k : nat) (w : world) (e : E) :
  request_step allowed_edge k w (fst (start_index_operation jiffies k w e)).
Proof.
  unfold start_index_operation.
  destruct (w_kvios w !! k) as [context|] eqn:Hctx.
  - destruct (udsStartChunkOperation _ _) as [status0 e'].
    destruct (negb _); cbn [fst].
    + eapply request_step_prepare; [done| | | |apply finish_index_operation_step].
      * cbn. rewrite insert_insert_eq. reflexivity.
      * by destruct context.
      * unfold start_expiration_timer. destruct w as [index ? ? ? ? ? ?]. cbn.
        by destruct index as [? ? ? ? ? ? ? ? ? ? ? ? ? ? ? ? []].
    + eapply request_step_refl; [by intros []|done|reflexivity|by destruct context|].
      unfold start_expiration_timer. destruct w as [index ? ? ? ? ? ?]. cbn.
      by destruct index as [? ? ? ? ? ? ? ? ? ? ? ? ? ? ? ? []].
  - unfold request_step. by rewrite Hctx.
Qed.

Lemma timeout_one_step (jiffies : Z) (w : world) (k : nat) :
  request_step timeout_edge k w (timeout_one jiffies w k).
Proof.
  unfold timeout_one.
  destruct (w_kvios w !! k) as [context|] eqn:Hctx;
    [|unfold request_step; by rewrite Hctx].
  destruct (decide (request_state context = UR_BUSY)) as [Hbusy|Hbusy].
  - rewrite compareAndSwap32_hit by done.
    unfold request_step, report_dedupe_timeout, invoke_dedupe_callback. rewrite Hctx.
    open_world w. destruct context as [rs ? ? ? ? ? ? ?]; cbn in *. subst rs.
    rewrite lookup_insert_eq; cbn; destruct (_ =? 0); close_step.
  - rewrite compareAndSwap32_miss by done.
    eapply (request_step_refl _ _ _ _ context context);
      [by intros []|done|by rewrite insert_id|done|done].
Qed.

Lemma lifecycle_refl (edge : request_state_t -> request_state_t -> bool)
    (kvios : gmap nat dedupe_context) :
  (forall a, edge a a = true) -> lifecycle edge kvios kvios.
Proof. intros Hrefl k. destruct (kvios !! k); [apply Hrefl|done]. Qed.

Lemma lifecycle_trans (edge : request_state_t -> request_state_t -> bool)
    (kvios1 kvios2 kvios3 : gmap nat dedupe_context) :
  (forall a b c, edge a b = true -> edge b c = true -> edge a c = true) ->
  lifecycle edge kvios1 kvios2 -> lifecycle edge kvios2 kvios3 ->
  lifecycle edge kvios1 kvios3.
Proof.
  intros Htrans H12 H23 k. specialize (H12 k). specialize (H23 k).
  destruct (kvios1 !! k), (kvios2 !! k), (kvios3 !! k); try done.
  by eapply Htrans.
Qed.

Lemma lifecycle_weaken (edge edge' : request_state_t -> request_state_t -> bool)
    (kvios kvios' : gmap nat dedupe_context) :
  (forall a b, edge a b = true -> edge' a b = true) ->
  lifecycle edge kvios kvios' -> lifecycle edge' kvios kvios'.
Proof.
  intros Hweaken Hcycle k. specialize (Hcycle k).
  destruct (kvios !! k), (kvios' !! k); try done. by apply Hweaken.
Qed.

Lemma timeout_edge_refl (a : request_state_t) : timeout_edge a a = true.
Proof. by destruct a. Qed.

Lemma timeout_edge_trans (a b c : request_state_t) :
  timeout_edge a b = true -> timeout_edge b c = true -> timeout_edge a c = true.
Proof. by destruct a, b, c. Qed.

Lemma timeout_edge_allowed (a b : request_state_t) :
  timeout_edge a b = true -> allowed_edge a b = true.
Proof. by destruct a, b. Qed.

Lemma request_step_lifecycle (edge : request_state_t -> request_state_t -> bool)
    (k : nat) (w w' : world) :
  (forall a, edge a a = true) ->
  request_step edge k w w' -> lifecycle edge (w_kvios w) (w_kvios w').
Proof.
  unfold request_step, lifecycle. intros Hrefl Hstep k'.
  destruct (w_kvios w !! k) as [context|] eqn:Hctx.
  - destruct Hstep as (context' & -> & Hedge & _).
    destruct (decide (k' = k)) as [->|Hne].
    + by rewrite Hctx, lookup_insert_eq.
    + rewrite lookup_insert_ne by done. destruct (w_kvios w !! k'); [apply Hrefl|done].
  - destruct Hstep as [-> _]. destruct (w_kvios w !! k'); [apply Hrefl|done].
Qed.

Lemma request_step_active_sound (edge : request_state_t -> request_state_t -> bool)
    (k : nat) (w w' : world) :
  request_step edge k w w' -> active_sound w -> active_sound w'.
Proof.
  unfold request_step, active_sound. destruct (w_kvios w !! k) as [context|] eqn:Hctx.
  - intros (context' & -> & _ & Hcount) Hsound. rewrite (Hcount _ Hsound).
    f_equal. symmetry. by apply busy_count_insert.
  - by intros [-> ->].
Qed.

Lemma collect_expired_states (t : albireo_timers) (jiffies earliest : Z)
    (pending : list nat) :
  forall (index : dedupe_index) (kvios : gmap nat dedupe_context) (expiredHead : list nat),
    let result := collect_expired t jiffies earliest pending index kvios expiredHead in
    active (fst (fst result)) = active index
    /\ busy_count (snd (fst result)) = busy_count kvios
    /\ lifecycle timeout_edge kvios (snd (fst result)).
Proof.
  induction pending as [|k rest IH]; intros index kvios expiredHead;
    cbn [collect_expired].
  - cbn. split; [by destruct index|]. split; [done|].
    apply lifecycle_refl, timeout_edge_refl.
  - destruct (kvios !! k) as [context|] eqn:Hctx.
    + destruct (_ <=? _).
      * cbn. split.
        { unfold start_expiration_timer.
          by destruct index as [? ? ? ? ? ? ? ? ? ? ? ? ? ? ? ? []]. }
        split; [done|]. apply lifecycle_refl, timeout_edge_refl.
      * destruct (IH index (<[k := context{{ is_pending := false }}]> kvios)
                    (list_add_tail k expiredHead)) as (Hactive & Hcount & Hcycle).
        split; [done|]. split.
        -- rewrite Hcount. apply Nat2Z.inj.
           rewrite (busy_count_insert kvios k context) by done.
           rewrite busy_delta_same; [lia|by destruct context].
        -- eapply lifecycle_trans; [apply timeout_edge_trans| |exact Hcycle].
           intros k'. destruct (decide (k' = k)) as [->|Hne].
           ++ rewrite Hctx, lookup_insert_eq. destruct context. apply timeout_edge_refl.
           ++ rewrite lookup_insert_ne by done.
              destruct (kvios !! k'); [apply timeout_edge_refl|done].
    + cbn. split; [by destruct index|]. split; [done|].
      apply lifecycle_refl, timeout_edge_refl.
Qed.

Lemma timeout_all_states (jiffies : Z) (expiredHead : list nat) :
  forall w : world,
    let w' := fold_left (timeout_one jiffies) expiredHead w in
    lifecycle timeout_edge (w_kvios w) (w_kvios w')
    /\ (active_sound w -> active_sound w').
Proof.
  induction expiredHead as [|k rest IH]; intros w; cbn [fold_left].
  - split; [apply lifecycle_refl, timeout_edge_refl|done].
  - destruct (IH (timeout_one jiffies w k)) as [Hcycle Hsound].
    pose proof (timeout_one_step jiffies w k) as Hstep. split.
    + eapply lifecycle_trans; [apply timeout_edge_trans| |exact Hcycle].
      by apply (request_step_lifecycle _ k); [apply timeout_edge_refl|].
    + intros Hw. by apply Hsound, (request_step_active_sound timeout_edge k w).
Qed.

Lemma timeout_index_operations_states (jiffies : Z) (w : world) :
  let w' := timeout_index_operations jiffies w in
  lifecycle timeout_edge (w_kvios w) (w_kvios w')
  /\ (active_sound w -> active_sound w').
Proof.
  unfold timeout_index_operations.
  pose proof (collect_expired_states (w_timers w) jiffies
      (ulong (jiffies - uint64 (msecs_to_jiffies (albireo_timeout_interval (w_timers w)))))
      (pending_head (w_index w){{ started_timer := false }})
      ((w_index w){{ started_timer := false }}) (w_kvios w) []) as Hcollect.
  destruct (collect_expired _ _ _ _ _ _ _) as [[index kvios] expiredHead].
  cbn [fst snd] in Hcollect. destruct Hcollect as (Hactive & Hcount & Hcycle).
  destruct (timeout_all_states jiffies expiredHead
              (w{{ w_index := index; w_kvios := kvios }})) as [Hcycle' Hsound].
  split.
  - eapply lifecycle_trans; [apply timeout_edge_trans|exact Hcycle|exact Hcycle'].
  - intros Hw. apply Hsound. unfold active_sound in *. cbn.
    rewrite Hactive, Hcount, <- Hw. by destruct w as [[] ? ? ? ? ? ?].
Qed.

(** *** The state machine leaves the requests alone *)

Lemma kept_lifecycle (w w' : world) :
  w_kvios w' = w_kvios w -> lifecycle allowed_edge (w_kvios w) (w_kvios w').
Proof. intros ->. apply lifecycle_refl. by intros []. Qed.

Lemma kept_active_sound (w w' : world) :
  w_kvios w' = w_kvios w -> active (w_index w') = active (w_index w) ->
  active_sound w -> active_sound w'.
Proof. unfold active_sound. by intros -> ->. Qed.

Lemma set_target_state_requests (target : index_state_t)
    (change_dedupe dedupe set_create : bool) (w : world) :
  let w' := set_target_state target change_dedupe dedupe set_create w in
  w_kvios w' = w_kvios w /\ active (w_index w') = active (w_index w).
Proof.
  cbv zeta. rewrite w_kvios_set_target_state, w_index_set_target_state. cbv zeta.
  split; [done|]. destruct (w_index w) as [? ? ? ? ? ? ? ? ? ch ? ? ? ? ? ? ?]. cbn.
  by destruct change_dedupe, set_create, ch; cbn; try destruct (_ || _).
Qed.

Lemma driver_resume_requests (w : world) (e : E) :
  let w' := sys_world (driver_resume w e) in
  w_kvios w' = w_kvios w /\ active (w_index w') = active (w_index w).
Proof.
  unfold driver_resume, change_done, close_session_locked1, open_session_locked1.
  destruct (change_needed _); [destruct (bool_decide _)|]; by open_world w.
Qed.

Lemma open_session_unlocked_requests (create_flag0 : bool) (w : world) (e : E) :
  let w' := snd (fst (open_session_unlocked create_flag0 w e)) in
  w_kvios w' = w_kvios w /\ active (w_index w') = active (w_index w).
Proof.
  unfold open_session_unlocked, log.
  repeat (case_match; cbn [fst snd]); by open_world w.
Qed.

Lemma close_session_unlocked_requests (w : world) (e : E) :
  let w' := snd (fst (close_session_unlocked w e)) in
  w_kvios w' = w_kvios w /\ active (w_index w') = active (w_index w).
Proof.
  unfold close_session_unlocked, log.
  repeat (case_match; cbn [fst snd]); by open_world w.
Qed.

Lemma open_session_locked2_requests (create_flag0 next_create_flag : bool)
    (result : Z) (w : world) :
  let w' := fst (open_session_locked2 create_flag0 next_create_flag result w) in
  w_kvios w' = w_kvios w /\ active (w_index w') = active (w_index w).
Proof.
  unfold open_session_locked2.
  destruct next_create_flag, create_flag0, (result =? UDS_CORRUPT_COMPONENT),
    (result =? UDS_NO_INDEX), (result =? UDS_SUCCESS); by open_world w.
Qed.

Lemma request_step_from (edge : request_state_t -> request_state_t -> bool)
    (k : nat) (w0 w w' : world) :
  w_kvios w0 = w_kvios w -> active (w_index w0) = active (w_index w) ->
  request_step edge k w0 w' -> request_step edge k w w'.
Proof. unfold request_step. by intros -> ->. Qed.

(** Every action either works on one request or keeps them all. *)
Lemma perform_requests (a : action) (s s' : system E) :
  perform a s = Some s' ->
  lifecycle allowed_edge (w_kvios (sys_world s)) (w_kvios (sys_world s'))
  /\ (active_sound (sys_world s) -> active_sound (sys_world s')).
Proof.
  assert (Hstep : forall k w w', request_step allowed_edge k w w' ->
            lifecycle allowed_edge (w_kvios w) (w_kvios w')
            /\ (active_sound w -> active_sound w')).
  { intros k w w' Hstep. split.
    - apply (request_step_lifecycle _ k); [by intros []|done].
    - by apply (request_step_active_sound allowed_edge k). }
  assert (Hkept : forall w w' : world,
            w_kvios w' = w_kvios w /\ active (w_index w') = active (w_index w) ->
            lifecycle allowed_edge (w_kvios w) (w_kvios w')
            /\ (active_sound w -> active_sound w')).
  { intros w w' [Hkvios Hactive]. split.
    - by apply kept_lifecycle.
    - by apply kept_active_sound. }
  destruct a as [target cd d sc|jiffies k op|jiffies|jiffies|k r f m]; cbn [perform].
  - intros [= <-]. apply Hkept, set_target_state_requests.
  - intros [= <-]. apply (Hstep k), enqueue_index_operation_step.
  - unfold worker_step.
    destruct (sys_pc s) as [|cf|cf ncf result| | |result].
    + destruct (uds_queue (w_index (sys_world s))) as [|[k|] rest]; [done|..].
      * pose proof (start_index_operation_step jiffies k
                      ((sys_world s){{ w_index -> uds_queue := rest }}) (sys_engine s))
          as Hstart.
        destruct (start_index_operation _ _ _ _) as [w e]. cbn [fst] in Hstart.
        intros [= <-]. apply (Hstep k). cbn [sys_world].
        eapply request_step_from; [| |exact Hstart]; by destruct (sys_world s) as [[] ? ? ? ? ? ?].
      * intros [= <-]. apply Hkept.
        destruct (driver_resume_requests ((sys_world s){{ w_index -> uds_queue := rest }})
                    (sys_engine s)) as [Hk Ha].
        split; [etrans; [exact Hk|]|etrans; [exact Ha|]];
          by destruct (sys_world s) as [[] ? ? ? ? ? ?].
    + pose proof (open_session_unlocked_requests cf (sys_world s) (sys_engine s)) as Hu.
      destruct (open_session_unlocked _ _ _) as [[[r n] w] e]. cbn [fst snd] in Hu.
      intros [= <-]. by apply Hkept.
    + pose proof (open_session_locked2_requests cf ncf result (sys_world s)) as Hl.
      destruct (open_session_locked2 _ _ _ _) as [w [|]]; cbn [fst] in Hl;
        intros [= <-]; apply Hkept; [done|].
      destruct (driver_resume_requests w (sys_engine s)) as [Hk Ha].
      destruct Hl as [Hk' Ha']. split; [etrans; [exact Hk|]|etrans; [exact Ha|]]; done.
    + intros [= <-]. apply Hkept.
      destruct (driver_resume_requests (open_session_log (sys_world s)) (sys_engine s))
        as [Hk Ha].
      split; [etrans; [exact Hk|]|etrans; [exact Ha|]]; by destruct (sys_world s).
    + pose proof (close_session_unlocked_requests (sys_world s) (sys_engine s)) as Hu.
      destruct (close_session_unlocked _ _) as [[r w] e]. cbn [fst snd] in Hu.
      intros [= <-]. by apply Hkept.
    + intros [= <-]. apply Hkept.
      destruct (driver_resume_requests (close_session_locked2 result (sys_world s))
                  (sys_engine s)) as [Hk Ha].
      split; [etrans; [exact Hk|]|etrans; [exact Ha|]];
        by destruct (sys_world s) as [[] ? ? ? ? ? ?].
  - intros [= <-]. destruct (timeout_index_operations_states jiffies (sys_world s))
      as [Hcycle Hsound].
    split; [|done]. eapply lifecycle_weaken; [apply timeout_edge_allowed|done].
  - intros [= <-]. apply (Hstep k), engine_completes_step.
Qed.

(** X6.  Whatever happens (a call of [set_target_state], a request, a move
    of the worker, the timer going off, a completion by the engine), no
    [data_kvio] comes or goes and the [request_state] of each one either stays
    or moves along one of the four edges IDLE to BUSY, BUSY to IDLE, BUSY to
    TIMED_OUT, TIMED_OUT to IDLE.  In particular nothing takes a request from
    IDLE to TIMED_OUT or from TIMED_OUT to BUSY. *)
Theorem request_state_edges (a : action) (s s' : system E) (k : nat) :
  perform a s = Some s' ->
  match w_kvios (sys_world s) !! k, w_kvios (sys_world s') !! k with
  | Some context, Some context' =>
      let before := request_state context in
      let after := request_state context' in
      after = before
      \/ (before = UR_IDLE /\ after = UR_BUSY)
      \/ (before = UR_BUSY /\ after = UR_IDLE)
      \/ (before = UR_BUSY /\ after = UR_TIMED_OUT)
      \/ (before = UR_TIMED_OUT /\ after = UR_IDLE)
  | None, None => True
  | _, _ => False
  end.
Proof.
  intros Hperform. destruct (perform_requests a s s' Hperform) as [Hcycle _].
  specialize (Hcycle k).
  destruct (w_kvios (sys_world s) !! k) as [context|],
    (w_kvios (sys_world s') !! k) as [context'|]; try done.
  cbv zeta. destruct (request_state context), (request_state context'); try done;
    tauto.
Qed.

Lemma perform_all_active_sound (actions : list action) :
  forall s s' : system E,
    active_sound (sys_world s) -> perform_all actions s = Some s' ->
    active_sound (sys_world s').
Proof.
  induction actions as [|a rest IH]; intros s s' Hsound; cbn [perform_all].
  - by intros [= <-].
  - destruct (perform a s) as [s1|] eqn:Hperform; [|done].
    apply IH. by apply (perform_requests a s s1).
Qed.

(** X7.  [active] counts the requests in flight.  Starting from an index as
    [make_dedupe_index] leaves it, with no request BUSY, after every run of
    calls, moves of the worker, time-outs and completions, [active] is the
    number of [data_kvio] objects whose [request_state] is BUSY, as a signed
    32-bit counter: a time-out takes a request out of the count at once, the
    late completion of a TIMED_OUT request does not count again. *)
Theorem active_counts_busy (actions : list action) (s s' : system E) :
  initial s ->
  (forall k context, w_kvios (sys_world s) !! k = Some context ->
                     request_state context <> UR_BUSY) ->
  perform_all actions s = Some s' ->
  let in_flight := Z.of_nat (busy_count (w_kvios (sys_world s'))) in
  active (w_index (sys_world s')) = (in_flight + 2 ^ 31) mod 2 ^ 32 - 2 ^ 31
  /\ (in_flight < 2 ^ 31 -> active (w_index (sys_world s')) = in_flight).
Proof.
  intros [(name & config & Hindex) _] Hidle Hrun in_flight.
  assert (Hsound : active_sound (sys_world s')).
  { apply (perform_all_active_sound actions s s'); [|done].
    unfold active_sound, busy_count. rewrite Hindex.
    replace (filter _ (w_kvios (sys_world s))) with (∅ : gmap nat dedupe_context); [done|].
    symmetry. apply map_empty_filter. intros k context Hctx. cbn.
    by apply (Hidle k). }
  unfold active_sound, sint32 in Hsound. fold in_flight in Hsound.
  split; [done|]. intros Hrange. rewrite Hsound, Z.mod_small by lia. lia.
Qed.
End Lifecycle.

(** * The pending list and the [is_pending] flags *)

Section PendingList.
Context `{Codes : status_codes} `{Ticks : tick_conversion} `{Engine : uds_engine E}.


Lemma pending_consistent_kept (w w' : world) :
  w_kvios w' = w_kvios w -> pending_head (w_index w') = pending_head (w_index w) ->
  pending_consistent w -> pending_consistent w'.
Proof. unfold pending_consistent. by intros -> ->. Qed.






Lemma timed_out_is_pending (context : dedupe_context) :
  is_pending (timed_out context) = is_pending context.
Proof. unfold timed_out. by destruct (bool_decide _), context. Qed.



(** *** A list in submission order *)

Lemma after_leading_filter (p : nat -> bool) (l : list nat) :
  (forall (i j : nat) (x y : nat),
     (i <= j)%nat -> l !! i = Some x -> l !! j = Some y -> p y = true -> p x = true) ->
  after_leading p l = filter (fun x => p x = false) l.
Proof.
  induction l as [|x l IH]; intros Hclosed; cbn [after_leading]; [done|].
  destruct (p x) eqn:Hx.
  - rewrite filter_cons_False by congruence. apply IH.
    intros i j a b Hij Ha Hb. by apply (Hclosed (S i) (S j)); [lia|..].
  - symmetry. rewrite filter_cons_True by done. f_equal.
    assert (Hall : Forall (fun y => p y = false) l).
    { apply Forall_lookup. intros j y Hy. destruct (p y) eqn:Hpy; [|done].
      rewrite <- Hx. symmetry. by apply (Hclosed 0%nat (S j) x y); [lia|..]. }
    clear IH Hclosed. induction Hall as [|y l Hy Hall IHall]; [done|].
    rewrite filter_cons_True by done. by f_equal.
Qed.

(** X9.  When the pending list is in submission order (and agrees with the
    [is_pending] flags) the timer path leaves no overdue request behind:
    [timeout_index_operations] takes off the list exactly the entries
    submitted before [earliest], the time now less the time-out interval,
    wherever they stand, and none of them is BUSY afterwards. *)
Theorem timeout_takes_all_overdue (jiffies : Z) (w : world) :
  let kvios := w_kvios w in
  let earliest :=
    ulong (jiffies - uint64 (msecs_to_jiffies (albireo_timeout_interval (w_timers w)))) in
  let pending := pending_head (w_index w) in
  let w' := timeout_index_operations jiffies w in
  pending_consistent w ->
  submitted_in_order kvios pending ->
  pending_head (w_index w')
  = filter (fun k => overdue kvios earliest k = false) pending
  /\ forall k context,
       k ∈ pending -> kvios !! k = Some context ->
       submission_time context < earliest ->
       (k ∉ pending_head (w_index w'))
       /\ exists context',
           w_kvios w' !! k = Some context'
           /\ is_pending context' = false
           /\ request_state context' <> UR_BUSY.
Proof.
  intros kvios earliest pending w' [Hnd Hin] Hsorted.
  assert (Hwf : forall k, k ∈ pending -> is_Some (kvios !! k)).
  { intros k (context & Hctx & _)%Hin. eauto. }
  assert (Hfilter : after_leading (overdue kvios earliest) pending
                    = filter (fun k => overdue kvios earliest k = false) pending).
  { apply after_leading_filter. intros i j x y Hij Hx Hy. unfold overdue.
    destruct (Hwf x) as [cx Hcx]; [by eapply list_elem_of_lookup_2|].
    destruct (Hwf y) as [cy Hcy]; [by eapply list_elem_of_lookup_2|].
    rewrite Hcx, Hcy. intros Hdue%Z.ltb_lt. apply Z.ltb_lt.
    pose proof (Hsorted i j x y cx cy Hij Hx Hy Hcx Hcy). lia. }
  set (expired := leading (overdue kvios earliest) pending).
  set (remaining := after_leading (overdue kvios earliest) pending) in *.
  assert (Hsplit : expired ++ remaining = pending) by apply leading_after_leading.
  destruct (collect_expired_spec (w_timers w) jiffies earliest pending
              ((w_index w){{ started_timer := false }}) kvios [] Hnd Hwf)
    as (kvios' & Heq & Hlook).
  fold expired remaining in Heq, Hlook. cbn [app] in Heq.
  assert (Hrun : exists w_mid,
             w' = fold_left (timeout_one jiffies) expired w_mid
             /\ w_kvios w_mid = kvios'
             /\ pending_head (w_index w_mid) = remaining).
  { subst w'. unfold timeout_index_operations.
    change (pending_head (w_index w){{ started_timer := false }}) with pending.
    fold earliest. fold kvios. rewrite Heq. eexists. split; [reflexivity|].
    split; [done|]. cbn. clear Heq.
    destruct remaining as [|k rest] eqn:Hrem; [done|].
    destruct (Hwf k) as [context Hctx].
    { rewrite <- Hsplit. apply elem_of_app. right. apply list_elem_of_here. }
    rewrite Hctx. unfold start_expiration_timer. by destruct w as [[] ? ? ? ? ? ?]. }
  destruct Hrun as (w_mid & Hrun & Hkvios & Hmid).
  assert (Hnd' : NoDup (expired ++ remaining)) by by rewrite Hsplit.
  apply NoDup_app in Hnd' as (Hnd1 & Hdisjoint & Hnd2).
  destruct (timeout_all_spec jiffies expired w_mid Hnd1)
    as (Hkv & _ & _ & _ & Hpend & _ & _).
  rewrite <- Hrun in Hkv, Hpend. rewrite Hkvios in Hkv.
  split; [by rewrite Hpend, Hmid|].
  intros k context Hk Hctx Hdue.
  assert (Hexp : k ∈ expired).
  { rewrite <- Hsplit in Hk. apply elem_of_app in Hk as [Hk|Hk]; [done|].
    rewrite Hfilter in Hk. apply list_elem_of_filter in Hk as [Hk _].
    unfold overdue in Hk. rewrite Hctx in Hk. apply Z.ltb_ge in Hk. lia. }
  split.
  - rewrite Hpend, Hmid. by apply Hdisjoint.
  - rewrite Hkv, Hlook, !bool_decide_eq_true_2 by done. rewrite Hctx.
    eexists. split; [reflexivity|]. rewrite timed_out_is_pending.
    split; [by destruct context|].
    unfold timed_out, unlinked. destruct context as [rs ? ? ? ? ? ? ?]; cbn.
    case_bool_decide; cbn; congruence.
Qed.
End PendingList.

(** * The timer tunables and the deadline *)

Section Deadline.
Context `{Codes : status_codes} `{Ticks : tick_conversion}.

(** X10.  The two forms of each tunable agree.  On a kernel where two ticks
    converted to milliseconds and back are two ticks, and last at most a
    second: after [set_albireo_timeout_interval] the interval stored in
    milliseconds converts to the interval stored in ticks, so the time-out
    [timeout_index_operations] computes from the former is the one the timer
    was set with from the latter; the same holds for
    [set_min_albireo_timer_interval]; and writing a stored value back, as
    [make_dedupe_index] does for both, changes nothing. *)
Theorem timer_tunables_agree (value0 : Z) (t : albireo_timers) :
  msecs_to_jiffies (jiffies_to_msecs 2) = 2 ->
  jiffies_to_msecs 2 <= 1000 ->
  let t1 := set_albireo_timeout_interval value0 t in
  let t2 := set_min_albireo_timer_interval value0 t in
  msecs_to_jiffies (albireo_timeout_interval t1) = albireo_timeout_jiffies t1
  /\ set_albireo_timeout_interval (albireo_timeout_interval t1) t1 = t1
  /\ msecs_to_jiffies (min_albireo_timer_interval t2) = min_albireo_timer_jiffies t2
  /\ set_min_albireo_timer_interval (min_albireo_timer_interval t2) t2 = t2.
Proof.
  intros Hround Hsecond t1 t2. subst t1 t2.
  rewrite !set_albireo_timeout_interval_eq, !set_min_albireo_timer_interval_eq.
  cbn [albireo_timeout_interval albireo_timeout_jiffies
       min_albireo_timer_interval min_albireo_timer_jiffies].
  assert (Hmin : forall cap v, 2 <= msecs_to_jiffies (Z.min v cap) ->
            Z.min (Z.min v cap) cap = Z.min v cap) by (intros; lia).
  repeat split.
  - destruct (Z.ltb_spec (msecs_to_jiffies (Z.min value0 120000)) 2); [|lia].
    rewrite Hround. lia.
  - destruct (Z.ltb_spec (msecs_to_jiffies (Z.min value0 120000)) 2) as [Hlow|Hhigh].
    + rewrite (Z.min_l (jiffies_to_msecs 2)) by lia. rewrite Hround. cbn.
      f_equal; lia.
    + rewrite Hmin by done.
      rewrite (proj2 (Z.ltb_ge _ _) Hhigh). f_equal.
  - destruct (Z.ltb_spec (msecs_to_jiffies (Z.min value0 1000)) 2); [|lia].
    rewrite Hround. lia.
  - destruct (Z.ltb_spec (msecs_to_jiffies (Z.min value0 1000)) 2) as [Hlow|Hhigh].
    + rewrite (Z.min_l (jiffies_to_msecs 2)) by lia. rewrite Hround. cbn.
      f_equal; lia.
    + rewrite Hmin by done.
      rewrite (proj2 (Z.ltb_ge _ _) Hhigh). f_equal.
Qed.

(** X11.  A request is timed out only by a timer going off after its
    deadline, not on it.  When the timer goes off at exactly the submission
    time of the oldest pending request plus the time-out interval (no
    wrap-around of the tick counter in sight),
    [timeout_index_operations] takes nothing off the list, delivers no
    callback and touches no request: it only sets the timer again, for the
    minimum timer interval from now. *)
Theorem timer_on_the_deadline (jiffies : Z) (w : world) (k : nat) (rest : list nat)
    (context : dedupe_context) :
  let t := w_timers w in
  pending_head (w_index w) = k :: rest ->
  w_kvios w !! k = Some context ->
  msecs_to_jiffies (albireo_timeout_interval t) = albireo_timeout_jiffies t ->
  0 <= albireo_timeout_jiffies t ->
  0 <= min_albireo_timer_jiffies t ->
  0 <= submission_time context ->
  jiffies = submission_time context + albireo_timeout_jiffies t ->
  jiffies + min_albireo_timer_jiffies t < 2 ^ 64 ->
  timeout_index_operations jiffies w
  = w{{ w_index -> started_timer := true;
        w_index -> pending_timer := Some (jiffies + min_albireo_timer_jiffies t) }}.
Proof.
  intros t Hpending Hctx Hagree Htimeout Hmin Hsubmitted Hnow Hwrap. subst t.
  unfold timeout_index_operations.
  rewrite Hagree.
  rewrite (earliest_submission_no_wrap jiffies) by lia.
  replace (jiffies - albireo_timeout_jiffies (w_timers w))
    with (submission_time context) by lia.
  assert (Hcollect : pending_head ((w_index w){{ started_timer := false }}) = k :: rest)
    by (rewrite <- Hpending; by destruct w as [[] ? ? ? ? ? ?]).
  rewrite Hcollect. cbn [collect_expired]. rewrite Hctx, Z.leb_refl.
  cbn [fold_left]. unfold start_expiration_timer, get_albireo_timeout, maxULong, ulong.
  rewrite !Z.mod_small by lia. rewrite Z.max_r by lia.
  destruct w as [index ? ? ? ? ? ?]. destruct index. cbn in *. by subst.
Qed.
End Deadline.

(** * The time-out reporter *)

Section Reporter.

Lemma uint64_sint64 (z : Z) : uint64 (sint64 z) = uint64 z.
Proof.
  unfold uint64, sint64. rewrite Zminus_mod_idemp_l. f_equal. lia.
Qed.

Lemma uint64_add_l (n m : Z) : uint64 (uint64 n + m) = uint64 (n + m).
Proof. unfold uint64. by rewrite Zplus_mod_idemp_l. Qed.

(** What a run of time-outs does to the reporter and to the CPU queue. *)
Lemma report_dedupe_timeouts (times : list Z) :
  forall w : world,
    let w' := fold_left (fun w jiffies => report_dedupe_timeout jiffies w) times w in
    let reporter := timeout_reporter (w_index w) in
    let reporter' := timeout_reporter (w_index w') in
    uint64 (value reporter') = uint64 (value reporter + Z.of_nat (length times))
    /\ last_reported_value reporter' = last_reported_value reporter
    /\ reporting_interval reporter' = reporting_interval reporter
    /\ w_log w' = w_log w
    /\ match times with
       | [] => work_item_queued reporter' = work_item_queued reporter
               /\ w_cpu_queue w' = w_cpu_queue w
       | jiffies :: _ =>
           work_item_queued reporter' = 1
           /\ w_cpu_queue w'
              = w_cpu_queue w
                ++ (if work_item_queued reporter =? 0
                    then [ulong (jiffies + reporting_interval reporter)] else [])
       end.
Proof.
  induction times as [|jiffies times IH]; intros w; cbn [fold_left length].
  - cbn. rewrite Z.add_0_r. done.
  - destruct (IH (report_dedupe_timeout jiffies w)) as (Hvalue & Hlast & Hinterval & Hlog & Hqueue).
    cbn zeta. rewrite Hvalue, Hlast, Hinterval, Hlog.
    assert (Hone : let r1 := timeout_reporter (w_index (report_dedupe_timeout jiffies w)) in
              value r1 = atomic64_inc (value (timeout_reporter (w_index w)))
              /\ last_reported_value r1 = last_reported_value (timeout_reporter (w_index w))
              /\ reporting_interval r1 = reporting_interval (timeout_reporter (w_index w))
              /\ work_item_queued r1 = 1
              /\ w_log (report_dedupe_timeout jiffies w) = w_log w
              /\ w_cpu_queue (report_dedupe_timeout jiffies w)
                 = w_cpu_queue w
                   ++ (if work_item_queued (timeout_reporter (w_index w)) =? 0
                       then [ulong (jiffies + reporting_interval (timeout_reporter (w_index w)))]
                       else [])).
    { unfold report_dedupe_timeout. destruct w as [index ? ? ? ? ? ?].
      destruct index as [? ? ? ? reporter ? ? ? ? ? ? ? ? ? ? ? ?].
      destruct reporter as [? ? ? queued]. cbn.
      destruct (queued =? 0); cbn; by rewrite ?app_nil_r. }
    cbn zeta in Hone. destruct Hone as (Hv1 & Hl1 & Hi1 & Hq1 & Hlog1 & Hcpu1).
    rewrite Hv1, Hl1, Hi1, Hlog1. unfold atomic64_inc.
    split; [|split; [done|split; [done|split; [done|]]]].
    + rewrite <- uint64_add_l, uint64_sint64, uint64_add_l. f_equal. lia.
    + destruct times as [|jiffies' times].
      * destruct Hqueue as [Hq Hcpu]. cbn in Hq, Hcpu. cbn. by rewrite Hq1, Hcpu1.
      * destruct Hqueue as [Hq Hcpu]. split; [done|].
        cbn [fold_left] in Hcpu |- *. rewrite Hcpu, Hq1, Hcpu1. cbn.
        by rewrite app_nil_r.
Qed.

(** X12.  Time-outs are counted one by one and reported together.  With no
    report queued and everything reported so far: however many time-outs
    [report_dedupe_timeout] is told of before the report runs, it queues the
    report once, due one reporting interval after the first of them; the
    report then logs their number, clears the queued mark and brings
    [last_reported_value] up to the count, and a further report finding
    nothing new logs nothing. *)
Theorem timeouts_reported_together (jiffies : Z) (times : list Z) (w : world) :
  let reporter := timeout_reporter (w_index w) in
  let n := Z.of_nat (length (jiffies :: times)) in
  work_item_queued reporter = 0 ->
  last_reported_value reporter = uint64 (value reporter) ->
  n < 2 ^ 64 ->
  let w1 :=
    fold_left (fun w jiffies => report_dedupe_timeout jiffies w) (jiffies :: times) w in
  let w2 := report_events_work w1 in
  w_cpu_queue w1 = w_cpu_queue w ++ [ulong (jiffies + reporting_interval reporter)]
  /\ get_dedupe_timeout_count (w_index w1) = (value reporter + n) mod 2 ^ 64
  /\ w_log w2 = w_log w ++ [LogTimeouts n]
  /\ work_item_queued (timeout_reporter (w_index w2)) = 0
  /\ last_reported_value (timeout_reporter (w_index w2))
     = get_dedupe_timeout_count (w_index w2)
  /\ report_events_work w2 = w2
  /\ stop_periodic_event_reporter (timeout_reporter (w_index w2))
     = (timeout_reporter (w_index w2), []).
Proof.
  intros reporter n Hqueued Hreported Hn w1 w2.
  destruct (report_dedupe_timeouts (jiffies :: times) w)
    as (Hvalue & Hlast & Hinterval & Hlog & Hq & Hcpu).
  fold w1 reporter n in Hvalue, Hlast, Hinterval, Hlog, Hq, Hcpu.
  rewrite Hqueued in Hcpu. cbn [Z.eqb] in Hcpu.
  assert (Hdifference : uint64 (uint64 (value (timeout_reporter (w_index w1)))
                                - last_reported_value (timeout_reporter (w_index w1)))
                        = n).
  { rewrite Hvalue, Hlast, Hreported. unfold uint64.
    rewrite <- Zminus_mod.
    replace (value reporter + n - value reporter) with n by lia.
    apply Z.mod_small. subst n. lia. }
  split; [done|]. split; [done|].
  subst w2. unfold report_events_work, report_events, get_dedupe_timeout_count,
    stop_periodic_event_reporter.
  destruct w1 as [index1 ? ? ? ? ? ?]. destruct index1 as [? ? ? ? reporter1 ? ? ? ? ? ? ? ? ? ? ? ?].
  destruct reporter1 as [last1 value1 interval1 queued1]. cbn in *.
  rewrite Hdifference.
  assert (Hne : (n =? 0) = false) by (apply Z.eqb_neq; subst n; lia).
  rewrite Hne. cbn. rewrite Hlog.
  assert (Hzero : uint64 (uint64 value1 - uint64 value1) = 0)
    by (by rewrite Z.sub_diag).
  rewrite Hzero. cbn. rewrite app_nil_r. repeat split; try done.
  unfold report_events. cbn. by rewrite Hzero.
Qed.
End Reporter.

(** * Requests from submission to callback *)

Section Requests.
Context `{Codes : status_codes} `{Ticks : tick_conversion} `{Engine : uds_engine E}.

(** Decoding what [encode_uds_advice] wrote. *)
Lemma decode_encoded_advice (request answered : UdsRequest) (advice : DataLocation) :
  0 <= state advice < 256 ->
  0 <= pbn advice < 2 ^ 64 ->
  (UDS_ADVICE_SIZE <= length (newMetadata request))%nat ->
  req_status answered = UDS_SUCCESS ->
  found answered = true ->
  oldMetadata answered = newMetadata (encode_uds_advice request advice) ->
  decode_uds_advice answered = (Some advice, []).
Proof.
  intros Hstate Hpbn Hlen Hok Hfound Hold.
  assert (Henc : newMetadata (encode_uds_advice request advice)
                 = [byte.of_Z 2; byte.of_Z (state advice)]
                   ++ le_split 8 (pbn advice)
                   ++ drop UDS_ADVICE_SIZE (newMetadata request)).
  { destruct request; cbn in *. by apply encode_uds_advice_bytes_eq. }
  unfold decode_uds_advice. rewrite Hok, Hfound, Z.eqb_refl. cbn [negb orb].
  rewrite Hold, Henc. cbn [nth app].
  rewrite (byte_unsigned_of_Z_small 2) by lia. cbn [Z.eqb negb UDS_ADVICE_VERSION Pos.eqb].
  rewrite byte_unsigned_of_Z_small by lia.
  unfold decodeUInt64LE. cbn [skipn]. rewrite drop_0.
  rewrite (take_app_length' (le_split 8 (pbn advice)))
    by (symmetry; apply length_le_split).
  rewrite le_combine_split.
  rewrite Z.mod_small by (cbn; lia).
  destruct advice; reflexivity.
Qed.

(** A request that is submitted: BUSY, with the request to the engine
    filled in. *)
Lemma enqueue_index_operation_submits (jiffies : Z) (k : nat)
    (operation : UdsCallbackType) (w : world) (context : dedupe_context) :
  w_kvios w !! k = Some context ->
  request_state context = UR_IDLE ->
  deduping (w_index w) = true ->
  exists submitted,
    w_kvios (enqueue_index_operation jiffies k operation w) !! k = Some submitted
    /\ request_state submitted = UR_BUSY
    /\ type (uds_request submitted) = operation
    /\ newMetadata (uds_request submitted)
       = (if bool_decide (operation = UDS_POST) || bool_decide (operation = UDS_UPDATE)
          then fst (encode_uds_advice_bytes (newMetadata (uds_request context))
                      (advice_out context))
          else newMetadata (uds_request context))
    /\ w_callbacks (enqueue_index_operation jiffies k operation w) = w_callbacks w
    /\ uds_queue (w_index (enqueue_index_operation jiffies k operation w))
       = uds_queue (w_index w) ++ [WorkStartIndexOperation k].
Proof.
  intros Hctx Hidle Hon.
  unfold enqueue_index_operation. rewrite Hctx. cbn.
  rewrite compareAndSwap32_hit by done. rewrite Hon.
  destruct w as [index ? ? ? ? ? ?]. destruct index.
  destruct context as [? ? ? ? ? request ? ?]. destruct request. cbn in *.
  destruct (_ <? _); cbn; rewrite lookup_insert_eq; eexists; (split; [reflexivity|]);
    cbn; destruct (_ || _); done.
Qed.

(** The completion of a BUSY post or query delivers the engine's status and
    what [decode_uds_advice] makes of its answer. *)
Lemma engine_completes_delivers (k : nat) (result : Z) (found0 : bool)
    (metadata : list byte) (w : world) (context : dedupe_context) :
  w_kvios w !! k = Some context ->
  request_state context = UR_BUSY ->
  type (uds_request context) = UDS_POST \/ type (uds_request context) = UDS_QUERY ->
  w_callbacks (engine_completes k result found0 metadata w)
  = w_callbacks w
    ++ [{| cb_kvio := k; cb_status := result;
           cb_advice :=
             fst (decode_uds_advice
                    (uds_request context){{ req_status := result; found := found0;
                                            oldMetadata := metadata }}) |}].
Proof.
  intros Hctx Hbusy Htype.
  unfold engine_completes. rewrite Hctx.
  unfold finish_index_operation, invoke_dedupe_callback.
  destruct w as [index ? ? ? ? ? ?]. destruct index.
  destruct context as [? pending ? ? ? request ? ?].
  destruct request as [? ? ? ty ? ? ? ? ?]. cbn in *.
  rewrite lookup_insert_eq. cbn. subst. rewrite compareAndSwap32_hit by done. cbn.
  assert (Hop : bool_decide (ty = UDS_POST) || bool_decide (ty = UDS_QUERY) = true).
  { destruct Htype as [->| ->]; by vm_compute. }
  destruct pending; cbn; rewrite Hop;
    destruct (decode_uds_advice _) as [advice logged]; cbn;
    rewrite insert_insert_eq, lookup_insert_eq; reflexivity.
Qed.

(** X13.  Advice that was posted comes back to whoever asks.  A post of an
    idle request while deduping is on leaves the request BUSY with its
    outbound advice encoded into the metadata handed to the engine; and
    when the engine later completes any BUSY post or query as found, with
    success, returning that metadata as the old one, the callback of that
    request is delivered with status success and exactly the advice that
    was posted. *)
Theorem posted_advice_comes_back (jiffies : Z) (k1 : nat) (w : world)
    (context1 : dedupe_context) :
  w_kvios w !! k1 = Some context1 ->
  request_state context1 = UR_IDLE ->
  deduping (w_index w) = true ->
  (UDS_ADVICE_SIZE <= length (newMetadata (uds_request context1)))%nat ->
  0 <= state (advice_out context1) < 256 ->
  0 <= pbn (advice_out context1) < 2 ^ 64 ->
  exists posted,
    w_kvios (post_dedupe_advice jiffies k1 w) !! k1 = Some posted
    /\ request_state posted = UR_BUSY
    /\ type (uds_request posted) = UDS_POST
    /\ forall (k2 : nat) (w2 : world) (context2 : dedupe_context),
         w_kvios w2 !! k2 = Some context2 ->
         request_state context2 = UR_BUSY ->
         type (uds_request context2) = UDS_POST
         \/ type (uds_request context2) = UDS_QUERY ->
         w_callbacks (engine_completes k2 UDS_SUCCESS true
                        (newMetadata (uds_request posted)) w2)
         = w_callbacks w2
           ++ [{| cb_kvio := k2; cb_status := UDS_SUCCESS;
                  cb_advice := Some (advice_out context1) |}].
Proof.
  intros Hctx Hidle Hon Hlen Hstate Hpbn.
  destruct (enqueue_index_operation_submits jiffies k1 UDS_POST w context1 Hctx Hidle Hon)
    as (posted & Hposted & Hbusy & Htype & Hmeta & _).
  exists posted. split; [done|]. split; [done|]. split; [done|].
  intros k2 w2 context2 Hctx2 Hbusy2 Htype2.
  rewrite (engine_completes_delivers k2 _ _ _ w2 context2) by done.
  rewrite (decode_encoded_advice (uds_request context1) _ (advice_out context1));
    try done; try (by destruct (uds_request context2)).
Qed.

Lemma list_del_add_tail (k : nat) (l : list nat) :
  k ∉ l -> list_del k (list_add_tail k l) = l.
Proof.
  intros Hk. unfold list_del, list_add_tail. rewrite filter_app.
  rewrite filter_cons_False, filter_nil, app_nil_r by (intros Hne; by apply Hne).
  induction l as [|x l IH]; [done|].
  apply not_elem_of_cons in Hk as [Hx Hl].
  rewrite filter_cons_True by done. f_equal. by apply IH.
Qed.

(** X14.  A request the engine refuses at once is answered at once.  When
    the work function [start_index_operation] hands a BUSY request to the
    engine and [udsStartChunkOperation] returns a status other than success,
    the request is completed on the spot: its callback is delivered with
    that status and, for a post or a query, no advice; the request is IDLE
    again and off the pending list, which is as it was before, and [active]
    is decremented.  The timer that was started for the request stays
    started. *)
Theorem start_index_operation_refused (jiffies : Z) (k : nat) (w : world) (e e' : E)
    (context : dedupe_context) (status0 : Z) :
  w_kvios w !! k = Some context ->
  request_state context = UR_BUSY ->
  k ∉ pending_head (w_index w) ->
  udsStartChunkOperation (uds_request context) e = (status0, e') ->
  status0 <> UDS_SUCCESS ->
  exists w' context',
    start_index_operation jiffies k w e = (w', e')
    /\ w_callbacks w'
       = w_callbacks w
         ++ [{| cb_kvio := k; cb_status := status0;
                cb_advice := if bool_decide (type (uds_request context) = UDS_UPDATE)
                             then advice_in context else None |}]
    /\ w_kvios w' !! k = Some context'
    /\ request_state context' = UR_IDLE
    /\ is_pending context' = false
    /\ status context' = status0
    /\ pending_head (w_index w') = pending_head (w_index w)
    /\ active (w_index w') = (active (w_index w) - 1 + 2 ^ 31) mod 2 ^ 32 - 2 ^ 31
    /\ started_timer (w_index w') = true
    /\ w_log w' = w_log w.
Proof.
  intros Hctx Hbusy Hnew Hstart Hfailed. apply Z.eqb_neq in Hfailed.
  destruct w as [index ? ? ? ? ? ?].
  destruct index as [? ? ? ? ? ? ? ? ? ? ? ? ? ? pending ? started].
  destruct context as [? ? ? ? ? request ? ?].
  destruct request as [? ? ? ty ? ? ? ? ?]. cbn in *. subst.
  pose proof (list_del_add_tail k pending Hnew) as Hlist.
  unfold start_index_operation. cbn. rewrite Hctx. cbn. rewrite Hstart, Hfailed. cbn.
  unfold finish_index_operation, invoke_dedupe_callback, decode_uds_advice,
    start_expiration_timer. cbn.
  rewrite insert_insert_eq, lookup_insert_eq. cbn.
  rewrite compareAndSwap32_hit by done. cbn. rewrite Hfailed. cbn.
  destruct started, ty; cbn;
    repeat first [rewrite bool_decide_eq_true_2 by done
                 |rewrite bool_decide_eq_false_2 by done]; cbn;
    rewrite ?insert_insert_eq, lookup_insert_eq; cbn;
    rewrite ?app_nil_r; unfold list_add_tail, list_del in Hlist; rewrite Hlist;
    eexists _, _; (split; [reflexivity|]); cbn; (split; [reflexivity|]);
    (split; [apply lookup_insert_eq|]); repeat split; reflexivity.
Qed.
End Requests.

(** * The interface of the index: messages, status and making *)

Section Interface.
Context `{Codes : status_codes} `{Ticks : tick_conversion} `{Engine : uds_engine E}
  `{Libc : libc} `{VdoCodes : vdo_status_codes}.

(** X5.  What the status shown for the index tells.  In every state
    reachable from a freshly made index in which the state lock is free, the
    name [get_dedupe_state_name] returns is [error] exactly when
    [error_flag] is set; it is [opening] or [closing] only while the worker
    is inside an engine call of [open_session] or [close_session], so never
    while the worker is idle; and when no change is in progress it is
    [online] exactly when requests are sent to the index ([deduping]). *)
Theorem status_name_tells (s : system E) :
  reachable s ->
  let index := w_index (sys_world s) in
  let name := get_dedupe_state_name (sys_world s) in
  (name = ERROR <-> error_flag index = true)
  /\ (name = OPENING \/ name = CLOSING ->
      sys_pc s <> PcIdle /\ sys_pc s <> PcOpenLog /\ changing index = true)
  /\ (changing index = false -> (name = ONLINE <-> deduping index = true)).
Proof.
  intros Hreach index name. subst index name.
  destruct (reachable_session_invariant s Hreach) as (Hrest & Herror & Hat).
  pose proof (mid_change_of_invariant s (reachable_invariant s Hreach)) as Hmid.
  unfold get_dedupe_state_name, index_state_to_string, settled, state_at in *.
  destruct (index_state (w_index (sys_world s))) eqn:Hstate.
  - split; [destruct (error_flag _); split; intros; congruence|].
    split; [destruct (error_flag _); intros [?|?]; congruence|].
    intros Hquiet. destruct (Hrest Hquiet) as (_ & _ & ->).
    rewrite bool_decide_eq_false_2 by done. rewrite andb_false_r.
    destruct (error_flag _); split; intros; congruence.
  - split.
    { split; [destruct (decide (index_target _ = IS_OPENED)); congruence|].
      intros Hflag. specialize (Herror Hflag). congruence. }
    split.
    + intros _. destruct (sys_pc s); try done;
        (split; [done|]; split; [done|]; by apply Hmid).
    + intros Hquiet. destruct (sys_pc s); try done;
        destruct Hmid as (Hchanging & _); try done; congruence.
  - split.
    { split; [destruct (dedupe_flag _); congruence|].
      intros Hflag. specialize (Herror Hflag). congruence. }
    split; [destruct (dedupe_flag _); intros [?|?]; congruence|].
    intros Hquiet. destruct (Hrest Hquiet) as (_ & _ & ->).
    rewrite bool_decide_eq_true_2 by done. rewrite andb_true_r.
    destruct (dedupe_flag _); split; intros; congruence.
Qed.

(** [set_target_state] asked for a target and a setting of [dedupe_flag],
    with no change in progress and no creation asked for. *)
Lemma set_target_state_quiet (target : index_state_t) (dedupe : bool) (w : world) :
  changing (w_index w) = false ->
  w_index (set_target_state target true dedupe false w)
  = if bool_decide (target <> index_target (w_index w))
    then (w_index w){{ dedupe_flag := dedupe; index_target := target;
                       changing := true; deduping := false;
                       uds_queue ::= fun q => q ++ [WorkChangeDedupeState] }}
    else (w_index w){{ dedupe_flag := dedupe;
                       deduping := dedupe
                                   && bool_decide (index_state (w_index w) = IS_OPENED) }}.
Proof.
  intros Hquiet. rewrite w_index_set_target_state. cbv zeta.
  destruct (w_index w) as [? ? ? ? ? ? ? ? ? ch ? ? ? ? ? ? ?]. cbn in *. subst ch.
  rewrite orb_false_r. by destruct (bool_decide _).
Qed.

(** X15.  What the messages [index-disable] and [index-enable] do to an
    index with no change in progress.  Both ask for an open index.  On an
    index whose target is OPENED they take effect at once: nothing is
    queued, and [deduping] becomes the setting asked for when the index is
    open.  On an index whose target is not OPENED they start a change to
    OPENED, so that disabling deduplication on a closed index has it
    opened.  A name that matches none of the four commands changes nothing
    and is answered with [-EINVAL]. *)
Theorem message_enable_disable (name : string) (w : world) (enable : bool) :
  strcasecmp name "index-close" <> 0 ->
  strcasecmp name "index-create" <> 0 ->
  (if enable
   then strcasecmp name "index-disable" <> 0 /\ strcasecmp name "index-enable" = 0
   else strcasecmp name "index-disable" = 0) ->
  changing (w_index w) = false ->
  let index := w_index w in
  let index' := w_index (snd (message_dedupe_index name w)) in
  fst (message_dedupe_index name w) = 0
  /\ (index_target index = IS_OPENED ->
      index' = index{{ dedupe_flag := enable;
                       deduping := enable && bool_decide (index_state index = IS_OPENED) }})
  /\ (index_target index <> IS_OPENED ->
      index' = index{{ dedupe_flag := enable; index_target := IS_OPENED;
                       changing := true; deduping := false;
                       uds_queue ::= fun q => q ++ [WorkChangeDedupeState] }})
  /\ forall other,
       strcasecmp other "index-close" <> 0 -> strcasecmp other "index-create" <> 0 ->
       strcasecmp other "index-disable" <> 0 -> strcasecmp other "index-enable" <> 0 ->
       message_dedupe_index other w = (- EINVAL, w).
Proof.
  intros Hclose%Z.eqb_neq Hcreate%Z.eqb_neq Hname Hquiet index index'.
  subst index index'.
  assert (Hcall : message_dedupe_index name w
                  = (0, set_target_state IS_OPENED true enable false w)).
  { unfold message_dedupe_index. rewrite Hclose, Hcreate. destruct enable.
    - destruct Hname as [Hd%Z.eqb_neq He%Z.eqb_eq]. by rewrite Hd, He.
    - apply Z.eqb_eq in Hname. by rewrite Hname. }
  rewrite Hcall. cbn [fst snd]. rewrite set_target_state_quiet by done.
  split; [done|]. split; [|split].
  - intros Htarget. rewrite bool_decide_eq_false_2; [done|]. intros Hne. by apply Hne.
  - intros Htarget. rewrite bool_decide_eq_true_2; [done|]. congruence.
  - intros other H1%Z.eqb_neq H2%Z.eqb_neq H3%Z.eqb_neq H4%Z.eqb_neq.
    unfold message_dedupe_index. by rewrite H1, H2, H3, H4.
Qed.

Lemma make_dedupe_index_allocated (events : list make_event) (r : resource) :
  allocated (events ++ [Allocated r]) = allocated events ++ [r].
Proof. unfold allocated. by rewrite omap_app. Qed.

(** X16.  [make_dedupe_index] does not leak and does not return a partly
    made index.  It stores an index exactly when each of its five calls that
    can fail reports success, and then returns [VDO_SUCCESS] with the index
    CLOSED, idle and empty, holding the four things acquired.  When a call
    fails it returns the result of that call, stores no index, and has given
    back everything acquired up to there, last acquired first.  Either way
    the two timer tunables have been written back normalised. *)
Theorem make_dedupe_index_unwinds (results : make_results) (name : string) (config : Z)
    (t : albireo_timers) :
  let '(result, index, t', events) := make_dedupe_index results name config t in
  t' = set_min_albireo_timer_interval
         (min_albireo_timer_interval
            (set_albireo_timeout_interval (albireo_timeout_interval t) t))
         (set_albireo_timeout_interval (albireo_timeout_interval t) t)
  /\ (is_Some index <->
      allocate_index results = UDS_SUCCESS /\ alloc_sprintf results = UDS_SUCCESS
      /\ index_config_to_uds_configuration results = VDO_SUCCESS
      /\ make_work_queue results = VDO_SUCCESS /\ kobject_add results = VDO_SUCCESS)
  /\ match index with
     | Some index =>
         result = VDO_SUCCESS
         /\ index = make_index name config
         /\ allocated events = [ResIndex; ResIndexName; ResConfiguration; ResWorkQueue]
         /\ freed events = []
     | None =>
         freed events = rev (allocated events)
         /\ result
            = (if negb (allocate_index results =? UDS_SUCCESS)
               then allocate_index results
               else if negb (alloc_sprintf results =? UDS_SUCCESS)
               then alloc_sprintf results
               else if negb (index_config_to_uds_configuration results =? VDO_SUCCESS)
               then index_config_to_uds_configuration results
               else if negb (make_work_queue results =? VDO_SUCCESS)
               then make_work_queue results
               else kobject_add results)
         /\ (result <> UDS_SUCCESS \/ result <> VDO_SUCCESS)
     end.
Proof.
  unfold make_dedupe_index.
  destruct (Z.eqb_spec (allocate_index results) UDS_SUCCESS) as [H1|H1];
    destruct (Z.eqb_spec (alloc_sprintf results) UDS_SUCCESS) as [H2|H2];
    destruct (Z.eqb_spec (index_config_to_uds_configuration results) VDO_SUCCESS)
      as [H3|H3];
    destruct (Z.eqb_spec (make_work_queue results) VDO_SUCCESS) as [H4|H4];
    destruct (Z.eqb_spec (kobject_add results) VDO_SUCCESS) as [H5|H5];
    cbn; (split; [done|]); (split; [split; [intros [? ?]; done|intros (?&?&?&?&?); done]|]);
    repeat split; try done; auto.
  all: split; [by intros [? [=]]|intros (?&?&?&?&?); done].
Qed.
End Interface.

(** * The further theorems at work on the example instances *)

(** Starting the index of the device with nonce 7 over an index made for
    nonce 5: the work function ends within four rounds, here after the three
    rounds rebuild, close and create, with the index open. *)
Lemma change_dedupe_state_terminates_witness :
  exists w' e',
    @change_dedupe_state example_codes example_engine_state example_engine 4
      (start_dedupe_index false (example_world 7 ∅)) (Some 5, [])
    = Some (w', e')
    /\ changing (w_index w') = false
    /\ index_state (w_index w') = IS_OPENED
    /\ snd e' = [EngineRebuild; EngineGetConfiguration; EngineClose; EngineCreate].
Proof.
  destruct (@change_dedupe_state_terminates example_codes example_engine_state
              example_engine 4 (start_dedupe_index false (example_world 7 ∅)) (Some 5, []))
    as (w' & e' & Hrun & Hquiet & _).
  - vm_compute. discriminate.
  - lia.
  - exists w', e'. split; [exact Hrun|]. split; [exact Hquiet|].
    vm_compute in Hrun. injection Hrun as <- <-. split; reflexivity.
Defined.

(** Creating an index on the engine that fails: one round, and the index is
    left CLOSED with the error recorded and the target given up. *)
Lemma open_failure_gives_up_witness :
  exists w',
    @change_dedupe_state example_codes (list engine_call) example_broken_engine 1
      (start_dedupe_index true (example_world 7 ∅)) []
    = Some (w', [EngineCreate])
    /\ index_state (w_index w') = IS_CLOSED
    /\ index_target (w_index w') = IS_CLOSED
    /\ error_flag (w_index w') = true
    /\ w_log w' = [LogTargetState ONLINE; LogEngineError "Error creating index" 5;
                   LogTargetStateError].
Proof.
  destruct (@open_failure_gives_up example_codes (list engine_call) example_broken_engine
              (start_dedupe_index true (example_world 7 ∅)) [] [EngineCreate] 5 0 0%nat)
    as (_ & w' & Hrun & Hindex & Hlog).
  - vm_compute. discriminate.
  - reflexivity.
  - vm_compute. discriminate.
  - left. split; reflexivity.
  - exists w'. split; [exact Hrun|]. rewrite Hindex, Hlog. repeat split; reflexivity.
Defined.

(** Stopping an open index on the engine that fails: the one round closes
    it all the same and records the error. *)
Lemma close_failure_still_closes_witness :
  let w := stop_dedupe_index (example_open_world ∅) in
  exists w',
    @change_dedupe_state example_codes (list engine_call) example_broken_engine 1 w []
    = Some (w', [EngineClose])
    /\ index_state (w_index w') = IS_CLOSED
    /\ error_flag (w_index w') = true
    /\ deduping (w_index w') = false
    /\ w_log w' = [LogTargetState CLOSED; LogEngineError "Error closing index" 5].
Proof.
  intros w.
  destruct (@close_failure_still_closes example_codes (list engine_call)
              example_broken_engine w [] [EngineClose] 5 0%nat)
    as (_ & w' & Hrun & Hindex & Hlog).
  - reflexivity.
  - reflexivity.
  - reflexivity.
  - reflexivity.
  - exists w'. split; [exact Hrun|]. rewrite Hindex, Hlog. repeat split; reflexivity.
Defined.

Lemma example_run_reachable (actions : list action) (disk : option Z)
    (s : system example_engine_state) :
  example_run actions disk = Some s ->
  @reachable example_codes example_ticks example_engine_state example_engine s.
Proof.
  intros Hrun.
  eapply (@reachable_perform_all example_codes example_ticks example_engine_state
            example_engine (example_start ++ actions) (example_system disk));
    [|exact Hrun].
  apply reachable_initial. split; [|reflexivity].
  exists "dev=sda offset=4096 size=1024"%string, 7. reflexivity.
Qed.

(** The index started over an index on disk with the right nonce: once the
    worker is done no change is in progress and the index is in its target
    state, OPENED, with no creation asked for. *)
Lemma index_at_rest_witness :
  exists s,
    example_run [] (Some 7) = Some s
    /\ changing (w_index (sys_world s)) = false
    /\ index_state (w_index (sys_world s)) = index_target (w_index (sys_world s))
    /\ index_target (w_index (sys_world s)) = IS_OPENED
    /\ create_flag (w_index (sys_world s)) = false.
Proof.
  destruct (example_run [] (Some 7)) as [s|] eqn:Hrun; [|vm_compute in Hrun; discriminate].
  exists s. split; [reflexivity|].
  destruct (@index_at_rest example_codes example_ticks example_engine_state
              example_engine s) as (Hrest & _).
  { by apply (example_run_reachable [] (Some 7)). }
  vm_compute in Hrun. injection Hrun as <-.
  split; [reflexivity|]. destruct (Hrest eq_refl) as (Hstate & Hcreate & _).
  split; [exact Hstate|]. split; [reflexivity | exact Hcreate].
Defined.

(** The same index shows [online]; with deduplication switched off by
    [index-disable] it shows [offline]. *)
Lemma status_name_tells_witness :
  exists s,
    example_run [] (Some 7) = Some s
    /\ get_dedupe_state_name (sys_world s) = ONLINE
    /\ deduping (w_index (sys_world s)) = true.
Proof.
  destruct (example_run [] (Some 7)) as [s|] eqn:Hrun; [|vm_compute in Hrun; discriminate].
  exists s. split; [reflexivity|].
  destruct (@status_name_tells example_codes example_ticks example_engine_state
              example_engine s) as (_ & _ & Honline).
  { by apply (example_run_reachable [] (Some 7)). }
  vm_compute in Hrun. injection Hrun as <-.
  split; [|reflexivity]. apply Honline; reflexivity.
Defined.

(** A post on the started index takes request 1 from IDLE to BUSY, one of
    the four edges. *)
Lemma request_state_edges_witness :
  exists s s',
    example_run [] (Some 7) = Some s
    /\ @perform example_codes example_ticks example_engine_state example_engine
         (CallEnqueueIndexOperation 10 1%nat UDS_POST) s = Some s'
    /\ request_state <$> w_kvios (sys_world s) !! 1%nat = Some UR_IDLE
    /\ request_state <$> w_kvios (sys_world s') !! 1%nat = Some UR_BUSY.
Proof.
  destruct (example_run [] (Some 7)) as [s|] eqn:Hrun; [|vm_compute in Hrun; discriminate].
  destruct (@perform example_codes example_ticks example_engine_state example_engine
              (CallEnqueueIndexOperation 10 1%nat UDS_POST) s) as [s'|] eqn:Hperform;
    [|discriminate].
  exists s, s'. split; [reflexivity|]. split; [exact Hperform|].
  pose proof (@request_state_edges example_codes example_ticks example_engine_state
                example_engine _ s s' 1%nat Hperform) as Hedge.
  vm_compute in Hrun. injection Hrun as <-.
  vm_compute in Hperform. injection Hperform as <-.
  vm_compute in Hedge.
  destruct Hedge as [Hsame|[[Hbefore Hafter]|[[Hbefore _]|[[Hbefore _]|[Hbefore _]]]]];
    try discriminate.
  split; [reflexivity|]. reflexivity.
Defined.

(** After the start of the index, a post and the move of the worker that
    hands it to the engine, one request is in flight and [active] is 1. *)
Lemma active_counts_busy_witness :
  exists s',
    @perform_all example_codes example_ticks example_engine_state example_engine
      (example_start ++ [CallEnqueueIndexOperation 10 1%nat UDS_POST; WorkerStep 10])
      (example_system (Some 7))
    = Some s'
    /\ busy_count (w_kvios (sys_world s')) = 1%nat
    /\ active (w_index (sys_world s')) = 1.
Proof.
  destruct (@perform_all example_codes example_ticks example_engine_state example_engine
              (example_start ++ [CallEnqueueIndexOperation 10 1%nat UDS_POST; WorkerStep 10])
              (example_system (Some 7))) as [s'|] eqn:Hrun;
    [|vm_compute in Hrun; discriminate].
  exists s'. split; [reflexivity|].
  destruct (@active_counts_busy example_codes example_ticks example_engine_state
              example_engine
              (example_start ++ [CallEnqueueIndexOperation 10 1%nat UDS_POST; WorkerStep 10])
              (example_system (Some 7)) s') as (_ & Hactive).
  - split; [|reflexivity]. exists "dev=sda offset=4096 size=1024"%string, 7. reflexivity.
  - intros k context Hctx.
    change (({[ 1%nat := example_context UR_IDLE 0 ]} : gmap nat dedupe_context) !! k
            = Some context) in Hctx.
    apply lookup_singleton_Some in Hctx as [_ <-]. discriminate.
  - exact Hrun.
  - vm_compute in Hrun. injection Hrun as <-.
    split; [vm_compute; reflexivity|].
    refine (eq_trans (Hactive _) _); vm_compute; reflexivity.
Defined.


(** Two pending requests in submission order, submitted at ticks 0 and 1900,
    and the timer going off at tick 2000 with a time-out of 1250 ticks: the
    first is taken off the list and is no longer BUSY, the second stays. *)
Lemma timeout_takes_all_overdue_witness :
  let kvios : gmap nat dedupe_context :=
    {[ 1%nat := (example_context UR_BUSY 0){{ is_pending := true }};
       2%nat := (example_context UR_BUSY 1900){{ is_pending := true }} ]} in
  let w := (example_world 7 kvios){{ w_index -> pending_head := [1%nat; 2%nat];
                                     w_index -> started_timer := true;
                                     w_index -> active := 2 }} in
  let w' := @timeout_index_operations example_codes example_ticks 2000 w in
  pending_head (w_index w') = [2%nat]
  /\ exists context',
       w_kvios w' !! 1%nat = Some context'
       /\ is_pending context' = false
       /\ request_state context' <> UR_BUSY.
Proof.
  intros kvios w w'.
  destruct (@timeout_takes_all_overdue example_codes example_ticks 2000 w)
    as (Hpending & Hoverdue).
  - split; [change (NoDup [1%nat; 2%nat]); apply (bool_decide_unpack _); vm_compute; exact I|].
    intros k. change (k ∈ [1%nat; 2%nat]
                      <-> exists context, kvios !! k = Some context
                                          /\ is_pending context = true).
    split.
    + intros Hk.
      apply elem_of_cons in Hk as [->|Hk]; [eexists; split; vm_compute; reflexivity|].
      apply elem_of_cons in Hk as [->|Hk]; [eexists; split; vm_compute; reflexivity|].
      by apply elem_of_nil in Hk.
    + intros (context & Hctx & _). subst kvios.
      apply lookup_insert_Some in Hctx as [[<- _]|[_ Hctx]];
        [apply list_elem_of_here|].
      apply lookup_singleton_Some in Hctx as [<- _].
      apply list_elem_of_further, list_elem_of_here.
  - intros i j ki kj ci cj Hij Hi Hj Hci Hcj.
    change ([1%nat; 2%nat] !! i = Some ki) in Hi.
    change ([1%nat; 2%nat] !! j = Some kj) in Hj.
    change (kvios !! ki = Some ci) in Hci. change (kvios !! kj = Some cj) in Hcj.
    destruct i as [|[|i]], j as [|[|j]]; try lia; try discriminate;
      injection Hi as <-; injection Hj as <-;
      vm_compute in Hci; vm_compute in Hcj;
      injection Hci as <-; injection Hcj as <-; cbn; lia.
  - split; [refine (eq_trans Hpending _); vm_compute; reflexivity|].
    destruct (Hoverdue 1%nat ((example_context UR_BUSY 0){{ is_pending := true }}))
      as (_ & context' & Hctx' & Hflag & Hstate).
    + apply list_elem_of_here.
    + vm_compute. reflexivity.
    + vm_compute. reflexivity.
    + exists context'. split; [exact Hctx'|]. split; [exact Hflag | exact Hstate].
Defined.

(** On the kernel ticking 250 times a second: an interval of 3 ms asked for
    is stored as 8 ms and 2 ticks, the two forms agreeing, and writing the
    stored value back changes nothing. *)
Lemma timer_tunables_agree_witness :
  let t1 := @set_albireo_timeout_interval example_ticks 3 example_timers in
  @msecs_to_jiffies example_ticks (albireo_timeout_interval t1)
  = albireo_timeout_jiffies t1
  /\ @set_albireo_timeout_interval example_ticks (albireo_timeout_interval t1) t1 = t1
  /\ albireo_timeout_interval t1 = 8
  /\ albireo_timeout_jiffies t1 = 2.
Proof.
  intros t1.
  destruct (@timer_tunables_agree example_ticks 3 example_timers)
    as (Hagree & Hsame & _).
  - vm_compute. reflexivity.
  - vm_compute. discriminate.
  - split; [exact Hagree|]. split; [exact Hsame|]. split; vm_compute; reflexivity.
Defined.

(** A request submitted at tick 750 with a time-out of 1250 ticks and the
    timer going off at tick 2000, on the deadline: nothing is timed out, and
    the timer is set for tick 2025. *)
Lemma timer_on_the_deadline_witness :
  let kvios : gmap nat dedupe_context :=
    {[ 1%nat := (example_context UR_BUSY 750){{ is_pending := true }} ]} in
  let w := (example_world 7 kvios){{ w_index -> pending_head := [1%nat];
                                     w_index -> started_timer := true;
                                     w_index -> active := 1 }} in
  @timeout_index_operations example_codes example_ticks 2000 w
  = w{{ w_index -> started_timer := true; w_index -> pending_timer := Some 2025 }}.
Proof.
  intros kvios w.
  refine (eq_trans
            (@timer_on_the_deadline example_codes example_ticks 2000 w 1%nat []
               ((example_context UR_BUSY 750){{ is_pending := true }})
               _ _ _ _ _ _ _ _) _).
  1-2: vm_compute; reflexivity.
  1: vm_compute; reflexivity.
  1-3: vm_compute; discriminate.
  1: vm_compute; reflexivity.
  1: vm_compute; reflexivity.
  reflexivity.
Defined.

(** Three time-outs told at ticks 100, 110 and 120 on a fresh index: one
    report is queued, due one reporting interval after tick 100, and it logs
    the three together. *)
Lemma timeouts_reported_together_witness :
  let w := example_world 7 ∅ in
  let w1 := fold_left (fun w jiffies => report_dedupe_timeout jiffies w) [100; 110; 120] w in
  w_cpu_queue w1 = [100 + reporting_interval (timeout_reporter (w_index w))]
  /\ get_dedupe_timeout_count (w_index w1) = 3
  /\ w_log (report_events_work w1) = [LogTimeouts 3].
Proof.
  intros w w1.
  destruct (timeouts_reported_together 100 [110; 120] w)
    as (Hqueue & Hcount & Hlog & _).
  - reflexivity.
  - reflexivity.
  - vm_compute. reflexivity.
  - split; [refine (eq_trans Hqueue _); vm_compute; reflexivity|].
    split; [refine (eq_trans Hcount _); vm_compute; reflexivity|].
    refine (eq_trans Hlog _). vm_compute. reflexivity.
Defined.

(** Request 1 posts the advice (state 7, block 42); the engine completes the
    request as found with the metadata it was handed: the callback carries
    that advice. *)
Lemma posted_advice_comes_back_witness :
  let w := example_open_world {[ 1%nat := example_context UR_IDLE 0 ]} in
  let w1 := @post_dedupe_advice example_codes 10 1%nat w in
  exists posted,
    w_kvios w1 !! 1%nat = Some posted
    /\ request_state posted = UR_BUSY
    /\ w_callbacks (@engine_completes example_codes 1%nat 0 true
                      (newMetadata (uds_request posted)) w1)
       = [{| cb_kvio := 1%nat; cb_status := 0;
             cb_advice := Some {| pbn := 42; state := 7 |} |}].
Proof.
  intros w w1.
  destruct (@posted_advice_comes_back example_codes 10 1%nat w (example_context UR_IDLE 0))
    as (posted & Hposted & Hbusy & Htype & Hback).
  - vm_compute. reflexivity.
  - reflexivity.
  - reflexivity.
  - vm_compute. lia.
  - vm_compute. split; [discriminate | reflexivity].
  - vm_compute. split; [discriminate | reflexivity].
  - exists posted. split; [exact Hposted|]. split; [exact Hbusy|].
    refine (eq_trans (Hback 1%nat w1 posted Hposted Hbusy (or_introl Htype)) _).
    vm_compute. reflexivity.
Defined.

(** On the engine that fails every call with 5: the work function answers
    request 1 at once with the status 5 and no advice, and [active] goes
    from 1 to 0. *)
Lemma start_index_operation_refused_witness :
  let w := (example_open_world {[ 1%nat := example_context UR_BUSY 10 ]})
             {{ w_index -> active := 1 }} in
  let w' := fst (@start_index_operation example_codes (list engine_call)
                   example_broken_engine 10 1%nat w []) in
  w_callbacks w' = [{| cb_kvio := 1%nat; cb_status := 5; cb_advice := None |}]
  /\ request_state <$> w_kvios w' !! 1%nat = Some UR_IDLE
  /\ pending_head (w_index w') = []
  /\ active (w_index w') = 0.
Proof.
  intros w w'.
  destruct (@start_index_operation_refused example_codes (list engine_call)
              example_broken_engine 10 1%nat w [] [EngineStartChunk]
              (example_context UR_BUSY 10) 5)
    as (w2 & context' & Hrun & Hcallbacks & Hctx & Hidle & _ & _ & Hpending & Hactive & _).
  - vm_compute. reflexivity.
  - reflexivity.
  - intros Hin. by apply elem_of_nil in Hin.
  - vm_compute. reflexivity.
  - vm_compute. discriminate.
  - subst w'. rewrite Hrun. cbn [fst].
    split; [refine (eq_trans Hcallbacks _); vm_compute; reflexivity|].
    split; [rewrite Hctx; cbn; by rewrite Hidle|].
    split; [refine (eq_trans Hpending _); vm_compute; reflexivity|].
    refine (eq_trans Hactive _). vm_compute. reflexivity.
Defined.

(** The message INDEX-DISABLE, in capitals, to the open and deduping index:
    it is accepted, deduplication is switched off at once and nothing is
    queued; an unknown message is answered with -22. *)
Lemma message_enable_disable_witness :
  let w := example_open_world ∅ in
  let answer := @message_dedupe_index example_libc "INDEX-DISABLE" w in
  fst answer = 0
  /\ deduping (w_index (snd answer)) = false
  /\ dedupe_flag (w_index (snd answer)) = false
  /\ uds_queue (w_index (snd answer)) = []
  /\ @message_dedupe_index example_libc "index-dump" w = (-22, w).
Proof.
  intros w answer.
  destruct (@message_enable_disable example_libc "INDEX-DISABLE" w false)
    as (Hanswer & Hopened & _ & Hother).
  - vm_compute. discriminate.
  - vm_compute. discriminate.
  - vm_compute. reflexivity.
  - reflexivity.
  - split; [exact Hanswer|].
    assert (Hindex := Hopened eq_refl). subst answer.
    split; [by rewrite Hindex|]. split; [by rewrite Hindex|].
    split; [by rewrite Hindex|].
    apply Hother; vm_compute; discriminate.
Defined.
